(** * Reward-period analysis tool: a shallow embedding and its properties

    The program is a single JavaScript workflow ([main]) over a block-pinned
    chain client.  Chain reads are modelled as the fields of a [Chain]
    record (a read that throws is [None]); thrown errors are values of
    [Failure] threaded through the [Result] monad; block numbers and period
    indices are JavaScript numbers holding integers ([jsnum], with [NaN]),
    computed exactly in the workflow and with the rounding of binary64 in
    [Binary64]; reward amounts are [BN] big integers ([Z]); the vote ratio
    and the threshold are binary64 numbers ([float]); a text is the
    sequence of bytes of its UTF-8 encoding. *)

From Stdlib Require Import ZArith List String Ascii Bool Lia Permutation.
From Stdlib Require Import Floats Uint63.
Import ListNotations.

Local Open Scope string_scope.
Local Open Scope Z_scope.

(** ** JavaScript numbers used as block numbers and period indices *)

(** The block numbers and period indices of the workflow are integers that
    the chain client resolves, far inside the safe range of doubles
    (magnitude at most 2^53), where the arithmetic of doubles is exact: the
    operations below are the exact ones.  What the same operations give
    beyond that range is in [Binary64].  The one other value the code
    guards against is [NaN]. *)
Inductive jsnum :=
| Num (z : Z)
| NaN.

Definition jsub (a b : jsnum) : jsnum :=
  match a, b with Num x, Num y => Num (x - y) | _, _ => NaN end.
Definition jadd (a b : jsnum) : jsnum :=
  match a, b with Num x, Num y => Num (x + y) | _, _ => NaN end.
Definition jmul (a b : jsnum) : jsnum :=
  match a, b with Num x, Num y => Num (x * y) | _, _ => NaN end.
Definition isNaN (a : jsnum) : bool :=
  match a with NaN => true | Num _ => false end.
(** Relational operators are false as soon as an operand is [NaN]. *)
Definition jgt (a b : jsnum) : bool :=
  match a, b with Num x, Num y => y <? x | _, _ => false end.
Definition jge (a b : jsnum) : bool :=
  match a, b with Num x, Num y => y <=? x | _, _ => false end.
Definition jle (a b : jsnum) : bool :=
  match a, b with Num x, Num y => x <=? y | _, _ => false end.

(** ** Errors *)

(** The place that wraps a caught error into a new message
    ([throw new Error(`<stage>: ${error.message}`)]). *)
Inductive Stage :=
| FailedToValidateSubscription
| StartBlockSearchFailed
| FailedToFindBlockBefore
| FailedToCalculateEligibleRounds
| FailedToGetVotes
| CouldNotFindSlaThreshold
| FailedToGetRewards
| FailedToFetchGroupInfo
| FailedToFetchPeriodInfo
| FailedToCountSystemVotingRounds
| IndexerQueryFailed
| FailedToVerifyProvidedBlock
| MainGroupInfo
| MainPeriodInfo
| MainInitialBlock
| MainEligibleRounds
| MainVotes
| MainSlaThreshold
| MainInitialRewards
| MainFinalRewards
| MainSystemVotingRounds.

Inductive Failure :=
| QueryFailed                       (* a chain-client or network call threw *)
| TypeError                         (* member access on undefined, unwrap of None *)
| RequiredParameter (name : string)
| NotSubscribedNoRecord             (* stakeRecord.isNone *)
| NotSubscribed (stake : Z)         (* "... was not subscribed ... (stake: ...)" *)
| PeriodInFuture
| PeriodIsCurrent
| NoEventInRange (startBlock endBlock : jsnum)
| EventNotInProvidedBlock
| HttpStatus                        (* "HTTP error! status: ..." *)
| GraphQLFailure                    (* "GraphQL errors: ..." *)
| IndexerNoResults
| InvalidPeriodBlockCalculation
| Wrapped (stage : Stage) (cause : Failure).

Inductive Result (A : Type) :=
| Ok (a : A)
| Err (e : Failure).

Arguments Ok {A} a.
Arguments Err {A} e.

Definition bind {A B} (r : Result A) (k : A -> Result B) : Result B :=
  match r with
  | Ok a => k a
  | Err e => Err e
  end.

(** [try { body } catch (error) { throw new Error(`stage: ...`) }] *)
Definition rethrow {A} (stage : Stage) (body : Result A) : Result A :=
  match body with
  | Ok a => Ok a
  | Err e => Err (Wrapped stage e)
  end.

(** An awaited client call: a rejected promise is a thrown [QueryFailed]. *)
Definition await {A} (q : option A) : Result A :=
  match q with
  | Some a => Ok a
  | None => Err QueryFailed
  end.

Declare Scope result_scope.
Delimit Scope result_scope with result.
Notation "'let*' x ':=' c 'in' k" := (bind c (fun x => k))
  (at level 10, x name, c at level 100, k at level 200) : result_scope.
Local Open Scope result_scope.

(** ** Period arithmetic *)

Module Period.

(** [activeRewardPeriodInfo.toJSON()] *)
Record Descriptor := {
  index : jsnum;
  firstBlock : jsnum;
  length : jsnum
}.

(** The object returned by [getPeriodInfo]. *)
Record Info := {
  info_index : jsnum;
  info_start : jsnum;
  info_end : jsnum;
  info_length : jsnum;
  info_firstBlock : jsnum
}.

(** [currentPeriod.firstBlock - (currentPeriod.index - periodIndex) * currentPeriod.length] *)
Definition periodStartBlock (currentPeriod : Descriptor) (periodIndex : jsnum) : jsnum :=
  let periodsBack := jsub (index currentPeriod) periodIndex in
  jsub (firstBlock currentPeriod) (jmul periodsBack (length currentPeriod)).

Definition periodEndBlock (currentPeriod : Descriptor) (periodIndex : jsnum) : jsnum :=
  jsub (jadd (periodStartBlock currentPeriod periodIndex) (length currentPeriod)) (Num 1).

(** The body of [getPeriodInfo] once the descriptor has been read. *)
Definition periodInfoOf (currentPeriod : Descriptor) (periodIndex : jsnum) : Result Info :=
  let start := periodStartBlock currentPeriod periodIndex in
  let end_ := periodEndBlock currentPeriod periodIndex in
  if isNaN start || isNaN end_ then Err InvalidPeriodBlockCalculation
  else Ok {| info_index := periodIndex;
             info_start := start;
             info_end := end_;
             info_length := length currentPeriod;
             info_firstBlock := start |}.

End Period.

(** ** Period arithmetic in binary64

    [getPeriodInfo] computes with JavaScript numbers, that is in binary64:
    each operation gives the exact result rounded to the nearest double,
    ties to even, and an infinity on overflow.  The rounding is the one of
    the Standard Library's specification of IEEE 754, [binary_normalize],
    which is also how the machine converts an integer to a double. *)

Module Binary64.

(** A double holding an integer (the two zeros are both [Integer 0]), an
    infinity, or [NaN]. *)
Inductive number :=
| Integer (z : Z)
| Infinity (negative : bool)
| NotANumber.

(** The value of a double that holds an integer. *)
Definition ofSpecFloat (x : spec_float) : number :=
  match x with
  | S754_zero _ => Integer 0
  | S754_infinity negative => Infinity negative
  | S754_nan => NotANumber
  | S754_finite negative m e => Integer (cond_Zopp negative (Z.shiftl (Zpos m) e))
  end.

(** The double nearest to the integer [z]. *)
Definition round (z : Z) : number :=
  ofSpecFloat (binary_normalize prec emax z 0 false).

(** [a - b] *)
Definition sub (a b : number) : number :=
  match a, b with
  | Integer x, Integer y => round (x - y)
  | Integer _, Infinity negative => Infinity (negb negative)
  | Infinity negative, Integer _ => Infinity negative
  | Infinity negative, Infinity negative' =>
      if Bool.eqb negative negative' then NotANumber else Infinity negative
  | _, _ => NotANumber
  end.

(** [a + b] *)
Definition add (a b : number) : number :=
  match a, b with
  | Integer x, Integer y => round (x + y)
  | Integer _, Infinity negative => Infinity negative
  | Infinity negative, Integer _ => Infinity negative
  | Infinity negative, Infinity negative' =>
      if Bool.eqb negative negative' then Infinity negative else NotANumber
  | _, _ => NotANumber
  end.

(** [a * b] *)
Definition mul (a b : number) : number :=
  match a, b with
  | Integer x, Integer y => round (x * y)
  | Integer x, Infinity negative | Infinity negative, Integer x =>
      if x =? 0 then NotANumber else Infinity (xorb negative (x <? 0))
  | Infinity negative, Infinity negative' => Infinity (xorb negative negative')
  | _, _ => NotANumber
  end.

Definition isNaN (a : number) : bool :=
  match a with NotANumber => true | _ => false end.

Record Descriptor := {
  index : number;
  firstBlock : number;
  length : number
}.

Record Info := {
  info_index : number;
  info_start : number;
  info_end : number;
  info_length : number;
  info_firstBlock : number
}.

(** [currentPeriod.firstBlock - (currentPeriod.index - periodIndex) * currentPeriod.length] *)
Definition periodStartBlock (currentPeriod : Descriptor) (periodIndex : number) : number :=
  let periodsBack := sub (index currentPeriod) periodIndex in
  sub (firstBlock currentPeriod) (mul periodsBack (length currentPeriod)).

(** [periodStartBlock + currentPeriod.length - 1] *)
Definition periodEndBlock (currentPeriod : Descriptor) (periodIndex : number) : number :=
  sub (add (periodStartBlock currentPeriod periodIndex) (length currentPeriod)) (Integer 1).

(** The body of [getPeriodInfo] once the descriptor has been read. *)
Definition periodInfoOf (currentPeriod : Descriptor) (periodIndex : number) : Result Info :=
  let start := periodStartBlock currentPeriod periodIndex in
  let end_ := periodEndBlock currentPeriod periodIndex in
  if isNaN start || isNaN end_ then Err InvalidPeriodBlockCalculation
  else Ok {| info_index := periodIndex;
             info_start := start;
             info_end := end_;
             info_length := length currentPeriod;
             info_firstBlock := start |}.

(** The number of the workflow as a double. *)
Definition ofJsnum (n : jsnum) : number :=
  match n with
  | Num z => Integer z
  | NaN => NotANumber
  end.

(** The safe integers: each of them is a double, and a result among them
    is not rounded. *)
Definition safe (z : Z) : Prop := - 2 ^ 53 <= z <= 2 ^ 53.

(** Every number that [getPeriodInfo] meets on this descriptor and this
    period index is a safe integer. *)
Definition safePeriod (idx firstBlock len target : Z) : Prop :=
  safe (idx - target)
  /\ safe ((idx - target) * len)
  /\ safe (firstBlock - (idx - target) * len)
  /\ safe (firstBlock - (idx - target) * len + len)
  /\ safe (firstBlock - (idx - target) * len + len - 1).

End Binary64.

(** ** The chain client, the indexer and the configuration *)

Definition BlockHash := string.

(** One record of [api.query.system.events.at(hash)]: [event.section],
    [event.method] and the numeric arguments [event.data]. *)
Record Event := {
  section : string;
  method : string;
  data : list Z
}.

(** [stakeRecordData.toHuman()] as [Object.entries] walks it: the pairs
    ([parseInt(period)], stake as parsed into a [BN]). *)
Definition StakeRecord := list (Z * Z).

(** [groupInfo.unwrap().toHuman()], the field the program reads: the
    threshold as a text such as "60.00%", or [null] ([None]) when the
    group has none.  The field belongs to the type of the group, so it is
    never [undefined]. *)
Record GroupInfo := {
  slaVotingThreshold : option string
}.

(** Block-pinned reads.  [None] is a rejected promise (the call throws);
    a storage item that can be missing answers with an inner [option]. *)
Record Chain := {
  activeRewardPeriodInfo : option Period.Descriptor;
  activeRewardPeriodInfoAt : BlockHash -> option Period.Descriptor;
  getBlockHash : Z -> option BlockHash;
  getHeader : BlockHash -> option Z;
  eventsAt : BlockHash -> option (list Event);
  solutionGroupStakeRecordsAt :
    BlockHash -> string -> string -> option (option StakeRecord);
  (* [systemVotingRound.entriesAt(hash, period).length] *)
  systemVotingRoundEntriesAt : BlockHash -> jsnum -> option Z;
  numberOfVotingsAt : BlockHash -> jsnum -> string -> option Z;
  numberOfVotingsWithNominationAt : BlockHash -> jsnum -> string -> option Z;
  numberOfOperatorVotingsWithNominationAt :
    BlockHash -> jsnum -> string -> string -> option (option Z);
  voteMetadataAt : BlockHash -> string -> jsnum -> string -> option Z;
  solutionsGroupsAt : BlockHash -> string -> option (option GroupInfo);
  (* the decoded value has components [0] and [1] ([Some]) or none; the
     client decodes every value of the item with one shape ([tupleShaped]) *)
  earnedRewardsAt : BlockHash -> string -> string -> option (option (Z * Z))
}.

(** What the client answers for a pair of totals kept in storage with a
    default: the pair stored, or the default of its type, (0, 0), when
    none is stored. *)
Definition valueOrDefault (stored : option (Z * Z)) : Z * Z :=
  match stored with
  | Some totals => totals
  | None => (0, 0)
  end.

(** [api.rpc.chain.getBlockHash(n)] for a JavaScript number: [NaN] does
    not encode as a block number. *)
Definition rpcGetBlockHash (api : Chain) (n : jsnum) : Result BlockHash :=
  match n with
  | Num z => await (getBlockHash api z)
  | NaN => Err QueryFailed
  end.

(** The reply of the GraphQL endpoint to the one query the program sends. *)
Record IndexerReply := {
  ok : bool;                               (* response.ok *)
  errors : bool;                           (* data.errors is set *)
  events : option (list Z)                 (* data.data.events[i].blockNumber *)
}.

(** [fetch(indexerUrl, ...)]; [None] when the endpoint is unreachable. *)
Definition Indexer := string -> option IndexerReply.

(** constants.js *)
Record Config := {
  INDEXER_URL : option string;
  REWARD_PERIOD_INDEX : jsnum;
  GROUP_NAMESPACE : option string;
  ADDRESS : option string;
  SPECIFIC_BLOCK_HASH : option string
}.

(** Truthiness of a possibly undefined string. *)
Definition truthy (s : option string) : bool :=
  match s with
  | Some s => negb (s =? "")%string
  | None => false
  end.

(** The white space and line terminators of JavaScript encoded on one
    byte: U+0009 to U+000D and U+0020. *)
Definition isWhitespace (a : ascii) : bool :=
  let n := nat_of_ascii a in
  ((9 <=? n) && (n <=? 13))%nat || (n =? 32)%nat.

(** On two bytes: U+00A0. *)
Definition isWhitespace2 (a b : ascii) : bool :=
  ((nat_of_ascii a =? 194) && (nat_of_ascii b =? 160))%nat.

(** On three bytes: U+1680, U+2000 to U+200A, U+2028, U+2029, U+202F,
    U+205F, U+3000 and U+FEFF. *)
Definition isWhitespace3 (a b c : ascii) : bool :=
  let '(x, y, z) := (nat_of_ascii a, nat_of_ascii b, nat_of_ascii c) in
  ((x =? 225) && (y =? 154) && (z =? 128)
   || (x =? 226) && (y =? 128)
      && ((128 <=? z) && (z <=? 138) || (z =? 168) || (z =? 169) || (z =? 175))
   || (x =? 226) && (y =? 129) && (z =? 159)
   || (x =? 227) && (y =? 128) && (z =? 128)
   || (x =? 239) && (y =? 187) && (z =? 191))%nat.

(** The text without its leading white space. *)
Fixpoint dropWhitespace (s : list ascii) : list ascii :=
  match s with
  | a :: rest =>
      if isWhitespace a then dropWhitespace rest
      else
        match rest with
        | b :: rest' =>
            if isWhitespace2 a b then dropWhitespace rest'
            else
              match rest' with
              | c :: rest'' =>
                  if isWhitespace3 a b c then dropWhitespace rest'' else s
              | [] => s
              end
        | [] => s
        end
  | [] => []
  end.

(** [s.trim() === ""]: the text is white space only. *)
Definition trimIsEmpty (s : string) : bool :=
  match dropWhitespace (list_ascii_of_string s) with
  | [] => true
  | _ :: _ => false
  end.

Definition orEmpty (s : option string) : string :=
  match s with Some s => s | None => "" end.

(** ** Input validation and the stake ledger *)

(** The [for ... of Object.entries(stakeRecordHuman)] loop: the state is
    ([lastUpdatePeriod], [stakeValue]). *)
Fixpoint scanStakeRecord (entries : StakeRecord) (lastUpdatePeriod stakeValue : Z)
  : Z * Z :=
  match entries with
  | [] => (lastUpdatePeriod, stakeValue)
  | (periodNum, stake) :: rest =>
      if lastUpdatePeriod <? periodNum
      then scanStakeRecord rest periodNum stake
      else scanStakeRecord rest lastUpdatePeriod stakeValue
  end.

(** From [let hasValidStake = false] to the [if (!hasValidStake) throw]:
    the stake printed on success, or the not-subscribed error. *)
Definition checkStake (rewardPeriodIndex : jsnum) (stakeRecord : StakeRecord)
  : Result Z :=
  let '(lastUpdatePeriod, stakeValue) := scanStakeRecord stakeRecord 0 0 in
  let hasValidStake :=
    jge rewardPeriodIndex (Num lastUpdatePeriod) && (0 <? stakeValue) in
  if hasValidStake then Ok stakeValue else Err (NotSubscribed stakeValue).

Definition checkParameters (cfg : Config) : Result unit :=
  if isNaN (REWARD_PERIOD_INDEX cfg) || jle (REWARD_PERIOD_INDEX cfg) (Num 0)
  then Err (RequiredParameter "REWARD_PERIOD_INDEX")
  else if negb (truthy (GROUP_NAMESPACE cfg)) || trimIsEmpty (orEmpty (GROUP_NAMESPACE cfg))
  then Err (RequiredParameter "GROUP_NAMESPACE")
  else if negb (truthy (ADDRESS cfg)) || trimIsEmpty (orEmpty (ADDRESS cfg))
  then Err (RequiredParameter "ADDRESS")
  else Ok tt.

(** The [catch] of [validateInput]: messages that include
    "was not subscribed" are thrown again unchanged. *)
Definition rethrowUnlessNotSubscribed {A} (body : Result A) : Result A :=
  match body with
  | Ok a => Ok a
  | Err NotSubscribedNoRecord => Err NotSubscribedNoRecord
  | Err (NotSubscribed stake) => Err (NotSubscribed stake)
  | Err e => Err (Wrapped FailedToValidateSubscription e)
  end.

Definition validateInput (cfg : Config) (api : Chain) : Result Z :=
  let* _ := checkParameters cfg in
  rethrowUnlessNotSubscribed
    (let* currentPeriod := await (activeRewardPeriodInfo api) in
     let periodStartBlock :=
       Period.periodStartBlock currentPeriod (REWARD_PERIOD_INDEX cfg) in
     let* periodBlockHash := rpcGetBlockHash api periodStartBlock in
     let* stakeRecord :=
       await (solutionGroupStakeRecordsAt api periodBlockHash
                (orEmpty (GROUP_NAMESPACE cfg)) (orEmpty (ADDRESS cfg))) in
     match stakeRecord with
     | None => Err NotSubscribedNoRecord
     | Some stakeRecordData => checkStake (REWARD_PERIOD_INDEX cfg) stakeRecordData
     end).

(** ** Finding the block of the distribution event *)

Definition jsnum_eqb (a b : jsnum) : bool :=
  match a, b with Num x, Num y => x =? y | _, _ => false end.

(** The [for (const { event } of events)] loop shared by the pinned-hash
    check and the chain scan: [Ok true] at the first event of
    [workerNodePallet.RewardsCalculatedForPeriod] whose first argument is
    the period; reading [data[0]] of an event without arguments throws. *)
Fixpoint hasRewardsCalculatedForPeriod (events : list Event) (periodIndex : jsnum)
  : Result bool :=
  match events with
  | [] => Ok false
  | event :: rest =>
      if (section event =? "workerNodePallet")%string
         && (method event =? "RewardsCalculatedForPeriod")%string
      then match data event with
           | [] => Err TypeError
           | d :: _ =>
               if jsnum_eqb (Num d) periodIndex then Ok true
               else hasRewardsCalculatedForPeriod rest periodIndex
           end
      else hasRewardsCalculatedForPeriod rest periodIndex
  end.

(** One turn of the scan loop: [Some hash] when the block holds the event;
    a block whose reads throw is skipped. *)
Definition scanBlock (api : Chain) (periodIndex : jsnum) (blockNumber : Z)
  : option BlockHash :=
  match
    (let* blockHash := await (getBlockHash api blockNumber) in
     let* events := await (eventsAt api blockHash) in
     let* found := hasRewardsCalculatedForPeriod events periodIndex in
     Ok (if found then Some blockHash else None))
  with
  | Ok r => r
  | Err _ => None
  end.

(** [for (blockNumber = startBlock; blockNumber <= nextPeriodEndBlock; blockNumber++)],
    with [count] the number of turns left. *)
Fixpoint scanBlocks (api : Chain) (periodIndex : jsnum) (blockNumber : Z) (count : nat)
  : option BlockHash :=
  match count with
  | O => None
  | S count' =>
      match scanBlock api periodIndex blockNumber with
      | Some blockHash => Some blockHash
      | None => scanBlocks api periodIndex (blockNumber + 1) count'
      end
  end.

Definition scanRange (api : Chain) (periodIndex startBlock nextPeriodEndBlock : jsnum)
  : Result BlockHash :=
  match startBlock, nextPeriodEndBlock with
  | Num s, Num e =>
      match scanBlocks api periodIndex s (Z.to_nat (e - s + 1)) with
      | Some blockHash => Ok blockHash
      | None => Err (NoEventInRange startBlock nextPeriodEndBlock)
      end
  | _, _ => Err (NoEventInRange startBlock nextPeriodEndBlock)
  end.

Definition findBlockForPeriod (api : Chain) (periodIndex : jsnum) : Result BlockHash :=
  let* currentPeriod := await (activeRewardPeriodInfo api) in
  if jgt periodIndex (Period.index currentPeriod) then Err PeriodInFuture else
  let nextPeriodIndex := jadd periodIndex (Num 1) in
  if jgt nextPeriodIndex (Period.index currentPeriod) then Err PeriodIsCurrent else
  let requestedPeriodStartBlock := Period.periodStartBlock currentPeriod periodIndex in
  let nextPeriodStartBlock := jadd requestedPeriodStartBlock (Period.length currentPeriod) in
  let nextPeriodEndBlock :=
    jsub (jadd nextPeriodStartBlock (Period.length currentPeriod)) (Num 1) in
  let previousPeriodIndex := jsub periodIndex (Num 1) in
  let* startBlock :=
    if jge previousPeriodIndex (Num 0) then
      rethrow StartBlockSearchFailed
        (let previousPeriodEndBlock := jsub requestedPeriodStartBlock (Num 1) in
         let* previousPeriodEndHash := rpcGetBlockHash api previousPeriodEndBlock in
         let* totalSystemVotingRounds :=
           await (systemVotingRoundEntriesAt api previousPeriodEndHash previousPeriodIndex) in
         let startBlock := jadd nextPeriodStartBlock (Num totalSystemVotingRounds) in
         Ok (if jgt startBlock nextPeriodEndBlock then nextPeriodStartBlock else startBlock))
    else Ok nextPeriodStartBlock in
  scanRange api periodIndex startBlock nextPeriodEndBlock.

(** The [for (const event of data.data.events)] loop of the indexer query. *)
Fixpoint firstInRange (blockNumbers : list Z) (searchStartBlock searchEndBlock : jsnum)
  : option Z :=
  match blockNumbers with
  | [] => None
  | blockNumber :: rest =>
      if jge (Num blockNumber) searchStartBlock && jle (Num blockNumber) searchEndBlock
      then Some blockNumber
      else firstInRange rest searchStartBlock searchEndBlock
  end.

(** [null] is [Ok None]. *)
Definition queryIndexerForRewardsBlock
  (indexer : Indexer) (indexerUrl : string) (periodIndex : jsnum) (api : Chain)
  : Result (option Z) :=
  rethrow IndexerQueryFailed
    (let* response := await (indexer indexerUrl) in
     if negb (ok response) then Err HttpStatus else
     if errors response then Err GraphQLFailure else
     match events response with
     | None | Some [] => Ok None
     | Some blockNumbers =>
         let* currentPeriod := await (activeRewardPeriodInfo api) in
         let periodLength := Period.length currentPeriod in
         let periodStartBlock := Period.periodStartBlock currentPeriod periodIndex in
         let nextPeriodStartBlock := jadd periodStartBlock periodLength in
         let searchStartBlock := nextPeriodStartBlock in
         let searchEndBlock := jadd searchStartBlock (Num 2000) in
         Ok (firstInRange blockNumbers searchStartBlock searchEndBlock)
     end).

(** What [main] prints when it enters a way of finding the block. *)
Inductive Attempt :=
| UsingProvidedBlockHash       (* "Using provided block hash: ..." *)
| QueryingIndexer              (* "Querying indexer at ..." *)
| FallingBackToBlockchainSearch (* "Indexer query failed: ..., falling back to blockchain search" *)
| SearchingForEvent.           (* "Searching for RewardsCalculatedForPeriod event ..." *)

(** Step 1 of [main]: the block hash, and the attempts in the order made. *)
Definition locateDistributionBlock (cfg : Config) (api : Chain) (indexer : Indexer)
  : list Attempt * Result BlockHash :=
  if truthy (SPECIFIC_BLOCK_HASH cfg) then
    let hash := orEmpty (SPECIFIC_BLOCK_HASH cfg) in
    ([UsingProvidedBlockHash],
     rethrow FailedToVerifyProvidedBlock
       (let* events := await (eventsAt api hash) in
        let* eventFound := hasRewardsCalculatedForPeriod events (REWARD_PERIOD_INDEX cfg) in
        if eventFound then Ok hash else Err EventNotInProvidedBlock))
  else if truthy (INDEXER_URL cfg) then
    match
      (let* indexerBlockNumber :=
         queryIndexerForRewardsBlock indexer (orEmpty (INDEXER_URL cfg))
           (REWARD_PERIOD_INDEX cfg) api in
       match indexerBlockNumber with
       | Some blockNumber =>
           if blockNumber =? 0 then Err IndexerNoResults
           else await (getBlockHash api blockNumber)
       | None => Err IndexerNoResults
       end)
    with
    | Ok blockHash => ([QueryingIndexer], Ok blockHash)
    | Err _ =>
        ([QueryingIndexer; FallingBackToBlockchainSearch; SearchingForEvent],
         findBlockForPeriod api (REWARD_PERIOD_INDEX cfg))
    end
  else
    ([SearchingForEvent], findBlockForPeriod api (REWARD_PERIOD_INDEX cfg)).

(** ** The block before the distribution *)

(** [event.method === "EarnedRewardCalculated"] for some event of the block. *)
Definition hasEarnedRewardCalculated (events : list Event) : bool :=
  existsb (fun event => (method event =? "EarnedRewardCalculated")%string) events.

(** The reads of one turn of the backward walk; [None] when one throws. *)
Definition checkBlock (api : Chain) (checkBlockNumber : Z)
  : option (BlockHash * bool) :=
  match getBlockHash api checkBlockNumber with
  | Some checkBlockHash =>
      match eventsAt api checkBlockHash with
      | Some events => Some (checkBlockHash, hasEarnedRewardCalculated events)
      | None => None
      end
  | None => None
  end.

Definition searchRange : nat := 50.

(** [for (let i = 1; i <= searchRange; i++)] with [turns] turns left; the
    result is ([initialBlockHash], [lastBlockWithEvent]) after the loop. *)
Fixpoint walkBack (api : Chain) (blockNumber i : Z) (turns : nat)
  (lastBlockWithEvent : option BlockHash)
  : option BlockHash * option BlockHash :=
  match turns with
  | O => (None, lastBlockWithEvent)
  | S turns' =>
      let checkBlockNumber := blockNumber - i in
      if checkBlockNumber <? 0 then (None, lastBlockWithEvent)
      else
        match checkBlock api checkBlockNumber with
        | Some (checkBlockHash, true) =>
            walkBack api blockNumber (i + 1) turns' (Some checkBlockHash)
        | Some (checkBlockHash, false) =>
            (Some checkBlockHash, lastBlockWithEvent)
        | None => walkBack api blockNumber (i + 1) turns' lastBlockWithEvent
        end
  end.

Definition findBlockBeforeRewardsCalculated
  (api : Chain) (rewardsCalculatedBlockHash : BlockHash) : Result BlockHash :=
  rethrow FailedToFindBlockBefore
    (let* blockNumber := await (getHeader api rewardsCalculatedBlockHash) in
     match walkBack api blockNumber 1 searchRange None with
     | (Some initialBlockHash, _) => Ok initialBlockHash
     | (None, Some lastBlockWithEvent) => Ok lastBlockWithEvent
     | (None, None) => await (getBlockHash api (blockNumber - 1))
     end).

(** ** Reading the state at a block *)

(** The values read are codec objects, never falsy, so the
    "Some voting data not found" check of the source cannot fire; a failed
    or empty read of the operator counter counts as 0. *)
Definition getEligibleRounds (cfg : Config) (api : Chain)
  (period : jsnum) (groupNs : string) (blockHash : BlockHash) : Result Z :=
  rethrow FailedToCalculateEligibleRounds
    (let* numberOfVotings := await (numberOfVotingsAt api blockHash period groupNs) in
     let* numberOfVotingsWithNomination :=
       await (numberOfVotingsWithNominationAt api blockHash period groupNs) in
     let operatorVotingsWithNomination :=
       match numberOfOperatorVotingsWithNominationAt api blockHash period
               (orEmpty (ADDRESS cfg)) groupNs with
       | Some (Some n) => n
       | Some None => 0
       | None => 0
       end in
     Ok (numberOfVotings
         - (numberOfVotingsWithNomination - operatorVotingsWithNomination))).

Definition getVotesForAddress (api : Chain)
  (period : jsnum) (groupNs address : string) (blockHash : BlockHash) : Result Z :=
  rethrow FailedToGetVotes
    (await (voteMetadataAt api blockHash groupNs period address)).

(** [groupInfo.unwrap()] throws on a missing group. *)
Definition unwrap {A} (o : option A) : Result A :=
  match o with
  | Some a => Ok a
  | None => Err TypeError
  end.

Definition getSlaThreshold (api : Chain)
  (period : jsnum) (groupNs : string) (blockHash : BlockHash)
  : Result (option string) :=
  rethrow CouldNotFindSlaThreshold
    (let* groupInfo := await (solutionsGroupsAt api blockHash groupNs) in
     let* group := unwrap groupInfo in
     Ok (slaVotingThreshold group)).

(** [earnedRewards[0].toHuman()] in the debug line throws when the value
    read has no components. *)
Definition getRewardsForAddress (api : Chain)
  (period : jsnum) (groupNs address : string) (blockHash : BlockHash)
  : Result (Z * Z) :=
  rethrow FailedToGetRewards
    (let* earnedRewards := await (earnedRewardsAt api blockHash address groupNs) in
     unwrap earnedRewards).

Definition getGroupInfo (api : Chain) (groupNs : string) (blockHash : BlockHash)
  : Result GroupInfo :=
  rethrow FailedToFetchGroupInfo
    (let* groupInfo := await (solutionsGroupsAt api blockHash groupNs) in
     unwrap groupInfo).

Definition getPeriodInfo (api : Chain) (periodIndex : jsnum) (blockHash : BlockHash)
  : Result Period.Info :=
  rethrow FailedToFetchPeriodInfo
    (let* currentPeriod := await (activeRewardPeriodInfoAt api blockHash) in
     Period.periodInfoOf currentPeriod periodIndex).

Definition getAllGroupsSystemVotingRoundsCount
  (api : Chain) (periodIndex : jsnum) (blockHash : BlockHash) : Result Z :=
  rethrow FailedToCountSystemVotingRounds
    (let* periodInfo := getPeriodInfo api periodIndex blockHash in
     let lastBlockOfPeriod := Period.info_end periodInfo in
     let* lastBlockHash := rpcGetBlockHash api lastBlockOfPeriod in
     await (systemVotingRoundEntriesAt api lastBlockHash periodIndex)).

(** ** The analysis: reward deltas and the SLA check *)

(** An integer-valued JavaScript number as a double.  The rounds and the
    votes are results of [toNumber()], which bn.js refuses above 2^53, so
    the conversion is exact on them. *)
Definition numberOfZ (z : Z) : float :=
  if z <? 0 then PrimFloat.opp (PrimFloat.of_uint63 (Uint63.of_Z (- z)))
  else PrimFloat.of_uint63 (Uint63.of_Z z).

Definition isDigit (a : ascii) : bool :=
  let n := nat_of_ascii a in ((48 <=? n) && (n <=? 57))%nat.

Definition digitValue (a : ascii) : Z := Z.of_nat (nat_of_ascii a) - 48.

(** The longest prefix of decimal digits, accumulated onto [acc]: the
    value, the number of digits read and the rest of the text. *)
Fixpoint readDigits (s : list ascii) (acc : Z) (count : nat)
  : Z * nat * list ascii :=
  match s with
  | a :: rest =>
      if isDigit a then readDigits rest (acc * 10 + digitValue a) (S count)
      else (acc, count, s)
  | [] => (acc, count, [])
  end.

Fixpoint startsWith (prefix s : list ascii) : bool :=
  match prefix, s with
  | [], _ => true
  | p :: prefix', a :: rest => Ascii.eqb p a && startsWith prefix' rest
  | _ :: _, [] => false
  end.

(** The double nearest to [digits * 10 ^ exponent], ties to even.  The
    quotient by the power of ten is taken with more than 54 bits and its
    remainder kept as one more bit, which the rounding of
    [binary_normalize] then sees below the last bit it keeps.  An exponent
    above 310 is taken as 310, where the value is already above every
    double, and one below [-(log2 digits + 331)] as that bound, where the
    value is already below half the least double. *)
Definition decimalToFloat (digits exponent : Z) : float :=
  let exponent := Z.max (Z.min exponent 310) (- (Z.log2 digits + 331)) in
  let numerator := digits * 10 ^ Z.max exponent 0 in
  let denominator := 10 ^ Z.max (- exponent) 0 in
  let scale := Z.max 0 (Z.log2 denominator + 56 - Z.log2 numerator) in
  let quotient := (numerator * 2 ^ scale) / denominator in
  let sticky := if (numerator * 2 ^ scale) mod denominator =? 0 then 0 else 1 in
  SF2Prim (binary_normalize prec emax (2 * quotient + sticky) (- scale - 1) false).

(** The exponent part, [e] or [E], an optional sign and digits; without
    digits there is no exponent part. *)
Definition readExponent (s : list ascii) : Z :=
  match s with
  | indicator :: rest =>
      if Ascii.eqb indicator "e" || Ascii.eqb indicator "E" then
        let '(negative, digits) :=
          match rest with
          | "-"%char :: digits => (true, digits)
          | "+"%char :: digits => (false, digits)
          | _ => (false, rest)
          end in
        let '(value, count, _) := readDigits digits 0 0 in
        if (count =? 0)%nat then 0 else if negative then - value else value
      else 0
  | [] => 0
  end.

(** [parseFloat]: after the leading white space, the longest prefix that
    is a decimal literal (a sign; then [Infinity], or digits, a point and
    digits with at least one digit, and an exponent part); what follows is
    ignored, and without such a prefix the result is [NaN]. *)
Definition parseFloat (text : string) : float :=
  let s := dropWhitespace (list_ascii_of_string text) in
  let '(negative, s) :=
    match s with
    | "-"%char :: rest => (true, rest)
    | "+"%char :: rest => (false, rest)
    | _ => (false, s)
    end in
  let value :=
    if startsWith (list_ascii_of_string "Infinity") s then infinity
    else
      let '(intPart, intCount, rest) := readDigits s 0 0 in
      let '(digits, fracCount, rest) :=
        match rest with
        | "."%char :: rest' => readDigits rest' intPart 0
        | _ => (intPart, O, rest)
        end in
      if (intCount + fracCount =? 0)%nat then nan
      else decimalToFloat digits (readExponent rest - Z.of_nat fracCount) in
  if negative then PrimFloat.opp value else value.

(** [s.replace("%", "")]: the first occurrence only. *)
Fixpoint removeFirst (c : ascii) (s : string) : string :=
  match s with
  | EmptyString => EmptyString
  | String a rest =>
      if Ascii.eqb a c then rest else String a (removeFirst c rest)
  end.

(** Step 4 of [main], "derive SLA check": ([voteRatio], [meetsSla]), each
    [null] ([None]) when the guard
    [eligibleRounds && votes !== null && slaPercentage !== null] fails.
    The votes are the result of [toNumber()], a number, never [null]; the
    threshold is a text or [null]. *)
Definition deriveSla (eligibleRounds votes : Z) (slaPercentage : option string)
  : option float * option bool :=
  if eligibleRounds =? 0 then (None, None)
  else
    match slaPercentage with
    | None => (None, None)
    | Some text =>
        let voteRatio :=
          PrimFloat.mul
            (PrimFloat.div (numberOfZ votes) (numberOfZ eligibleRounds))
            100%float in
        let slaThresholdNumber := parseFloat (removeFirst "%"%char text) in
        let meetsSla := PrimFloat.leb slaThresholdNumber voteRatio in
        (Some voteRatio, Some meetsSla)
    end.

(** The value of [initialRewards] / [finalRewards] in [main]: the tuple of
    two [BN]s read from the chain, or the number [0] assigned when there
    is no initial block hash. *)
Inductive RewardsValue :=
| Tuple (subscription voting : Z)
| Zero.

(** [rewards[i]]: [undefined] on a number. *)
Definition component (rewards : RewardsValue) (i : nat) : option Z :=
  match rewards, i with
  | Tuple subscription _, O => Some subscription
  | Tuple _ voting, S O => Some voting
  | _, _ => None
  end.

(** [a.sub(b)] of bn.js: exact; an [undefined] operand throws. *)
Definition bnSub (a b : option Z) : Result Z :=
  match a, b with
  | Some x, Some y => Ok (x - y)
  | _, _ => Err TypeError
  end.

(** "Calculate the actual rewards earned during this period". *)
Definition computePeriodRewards (initialRewards finalRewards : RewardsValue)
  : Result (Z * Z) :=
  let* subscriptionPeriodRewards :=
    bnSub (component finalRewards 0) (component initialRewards 0) in
  let* votingPeriodRewards :=
    bnSub (component finalRewards 1) (component initialRewards 1) in
  Ok (subscriptionPeriodRewards, votingPeriodRewards).

(** The two lines of the report about the ratio. *)
Inductive VoteRatioLine :=
| VoteRatioFixed (voteRatio : float)     (* "Vote Ratio %:", voteRatio.toFixed(2) *)
| VoteRatioNA.                           (* "Vote Ratio %: N/A (insufficient data)" *)

Inductive MeetsSlaLine :=
| MeetsSlaYes
| MeetsSlaNo
| MeetsSlaNA.

Definition reportSla (voteRatio : option float) (meetsSla : option bool)
  : VoteRatioLine * MeetsSlaLine :=
  match voteRatio with
  | Some ratio =>
      (VoteRatioFixed ratio,
       match meetsSla with Some true => MeetsSlaYes | _ => MeetsSlaNo end)
  | None => (VoteRatioNA, MeetsSlaNA)
  end.

(** What the run has computed when the report is printed. *)
Record Report := {
  periodInfo : Period.Info;
  groupInfo : GroupInfo;
  eligibleRounds : Z;
  votes : Z;
  slaPercentage : option string;
  voteRatio : option float;
  meetsSla : option bool;
  voteRatioLine : VoteRatioLine;
  meetsSlaLine : MeetsSlaLine;
  initialRewards : RewardsValue;
  finalRewards : RewardsValue;
  periodRewards : Z * Z;
  (* [periodRewards[i].div(10^18)] and [.mod(10^18).div(10^12)] *)
  subscriptionRewardsEWT : Z * Z;
  votingRewardsEWT : Z * Z
}.

Definition toEWT (amount : Z) : Z * Z :=
  (Z.quot amount (10 ^ 18), Z.quot (Z.rem amount (10 ^ 18)) (10 ^ 12)).

(** From "Calculate the actual rewards earned during this period" to the
    end of the report. *)
Definition analyze (periodInfo : Period.Info) (groupInfo : GroupInfo)
  (eligibleRounds votes : Z) (slaPercentage : option string)
  (initialRewards finalRewards : RewardsValue) : Result Report :=
  let* periodRewards := computePeriodRewards initialRewards finalRewards in
  let '(voteRatio, meetsSla) := deriveSla eligibleRounds votes slaPercentage in
  let '(voteRatioLine, meetsSlaLine) := reportSla voteRatio meetsSla in
  Ok {| periodInfo := periodInfo;
        groupInfo := groupInfo;
        eligibleRounds := eligibleRounds;
        votes := votes;
        slaPercentage := slaPercentage;
        voteRatio := voteRatio;
        meetsSla := meetsSla;
        voteRatioLine := voteRatioLine;
        meetsSlaLine := meetsSlaLine;
        initialRewards := initialRewards;
        finalRewards := finalRewards;
        periodRewards := periodRewards;
        subscriptionRewardsEWT := toEWT (fst periodRewards);
        votingRewardsEWT := toEWT (snd periodRewards) |}.

(** ** The workflow *)

(** [initialBlockHash || blockHash] *)
Definition orElse (a b : BlockHash) : BlockHash :=
  if (a =? "")%string then b else a.

Definition tupleOf (rewards : Z * Z) : RewardsValue :=
  Tuple (fst rewards) (snd rewards).

(** "Get initial rewards at the block before RewardsCalculatedForPeriod". *)
Definition readInitialRewards (cfg : Config) (api : Chain)
  (initialBlockHash : BlockHash) : Result RewardsValue :=
  rethrow MainInitialRewards
    (if negb (initialBlockHash =? "")%string then
       let* rewards :=
         getRewardsForAddress api (REWARD_PERIOD_INDEX cfg)
           (orEmpty (GROUP_NAMESPACE cfg)) (orEmpty (ADDRESS cfg)) initialBlockHash in
       Ok (tupleOf rewards)
     else Ok Zero).

Definition readFinalRewards (cfg : Config) (api : Chain)
  (blockHash : BlockHash) : Result RewardsValue :=
  rethrow MainFinalRewards
    (let* rewards :=
       getRewardsForAddress api (REWARD_PERIOD_INDEX cfg)
         (orEmpty (GROUP_NAMESPACE cfg)) (orEmpty (ADDRESS cfg)) blockHash in
     Ok (tupleOf rewards)).

(** Steps 2 to 5 of [main], from the distribution block on. *)
Definition analyzeAt (cfg : Config) (api : Chain) (blockHash : BlockHash)
  : Result Report :=
  let period := REWARD_PERIOD_INDEX cfg in
  let groupNs := orEmpty (GROUP_NAMESPACE cfg) in
  let address := orEmpty (ADDRESS cfg) in
  let* groupInfo := rethrow MainGroupInfo (getGroupInfo api groupNs blockHash) in
  let* periodInfo := rethrow MainPeriodInfo (getPeriodInfo api period blockHash) in
  let* initialBlockHash :=
    rethrow MainInitialBlock (findBlockBeforeRewardsCalculated api blockHash) in
  let* eligibleRounds :=
    rethrow MainEligibleRounds
      (getEligibleRounds cfg api period groupNs (orElse initialBlockHash blockHash)) in
  let* votes :=
    rethrow MainVotes
      (getVotesForAddress api period groupNs address (orElse initialBlockHash blockHash)) in
  let* slaPercentage :=
    rethrow MainSlaThreshold
      (getSlaThreshold api period groupNs (orElse initialBlockHash blockHash)) in
  let* initialRewards := readInitialRewards cfg api initialBlockHash in
  let* finalRewards := readFinalRewards cfg api blockHash in
  let* _ :=
    rethrow MainSystemVotingRounds
      (getAllGroupsSystemVotingRoundsCount api period blockHash) in
  analyze periodInfo groupInfo eligibleRounds votes slaPercentage
    initialRewards finalRewards.

(** The body of the [try] in [main]: the attempts made to find the
    distribution block, and the report or the error printed. *)
Definition main (cfg : Config) (api : Chain) (indexer : Indexer)
  : list Attempt * Result Report :=
  match validateInput cfg api with
  | Err e => ([], Err e)
  | Ok _ =>
      let '(attempts, located) := locateDistributionBlock cfg api indexer in
      (attempts, let* blockHash := located in analyzeAt cfg api blockHash)
  end.

(** ** Notions used to state the properties *)

(** The event is the distribution event of the period: pallet, method and
    first argument. *)
Definition announces (event : Event) (periodIndex : jsnum) : Prop :=
  section event = "workerNodePallet"
  /\ method event = "RewardsCalculatedForPeriod"
  /\ exists d rest, data event = d :: rest /\ periodIndex = Num d.

(** [searchStartBlock <= blockNumber <= searchEndBlock] of the indexer
    query, for the period after [periodIndex]. *)
Definition inIndexerWindow
  (currentPeriod : Period.Descriptor) (periodIndex : jsnum) (blockNumber : Z) : bool :=
  let nextPeriodStartBlock :=
    jadd (Period.periodStartBlock currentPeriod periodIndex)
         (Period.length currentPeriod) in
  jge (Num blockNumber) nextPeriodStartBlock
  && jle (Num blockNumber) (jadd nextPeriodStartBlock (Num 2000)).

(** The blocks the backward walk still has to visit when it is at [i]
    with [turns] turns left. *)
Definition remaining (blockNumber i : Z) (turns : nat) (n : Z) : Prop :=
  blockNumber - i - Z.of_nat turns < n <= blockNumber - i /\ 0 <= n.

(** The walk examines block [n]: the client resolves its number to [hash]
    and answers the events recorded in it. *)
Definition examined (api : Chain) (n : Z) (hash : BlockHash) (events : list Event)
  : Prop :=
  getBlockHash api n = Some hash /\ eventsAt api hash = Some events.

(** The event log holds an [EarnedRewardCalculated] event. *)
Definition holdsEarnedReward (events : list Event) : Prop :=
  exists event, In event events /\ method event = "EarnedRewardCalculated".

(** The blocks of the window of the walk from block [blockNumber]: the 50
    blocks before it, from block 0 on. *)
Definition inWindow (blockNumber n : Z) : Prop :=
  blockNumber - 50 <= n < blockNumber /\ 0 <= n.

(** The client decodes the reward totals as a pair at every block, for
    every address and group: a pair that is not stored is answered as the
    default of the item ([valueOrDefault]), not as a value of another
    shape. *)
Definition tupleShaped (api : Chain) : Prop :=
  forall blockHash address groupNs,
    earnedRewardsAt api blockHash address groupNs <> Some None.

(** The ways the indexer gives no usable block: it cannot be reached, it
    answers with an HTTP or GraphQL error, it lists no event, or none of
    the blocks it lists lies in the window. *)
Inductive IndexerFails
  (indexer : Indexer) (url : string) (api : Chain) (periodIndex : jsnum) : Prop :=
| FailsUnreachable :
    indexer url = None ->
    IndexerFails indexer url api periodIndex
| FailsHttp (reply : IndexerReply) :
    indexer url = Some reply -> ok reply = false ->
    IndexerFails indexer url api periodIndex
| FailsGraphQL (reply : IndexerReply) :
    indexer url = Some reply -> errors reply = true ->
    IndexerFails indexer url api periodIndex
| FailsNoEvents (reply : IndexerReply) :
    indexer url = Some reply ->
    events reply = None \/ events reply = Some [] ->
    IndexerFails indexer url api periodIndex
| FailsNoneInWindow (reply : IndexerReply) (blockNumbers : list Z)
    (currentPeriod : Period.Descriptor) :
    indexer url = Some reply ->
    events reply = Some blockNumbers ->
    activeRewardPeriodInfo api = Some currentPeriod ->
    (forall blockNumber, In blockNumber blockNumbers ->
       inIndexerWindow currentPeriod periodIndex blockNumber = false) ->
    IndexerFails indexer url api periodIndex.

(** ** A run on concrete data

    The figures of the README: period 614 of 7200 blocks starting at block
    4766246, analysed while period 620 is active.  The distribution event
    is recorded in block 4773500; the block before it holds a per-address
    [EarnedRewardCalculated] event and the one before that none. *)

Module Sample.

Definition address : string := "5D2csUmBkLadib8ZM2guw28tXs2nMMAGS4K9RK9ApRdb6F6R".
Definition groupNs : string := "smartflow.v2".
Definition indexerUrl : string := "https://ewx-indexers.mainnet.energywebx.com/core/graphql".

Definition currentPeriod : Period.Descriptor :=
  {| Period.index := Num 620;
     Period.firstBlock := Num 4809446;
     Period.length := Num 7200 |}.

Definition rewardsCalculated : Event :=
  {| section := "workerNodePallet";
     method := "RewardsCalculatedForPeriod";
     data := [614] |}.

Definition earnedRewardCalculated : Event :=
  {| section := "workerNodePallet";
     method := "EarnedRewardCalculated";
     data := [] |}.

Definition blockHashOf (n : Z) : option BlockHash :=
  if n =? 4773500 then Some "0xd500"
  else if n =? 4773499 then Some "0xd499"
  else if n =? 4773498 then Some "0xd498"
  else if n =? 4773445 then Some "0xd445"
  else if n =? 4766246 then Some "0xb246"
  else if n =? 4766245 then Some "0xb245"
  else None.

Definition headerOf (hash : BlockHash) : option Z :=
  if (hash =? "0xd500")%string then Some 4773500
  else if (hash =? "0xd499")%string then Some 4773499
  else if (hash =? "0xd498")%string then Some 4773498
  else None.

Definition eventsOf (hash : BlockHash) : option (list Event) :=
  if (hash =? "0xd500")%string then Some [earnedRewardCalculated; rewardsCalculated]
  else if (hash =? "0xd499")%string then Some [earnedRewardCalculated]
  else if (hash =? "0xd498")%string then Some []
  else None.

(** The totals of the address: those of the README after the
    distribution, and before it in the two blocks that precede; elsewhere
    the pair the client answers when none is stored. *)
Definition rewardsOf (hash : BlockHash) : option (option (Z * Z)) :=
  if (hash =? "0xd500")%string
  then Some (Some (8206437276591532332, 31834395275802910556))
  else if (hash =? "0xd499")%string || (hash =? "0xd498")%string
  then Some (Some (7982644892450463358, 30299138028873089534))
  else Some (Some (0, 0)).

Definition chain : Chain :=
  {| activeRewardPeriodInfo := Some currentPeriod;
     activeRewardPeriodInfoAt := fun _ => Some currentPeriod;
     getBlockHash := blockHashOf;
     getHeader := headerOf;
     eventsAt := eventsOf;
     solutionGroupStakeRecordsAt := fun _ _ _ => Some (Some [(600, 1000)]);
     systemVotingRoundEntriesAt := fun _ _ => Some 54;
     numberOfVotingsAt := fun _ _ _ => Some 49;
     numberOfVotingsWithNominationAt := fun _ _ _ => Some 0;
     numberOfOperatorVotingsWithNominationAt := fun _ _ _ _ => None;
     voteMetadataAt := fun _ _ _ _ => Some 61;
     solutionsGroupsAt :=
       fun _ _ => Some (Some {| slaVotingThreshold := Some "60.00%" |});
     earnedRewardsAt := fun hash _ _ => rewardsOf hash |}.

Definition config : Config :=
  {| INDEXER_URL := None;
     REWARD_PERIOD_INDEX := Num 614;
     GROUP_NAMESPACE := Some groupNs;
     ADDRESS := Some address;
     SPECIFIC_BLOCK_HASH := None |}.

(** The caller pins a block that does not hold the distribution event. *)
Definition pinnedWrong : Config :=
  {| INDEXER_URL := Some indexerUrl;
     REWARD_PERIOD_INDEX := Num 614;
     GROUP_NAMESPACE := Some groupNs;
     ADDRESS := Some address;
     SPECIFIC_BLOCK_HASH := Some "0xd499" |}.

Definition withIndexer : Config :=
  {| INDEXER_URL := Some indexerUrl;
     REWARD_PERIOD_INDEX := Num 614;
     GROUP_NAMESPACE := Some groupNs;
     ADDRESS := Some address;
     SPECIFIC_BLOCK_HASH := None |}.

Definition unreachable : Indexer := fun _ => None.

(** An indexer that only knows distributions of other periods. *)
Definition stale : Indexer :=
  fun _ => Some {| ok := true; errors := false;
                   events := Some [4802300; 4795100; 4766300] |}.

(** A chain on which the events of the 50 blocks before the distribution
    block cannot be read. *)
Definition unreadable : Chain :=
  {| activeRewardPeriodInfo := Some currentPeriod;
     activeRewardPeriodInfoAt := fun _ => Some currentPeriod;
     getBlockHash := blockHashOf;
     getHeader := headerOf;
     eventsAt := fun hash =>
       if (hash =? "0xd500")%string then eventsOf hash else None;
     solutionGroupStakeRecordsAt := fun _ _ _ => Some (Some [(600, 1000)]);
     systemVotingRoundEntriesAt := fun _ _ => Some 54;
     numberOfVotingsAt := fun _ _ _ => Some 49;
     numberOfVotingsWithNominationAt := fun _ _ _ => Some 0;
     numberOfOperatorVotingsWithNominationAt := fun _ _ _ _ => None;
     voteMetadataAt := fun _ _ _ _ => Some 61;
     solutionsGroupsAt :=
       fun _ _ => Some (Some {| slaVotingThreshold := Some "60.00%" |});
     earnedRewardsAt := fun hash _ _ => rewardsOf hash |}.

(** The report of the run on [chain] from the distribution block on. *)
Definition distributionBlock : BlockHash := "0xd500".

Definition report : Report :=
  {| periodInfo :=
       {| Period.info_index := Num 614;
          Period.info_start := Num 4766246;
          Period.info_end := Num 4773445;
          Period.info_length := Num 7200;
          Period.info_firstBlock := Num 4766246 |};
     groupInfo := {| slaVotingThreshold := Some "60.00%" |};
     eligibleRounds := 49;
     votes := 61;
     slaPercentage := Some "60.00%";
     voteRatio :=
       Some (PrimFloat.mul (PrimFloat.div (numberOfZ 61) (numberOfZ 49)) 100%float);
     meetsSla := Some true;
     voteRatioLine :=
       VoteRatioFixed
         (PrimFloat.mul (PrimFloat.div (numberOfZ 61) (numberOfZ 49)) 100%float);
     meetsSlaLine := MeetsSlaYes;
     initialRewards := Tuple 7982644892450463358 30299138028873089534;
     finalRewards := Tuple 8206437276591532332 31834395275802910556;
     periodRewards := (223792384141068974, 1535257246929821022);
     subscriptionRewardsEWT := (0, 223792);
     votingRewardsEWT := (1, 535257) |}.

(** A chain on which the two readable blocks before the distribution
    block both hold a per-address reward event. *)
Definition rewarding : Chain :=
  {| activeRewardPeriodInfo := Some currentPeriod;
     activeRewardPeriodInfoAt := fun _ => Some currentPeriod;
     getBlockHash := blockHashOf;
     getHeader := headerOf;
     eventsAt := fun hash =>
       if (hash =? "0xd498")%string then Some [earnedRewardCalculated]
       else eventsOf hash;
     solutionGroupStakeRecordsAt := fun _ _ _ => Some (Some [(600, 1000)]);
     systemVotingRoundEntriesAt := fun _ _ => Some 54;
     numberOfVotingsAt := fun _ _ _ => Some 49;
     numberOfVotingsWithNominationAt := fun _ _ _ => Some 0;
     numberOfOperatorVotingsWithNominationAt := fun _ _ _ _ => None;
     voteMetadataAt := fun _ _ _ _ => Some 61;
     solutionsGroupsAt :=
       fun _ _ => Some (Some {| slaVotingThreshold := Some "60.00%" |});
     earnedRewardsAt := fun hash _ _ => rewardsOf hash |}.

(** A chain on which the address staked 100 in period 0 and has not
    changed its stake since; period 1 is the one asked for. *)
Definition stakedInPeriodZero : Chain :=
  {| activeRewardPeriodInfo := Some currentPeriod;
     activeRewardPeriodInfoAt := fun _ => Some currentPeriod;
     getBlockHash := fun _ => Some "0x0001";
     getHeader := headerOf;
     eventsAt := eventsOf;
     solutionGroupStakeRecordsAt := fun _ _ _ => Some (Some [(0, 100)]);
     systemVotingRoundEntriesAt := fun _ _ => Some 54;
     numberOfVotingsAt := fun _ _ _ => Some 49;
     numberOfVotingsWithNominationAt := fun _ _ _ => Some 0;
     numberOfOperatorVotingsWithNominationAt := fun _ _ _ _ => None;
     voteMetadataAt := fun _ _ _ _ => Some 61;
     solutionsGroupsAt :=
       fun _ _ => Some (Some {| slaVotingThreshold := Some "60.00%" |});
     earnedRewardsAt := fun hash _ _ => rewardsOf hash |}.

Definition periodOne : Config :=
  {| INDEXER_URL := None;
     REWARD_PERIOD_INDEX := Num 1;
     GROUP_NAMESPACE := Some groupNs;
     ADDRESS := Some address;
     SPECIFIC_BLOCK_HASH := None |}.

(** A chain whose client answers every block number with an empty hash. *)
Definition emptyHashes : Chain :=
  {| activeRewardPeriodInfo := Some currentPeriod;
     activeRewardPeriodInfoAt := fun _ => Some currentPeriod;
     getBlockHash := fun _ => Some "";
     getHeader := headerOf;
     eventsAt := fun _ => Some [];
     solutionGroupStakeRecordsAt := fun _ _ _ => Some (Some [(600, 1000)]);
     systemVotingRoundEntriesAt := fun _ _ => Some 54;
     numberOfVotingsAt := fun _ _ _ => Some 49;
     numberOfVotingsWithNominationAt := fun _ _ _ => Some 0;
     numberOfOperatorVotingsWithNominationAt := fun _ _ _ _ => None;
     voteMetadataAt := fun _ _ _ _ => Some 61;
     solutionsGroupsAt :=
       fun _ _ => Some (Some {| slaVotingThreshold := Some "60.00%" |});
     earnedRewardsAt := fun hash _ _ => rewardsOf hash |}.

(** The sample chain without the last block of period 614. *)
Definition periodEndUnknown : Chain :=
  {| activeRewardPeriodInfo := Some currentPeriod;
     activeRewardPeriodInfoAt := fun _ => Some currentPeriod;
     getBlockHash := fun n => if n =? 4773445 then None else blockHashOf n;
     getHeader := headerOf;
     eventsAt := eventsOf;
     solutionGroupStakeRecordsAt := fun _ _ _ => Some (Some [(600, 1000)]);
     systemVotingRoundEntriesAt := fun _ _ => Some 54;
     numberOfVotingsAt := fun _ _ _ => Some 49;
     numberOfVotingsWithNominationAt := fun _ _ _ => Some 0;
     numberOfOperatorVotingsWithNominationAt := fun _ _ _ _ => None;
     voteMetadataAt := fun _ _ _ _ => Some 61;
     solutionsGroupsAt :=
       fun _ _ => Some (Some {| slaVotingThreshold := Some "60.00%" |});
     earnedRewardsAt := fun hash _ _ => rewardsOf hash |}.

(** An indexer that lists the distribution block of period 614 between
    those of other periods. *)
Definition upToDate : Indexer :=
  fun _ => Some {| ok := true; errors := false;
                   events := Some [4802300; 4773500; 4766300] |}.

(** The caller pins the block of the distribution event. *)
Definition pinnedRight : Config :=
  {| INDEXER_URL := Some indexerUrl;
     REWARD_PERIOD_INDEX := Num 614;
     GROUP_NAMESPACE := Some groupNs;
     ADDRESS := Some address;
     SPECIFIC_BLOCK_HASH := Some "0xd500" |}.

(** The totals stored for an address that had earned nothing before the
    distribution: none but at the distribution block. *)
Definition newcomerStored (hash : BlockHash) : option (Z * Z) :=
  if (hash =? "0xd500")%string
  then Some (8206437276591532332, 31834395275802910556)
  else None.

(** The sample chain for that address. *)
Definition newcomer : Chain :=
  {| activeRewardPeriodInfo := Some currentPeriod;
     activeRewardPeriodInfoAt := fun _ => Some currentPeriod;
     getBlockHash := blockHashOf;
     getHeader := headerOf;
     eventsAt := eventsOf;
     solutionGroupStakeRecordsAt := fun _ _ _ => Some (Some [(600, 1000)]);
     systemVotingRoundEntriesAt := fun _ _ => Some 54;
     numberOfVotingsAt := fun _ _ _ => Some 49;
     numberOfVotingsWithNominationAt := fun _ _ _ => Some 0;
     numberOfOperatorVotingsWithNominationAt := fun _ _ _ _ => None;
     voteMetadataAt := fun _ _ _ _ => Some 61;
     solutionsGroupsAt :=
       fun _ _ => Some (Some {| slaVotingThreshold := Some "60.00%" |});
     earnedRewardsAt := fun hash _ _ =>
       Some (Some (valueOrDefault (newcomerStored hash))) |}.

(** The sample chain with a group that has no threshold. *)
Definition noThreshold : Chain :=
  {| activeRewardPeriodInfo := Some currentPeriod;
     activeRewardPeriodInfoAt := fun _ => Some currentPeriod;
     getBlockHash := blockHashOf;
     getHeader := headerOf;
     eventsAt := eventsOf;
     solutionGroupStakeRecordsAt := fun _ _ _ => Some (Some [(600, 1000)]);
     systemVotingRoundEntriesAt := fun _ _ => Some 54;
     numberOfVotingsAt := fun _ _ _ => Some 49;
     numberOfVotingsWithNominationAt := fun _ _ _ => Some 0;
     numberOfOperatorVotingsWithNominationAt := fun _ _ _ _ => None;
     voteMetadataAt := fun _ _ _ _ => Some 61;
     solutionsGroupsAt := fun _ _ => Some (Some {| slaVotingThreshold := None |});
     earnedRewardsAt := fun hash _ _ => rewardsOf hash |}.

(** A chain whose distribution block is block 0: the client resolves no
    number below it. *)
Definition atGenesis : Chain :=
  {| activeRewardPeriodInfo := Some currentPeriod;
     activeRewardPeriodInfoAt := fun _ => Some currentPeriod;
     getBlockHash := fun n => if n =? 0 then Some "0x0000" else None;
     getHeader := fun hash => if (hash =? "0x0000")%string then Some 0 else None;
     eventsAt := fun hash =>
       if (hash =? "0x0000")%string then Some [rewardsCalculated] else None;
     solutionGroupStakeRecordsAt := fun _ _ _ => Some (Some [(600, 1000)]);
     systemVotingRoundEntriesAt := fun _ _ => Some 54;
     numberOfVotingsAt := fun _ _ _ => Some 49;
     numberOfVotingsWithNominationAt := fun _ _ _ => Some 0;
     numberOfOperatorVotingsWithNominationAt := fun _ _ _ _ => None;
     voteMetadataAt := fun _ _ _ _ => Some 61;
     solutionsGroupsAt :=
       fun _ _ => Some (Some {| slaVotingThreshold := Some "60.00%" |});
     earnedRewardsAt := fun hash _ _ => rewardsOf hash |}.

End Sample.

(** * Properties *)

(** ** The error monad *)

Lemma bind_Ok {A B} (c : Result A) (k : A -> Result B) (b : B) :
  bind c k = Ok b -> exists a, c = Ok a /\ k a = Ok b.
Proof.
  destruct c as [a | e]; simpl; intro H.
  - exists a. split; [reflexivity | exact H].
  - discriminate H.
Qed.

Lemma rethrow_Ok {A} (stage : Stage) (c : Result A) (a : A) :
  rethrow stage c = Ok a -> c = Ok a.
Proof. destruct c; simpl; congruence. Qed.

Lemma await_Ok {A} (q : option A) (a : A) : await q = Ok a -> q = Some a.
Proof. destruct q; simpl; congruence. Qed.

Lemma rethrow_Err_inv {A} (stage : Stage) (c : Result A) (e : Failure) :
  rethrow stage c = Err e -> exists cause, c = Err cause /\ e = Wrapped stage cause.
Proof.
  destruct c as [a | cause]; simpl; [discriminate |].
  intro H. injection H as <-. exists cause. split; reflexivity.
Qed.

Lemma bind_Err {A B} (c : Result A) (k : A -> Result B) (e : Failure) :
  bind c k = Err e -> c = Err e \/ exists a, c = Ok a /\ k a = Err e.
Proof.
  destruct c as [a | e0]; simpl; intro H.
  - right. exists a. split; [reflexivity | exact H].
  - left. injection H as <-. reflexivity.
Qed.

(** Peels the successful steps off a hypothesis [H : ... = Ok _]. *)
Ltac step_ok H :=
  let a := fresh "v" in
  let Ha := fresh "Hv" in
  apply bind_Ok in H; destruct H as (a & Ha & H);
  try apply rethrow_Ok in Ha.

(** ** Period arithmetic *)

Lemma periodInfoOf_integers (idx firstBlock len target : Z) :
  Period.periodInfoOf
    {| Period.index := Num idx;
       Period.firstBlock := Num firstBlock;
       Period.length := Num len |} (Num target)
  = Ok {| Period.info_index := Num target;
          Period.info_start := Num (firstBlock - (idx - target) * len);
          Period.info_end := Num (firstBlock - (idx - target) * len + len - 1);
          Period.info_length := Num len;
          Period.info_firstBlock := Num (firstBlock - (idx - target) * len) |}.
Proof. reflexivity. Qed.

(** ** Rounding to a double *)

Lemma digits2_pos_bound (m : positive) :
  2 ^ (Zpos (digits2_pos m) - 1) <= Zpos m < 2 ^ Zpos (digits2_pos m).
Proof.
  induction m as [m IH | m IH |]; cbn [digits2_pos].
  - rewrite Pos2Z.inj_succ. change (Zpos m~1) with (2 * Zpos m + 1).
    replace (Z.succ (Zpos (digits2_pos m)) - 1)
      with (Z.succ (Zpos (digits2_pos m) - 1)) by lia.
    rewrite !Z.pow_succ_r by lia. lia.
  - rewrite Pos2Z.inj_succ. change (Zpos m~0) with (2 * Zpos m).
    replace (Z.succ (Zpos (digits2_pos m)) - 1)
      with (Z.succ (Zpos (digits2_pos m) - 1)) by lia.
    rewrite !Z.pow_succ_r by lia. lia.
  - simpl. lia.
Qed.

Lemma iter_xO (k m : positive) :
  Zpos (Pos.iter xO m k) = Zpos m * 2 ^ Zpos k
  /\ digits2_pos (Pos.iter xO m k) = (digits2_pos m + k)%positive.
Proof.
  revert m. induction k as [| k IH] using Pos.peano_ind; intro m.
  - cbn [Pos.iter digits2_pos]. split; lia.
  - rewrite Pos.iter_succ. destruct (IH m) as (Hv & Hd).
    cbn [digits2_pos]. rewrite Hd.
    change (Zpos (Pos.iter xO m k)~0) with (2 * Zpos (Pos.iter xO m k)).
    rewrite Hv, Pos2Z.inj_succ, Z.pow_succ_r by lia. split; lia.
Qed.

(** A mantissa of 53 bits is kept as it is. *)
Lemma binary_round_aux_exact (mz : positive) (ez : Z) :
  Zpos (digits2_pos mz) = 53 -> -1074 <= ez <= 971 ->
  binary_round_aux prec emax false (Zpos mz) ez loc_Exact = S754_finite false mz ez.
Proof.
  intros Hd He.
  unfold binary_round_aux, shr_fexp, fexp, Zdigits2.
  cbn [shr_record_of_loc]. rewrite Hd.
  replace (Z.max (53 + ez - prec) (SpecFloat.emin prec emax) - ez) with 0
    by (unfold SpecFloat.emin, prec, emax; lia).
  cbn [shr shr_m loc_of_shr_record round_nearest_even Zdigits2].
  rewrite Hd.
  replace (Z.max (53 + ez - prec) (SpecFloat.emin prec emax) - ez) with 0
    by (unfold SpecFloat.emin, prec, emax; lia).
  cbn [shr shr_m].
  replace (ez <=? emax - prec) with true; [reflexivity |].
  symmetry. apply Z.leb_le. unfold emax, prec. lia.
Qed.

Lemma round_pos (m : positive) :
  Zpos m < 2 ^ 53 -> Binary64.round (Zpos m) = Binary64.Integer (Zpos m).
Proof.
  intro Hlt. unfold Binary64.round. cbn [binary_normalize]. unfold binary_round.
  pose proof (digits2_pos_bound m) as Hb.
  assert (Hd : Zpos (digits2_pos m) <= 53).
  { destruct (Z.le_gt_cases (Zpos (digits2_pos m)) 53) as [H | H]; [exact H |].
    exfalso. assert (2 ^ 53 <= 2 ^ (Zpos (digits2_pos m) - 1))
      by (apply Z.pow_le_mono_r; lia). lia. }
  unfold fexp.
  replace (Z.max (Zpos (digits2_pos m) + 0 - prec) (SpecFloat.emin prec emax))
    with (Zpos (digits2_pos m) - 53)
    by (unfold SpecFloat.emin, prec, emax; lia).
  unfold shl_align.
  destruct (Zpos (digits2_pos m) - 53 - 0) as [| p | k] eqn:Hk; try lia.
  - rewrite binary_round_aux_exact; [| lia | lia].
    cbn [Binary64.ofSpecFloat cond_Zopp]. rewrite Z.shiftl_0_r. reflexivity.
  - destruct (iter_xO k m) as (Hv & Hdig).
    rewrite binary_round_aux_exact; [| rewrite Hdig; lia | lia].
    cbn [Binary64.ofSpecFloat cond_Zopp]. rewrite Hv.
    replace (Zpos (digits2_pos m) - 53) with (- Zpos k) by lia.
    rewrite Z.shiftl_opp_r, Z.shiftr_div_pow2 by lia.
    rewrite Z.div_mul by (apply Z.pow_nonzero; lia). reflexivity.
Qed.

(** A safe integer is a double: rounding leaves it as it is. *)
Lemma round_safe (z : Z) : Binary64.safe z -> Binary64.round z = Binary64.Integer z.
Proof.
  unfold Binary64.safe. intro H.
  destruct (Z.eq_dec z (2 ^ 53)) as [-> | Hne]; [vm_compute; reflexivity |].
  destruct (Z.eq_dec z (- 2 ^ 53)) as [-> | Hne']; [vm_compute; reflexivity |].
  destruct z as [| m | m].
  - reflexivity.
  - apply round_pos. lia.
  - assert (Hm : Binary64.round (Zpos m) = Binary64.Integer (Zpos m))
      by (apply round_pos; lia).
    unfold Binary64.round in *. cbn [binary_normalize] in *.
    unfold binary_round in *.
    destruct (shl_align m 0 _) as [mz ez].
    unfold binary_round_aux in *.
    destruct (shr_fexp prec emax (Zpos mz) ez loc_Exact) as [mrs' e'].
    destruct (shr_fexp prec emax _ e' loc_Exact) as [mrs'' e''].
    destruct (shr_m mrs'') as [| q | q]; cbn [Binary64.ofSpecFloat] in *;
      try congruence.
    destruct (e'' <=? emax - prec); cbn [Binary64.ofSpecFloat cond_Zopp] in *;
      try congruence.
    injection Hm as Hm. rewrite Hm. reflexivity.
Qed.

(** Rounding is the conversion of an integer to a double by the machine. *)
Lemma round_of_uint63 (z : Z) :
  0 <= z < 2 ^ 63 ->
  Binary64.round z
  = Binary64.ofSpecFloat (Prim2SF (PrimFloat.of_uint63 (Uint63.of_Z z))).
Proof.
  intro H. unfold Binary64.round.
  rewrite of_uint63_spec, Uint63.of_Z_spec, Z.mod_small; [reflexivity |].
  exact H.
Qed.

(** The operations on operands and with results beyond the safe range,
    ties included, against those of the machine. *)
Lemma operations_of_the_machine :
  Binary64.mul (Binary64.Integer 94906267) (Binary64.Integer 94906267)
  = Binary64.ofSpecFloat
      (Prim2SF (PrimFloat.mul (numberOfZ 94906267) (numberOfZ 94906267)))
  /\ Binary64.mul (Binary64.Integer (-3037000500)) (Binary64.Integer 3037000501)
     = Binary64.ofSpecFloat
         (Prim2SF (PrimFloat.mul (numberOfZ (-3037000500)) (numberOfZ 3037000501)))
  /\ Binary64.mul (Binary64.Integer 4294967294) (Binary64.Integer 4294967295)
     = Binary64.ofSpecFloat
         (Prim2SF (PrimFloat.mul (numberOfZ 4294967294) (numberOfZ 4294967295)))
  /\ Binary64.add (Binary64.Integer 9007199254740992) (Binary64.Integer 1)
     = Binary64.ofSpecFloat
         (Prim2SF (PrimFloat.add (numberOfZ 9007199254740992) (numberOfZ 1)))
  /\ Binary64.add (Binary64.Integer 9007199254740992) (Binary64.Integer 3)
     = Binary64.ofSpecFloat
         (Prim2SF (PrimFloat.add (numberOfZ 9007199254740992) (numberOfZ 3)))
  /\ Binary64.sub (Binary64.Integer (-9007199254740992)) (Binary64.Integer 3)
     = Binary64.ofSpecFloat
         (Prim2SF (PrimFloat.sub (numberOfZ (-9007199254740992)) (numberOfZ 3)))
  /\ Binary64.sub (Binary64.Integer 4611686018427387904) (Binary64.Integer 513)
     = Binary64.ofSpecFloat
         (Prim2SF (PrimFloat.sub (numberOfZ 4611686018427387904) (numberOfZ 513)))
  /\ Binary64.sub (Binary64.Integer 5) (Binary64.Integer 5)
     = Binary64.ofSpecFloat (Prim2SF (PrimFloat.sub (numberOfZ 5) (numberOfZ 5)))
  /\ Binary64.mul (Binary64.Integer 2) (Binary64.round (2 ^ 1023))
     = Binary64.ofSpecFloat
         (Prim2SF (PrimFloat.mul (numberOfZ 2) (Z.ldexp (numberOfZ 1) 1023)))
  /\ Binary64.sub (Binary64.Infinity false) (Binary64.Infinity false)
     = Binary64.ofSpecFloat (Prim2SF (PrimFloat.sub infinity infinity))
  /\ Binary64.mul (Binary64.Integer 0) (Binary64.Infinity true)
     = Binary64.ofSpecFloat (Prim2SF (PrimFloat.mul (numberOfZ 0) neg_infinity))
  /\ Binary64.mul (Binary64.Integer (-7)) (Binary64.Infinity true)
     = Binary64.ofSpecFloat (Prim2SF (PrimFloat.mul (numberOfZ (-7)) neg_infinity))
  /\ Binary64.add (Binary64.Integer 7) (Binary64.Infinity true)
     = Binary64.ofSpecFloat (Prim2SF (PrimFloat.add (numberOfZ 7) neg_infinity))
  /\ Binary64.sub (Binary64.Integer 7) (Binary64.Infinity true)
     = Binary64.ofSpecFloat (Prim2SF (PrimFloat.sub (numberOfZ 7) neg_infinity)).
Proof. repeat split; vm_compute; reflexivity. Qed.

Lemma sub_safe (x y : Z) :
  Binary64.safe (x - y) ->
  Binary64.sub (Binary64.Integer x) (Binary64.Integer y) = Binary64.Integer (x - y).
Proof. apply round_safe. Qed.

Lemma add_safe (x y : Z) :
  Binary64.safe (x + y) ->
  Binary64.add (Binary64.Integer x) (Binary64.Integer y) = Binary64.Integer (x + y).
Proof. apply round_safe. Qed.

Lemma mul_safe (x y : Z) :
  Binary64.safe (x * y) ->
  Binary64.mul (Binary64.Integer x) (Binary64.Integer y) = Binary64.Integer (x * y).
Proof. apply round_safe. Qed.

(** The exact operations of the workflow are those of binary64 whenever
    the result is a safe integer. *)
Lemma jsub_binary64 (a b : jsnum) :
  (forall x y, a = Num x -> b = Num y -> Binary64.safe (x - y)) ->
  Binary64.ofJsnum (jsub a b)
  = Binary64.sub (Binary64.ofJsnum a) (Binary64.ofJsnum b).
Proof.
  destruct a as [x |], b as [y |]; intro H; try reflexivity.
  symmetry. apply sub_safe. apply H; reflexivity.
Qed.

Lemma jadd_binary64 (a b : jsnum) :
  (forall x y, a = Num x -> b = Num y -> Binary64.safe (x + y)) ->
  Binary64.ofJsnum (jadd a b)
  = Binary64.add (Binary64.ofJsnum a) (Binary64.ofJsnum b).
Proof.
  destruct a as [x |], b as [y |]; intro H; try reflexivity.
  symmetry. apply add_safe. apply H; reflexivity.
Qed.

Lemma jmul_binary64 (a b : jsnum) :
  (forall x y, a = Num x -> b = Num y -> Binary64.safe (x * y)) ->
  Binary64.ofJsnum (jmul a b)
  = Binary64.mul (Binary64.ofJsnum a) (Binary64.ofJsnum b).
Proof.
  destruct a as [x |], b as [y |]; intro H; try reflexivity.
  symmetry. apply mul_safe. apply H; reflexivity.
Qed.

(** While every number met is a safe integer, the bounds computed in
    binary64 are the exact ones. *)
Lemma periodInfoOf_safe (idx firstBlock len target : Z) :
  Binary64.safePeriod idx firstBlock len target ->
  Binary64.periodInfoOf
    {| Binary64.index := Binary64.Integer idx;
       Binary64.firstBlock := Binary64.Integer firstBlock;
       Binary64.length := Binary64.Integer len |} (Binary64.Integer target)
  = Ok {| Binary64.info_index := Binary64.Integer target;
          Binary64.info_start := Binary64.Integer (firstBlock - (idx - target) * len);
          Binary64.info_end :=
            Binary64.Integer (firstBlock - (idx - target) * len + len - 1);
          Binary64.info_length := Binary64.Integer len;
          Binary64.info_firstBlock :=
            Binary64.Integer (firstBlock - (idx - target) * len) |}.
Proof.
  intros (Hback & Hproduct & Hstart & Hnext & Hend).
  unfold Binary64.periodInfoOf, Binary64.periodEndBlock, Binary64.periodStartBlock.
  cbn [Binary64.index Binary64.firstBlock Binary64.length].
  rewrite (sub_safe idx target Hback).
  rewrite (mul_safe (idx - target) len Hproduct).
  rewrite (sub_safe firstBlock ((idx - target) * len) Hstart).
  rewrite (add_safe (firstBlock - (idx - target) * len) len Hnext).
  rewrite (sub_safe (firstBlock - (idx - target) * len + len) 1 Hend).
  reflexivity.
Qed.

(** A sufficient condition on a descriptor of non-negative values. *)
Lemma safePeriod_of_bounds (idx firstBlock len target : Z) :
  0 <= target <= idx -> 1 <= len <= 2 ^ 52 -> 0 <= firstBlock <= 2 ^ 52 ->
  (idx - target) * len <= 2 ^ 52 ->
  Binary64.safePeriod idx firstBlock len target.
Proof.
  intros Ht Hl Hf Hp. unfold Binary64.safePeriod, Binary64.safe.
  assert (H53 : 2 ^ 53 = 2 * 2 ^ 52) by reflexivity.
  assert (H0 : 0 <= (idx - target) * len) by nia.
  assert (Hb : idx - target <= (idx - target) * len) by nia.
  rewrite H53. generalize dependent (2 ^ 52). intros bound Hl Hf Hp H53.
  repeat split; lia.
Qed.

(** On the descriptor of 32-bit values with index 4294967295, first block
    0 and length 4294967295, the product for period 1 passes 2^53 and is
    rounded: the start is not the one of the formula, and the end minus
    the start plus one is 4294967297, not the length.  The machine
    computes the same start. *)
Lemma period_bounds_rounded :
  1 <= 4294967295
  /\ exists info,
       Binary64.periodInfoOf
         {| Binary64.index := Binary64.Integer 4294967295;
            Binary64.firstBlock := Binary64.Integer 0;
            Binary64.length := Binary64.Integer 4294967295 |}
         (Binary64.Integer 1) = Ok info
       /\ Binary64.info_start info = Binary64.Integer (-18446744060824649728)
       /\ 0 - (4294967295 - 1) * 4294967295 = -18446744060824649730
       /\ Binary64.add
            (Binary64.sub (Binary64.info_end info) (Binary64.info_start info))
            (Binary64.Integer 1)
          = Binary64.Integer 4294967297
       /\ Binary64.info_length info = Binary64.Integer 4294967295
       /\ Binary64.ofSpecFloat
            (Prim2SF
               (PrimFloat.sub (numberOfZ 0)
                  (PrimFloat.mul
                     (PrimFloat.sub (numberOfZ 4294967295) (numberOfZ 1))
                     (numberOfZ 4294967295))))
          = Binary64.Integer (-18446744060824649728).
Proof.
  split; [lia |]. eexists. split; [vm_compute; reflexivity |].
  repeat split; vm_compute; reflexivity.
Qed.

(** Beyond the safe range two consecutive periods need not be adjacent, nor
    an earlier period end before a later one starts; the machine computes
    the same numbers. *)
Lemma periods_beyond_safe_range :
  Binary64.periodStartBlock
    {| Binary64.index := Binary64.Integer 2724573685;
       Binary64.firstBlock := Binary64.Integer 1095513148;
       Binary64.length := Binary64.Integer 2418525393 |} (Binary64.Integer 509)
  = Binary64.Integer (-6589449410147144704)
  /\ Binary64.add
       (Binary64.periodEndBlock
          {| Binary64.index := Binary64.Integer 2724573685;
             Binary64.firstBlock := Binary64.Integer 1095513148;
             Binary64.length := Binary64.Integer 2418525393 |}
          (Binary64.Integer 508))
       (Binary64.Integer 1)
     = Binary64.Integer (-6589449410147145728)
  /\ Binary64.ofSpecFloat
       (Prim2SF
          (PrimFloat.sub (numberOfZ 1095513148)
             (PrimFloat.mul
                (PrimFloat.sub (numberOfZ 2724573685) (numberOfZ 509))
                (numberOfZ 2418525393))))
     = Binary64.Integer (-6589449410147144704)
  /\ Binary64.periodEndBlock
       {| Binary64.index := Binary64.Integer 4294967295;
          Binary64.firstBlock := Binary64.Integer 0;
          Binary64.length := Binary64.Integer 4294967295 |} (Binary64.Integer 1)
     = Binary64.Integer (-18446744056529682432)
  /\ Binary64.periodStartBlock
       {| Binary64.index := Binary64.Integer 4294967295;
          Binary64.firstBlock := Binary64.Integer 0;
          Binary64.length := Binary64.Integer 4294967295 |} (Binary64.Integer 2)
     = Binary64.Integer (-18446744056529682432).
Proof. repeat split; vm_compute; reflexivity. Qed.

(** C6, as the code has it: for a current-period descriptor and a target
    index not above the current one, as long as every number the
    computation meets is a safe integer (of magnitude at most 2^53), the
    bounds computed in binary64 are
    [start = firstBlock - (index - target) * length] and
    [end = start + length - 1], so that [end - start + 1 = length]; they
    are the bounds of the exact computation of the workflow. *)
Theorem period_bounds_formula (idx firstBlock len target : Z) :
  target <= idx ->
  Binary64.safePeriod idx firstBlock len target ->
  Binary64.safe len -> Binary64.safe (len - 1) ->
  exists info,
    Binary64.periodInfoOf
      {| Binary64.index := Binary64.Integer idx;
         Binary64.firstBlock := Binary64.Integer firstBlock;
         Binary64.length := Binary64.Integer len |} (Binary64.Integer target)
    = Ok info
    /\ Binary64.info_start info = Binary64.Integer (firstBlock - (idx - target) * len)
    /\ Binary64.info_end info
       = Binary64.sub
           (Binary64.add (Binary64.info_start info) (Binary64.Integer len))
           (Binary64.Integer 1)
    /\ Binary64.info_end info
       = Binary64.Integer (firstBlock - (idx - target) * len + len - 1)
    /\ Binary64.add
         (Binary64.sub (Binary64.info_end info) (Binary64.info_start info))
         (Binary64.Integer 1)
       = Binary64.Integer len
    /\ exists exact,
         Period.periodInfoOf
           {| Period.index := Num idx;
              Period.firstBlock := Num firstBlock;
              Period.length := Num len |} (Num target) = Ok exact
         /\ Binary64.ofJsnum (Period.info_start exact) = Binary64.info_start info
         /\ Binary64.ofJsnum (Period.info_end exact) = Binary64.info_end info.
Proof.
  intros _ Hsafe Hlen Hlen1.
  eexists. split; [apply (periodInfoOf_safe idx firstBlock len target Hsafe) |].
  destruct Hsafe as (Hback & Hproduct & Hstart & Hnext & Hend).
  cbn [Binary64.info_start Binary64.info_end].
  split; [reflexivity |].
  split.
  - rewrite (add_safe (firstBlock - (idx - target) * len) len Hnext).
    rewrite (sub_safe (firstBlock - (idx - target) * len + len) 1 Hend).
    reflexivity.
  - split; [reflexivity |]. split.
    + rewrite sub_safe;
        [| replace (firstBlock - (idx - target) * len + len - 1
                    - (firstBlock - (idx - target) * len))
             with (len - 1) by ring; exact Hlen1].
      rewrite add_safe;
        [f_equal; ring
        | replace (firstBlock - (idx - target) * len + len - 1
                   - (firstBlock - (idx - target) * len) + 1)
            with len by ring; exact Hlen].
    + eexists. split; [apply periodInfoOf_integers |].
      split; reflexivity.
Qed.

Lemma period_bounds_formula_witness :
  exists info,
    Binary64.periodInfoOf
      {| Binary64.index := Binary64.Integer 620;
         Binary64.firstBlock := Binary64.Integer 4809446;
         Binary64.length := Binary64.Integer 7200 |} (Binary64.Integer 614)
    = Ok info
    /\ Binary64.info_start info = Binary64.Integer (4809446 - (620 - 614) * 7200)
    /\ Binary64.info_end info
       = Binary64.sub
           (Binary64.add (Binary64.info_start info) (Binary64.Integer 7200))
           (Binary64.Integer 1)
    /\ Binary64.info_end info
       = Binary64.Integer (4809446 - (620 - 614) * 7200 + 7200 - 1)
    /\ Binary64.add
         (Binary64.sub (Binary64.info_end info) (Binary64.info_start info))
         (Binary64.Integer 1)
       = Binary64.Integer 7200
    /\ exists exact,
         Period.periodInfoOf
           {| Period.index := Num 620;
              Period.firstBlock := Num 4809446;
              Period.length := Num 7200 |} (Num 614) = Ok exact
         /\ Binary64.ofJsnum (Period.info_start exact) = Binary64.info_start info
         /\ Binary64.ofJsnum (Period.info_end exact) = Binary64.info_end info.
Proof.
  apply (period_bounds_formula 620 4809446 7200 614).
  - lia.
  - unfold Binary64.safePeriod, Binary64.safe. vm_compute.
    repeat split; discriminate.
  - unfold Binary64.safe. vm_compute. split; discriminate.
  - unfold Binary64.safe. vm_compute. split; discriminate.
Defined.

(** The bounds of a period that would start before block 0 are returned,
    not rejected, by the exact computation and by the one in binary64. *)
Lemma negative_bounds_returned :
  (exists info,
    Period.periodInfoOf
      {| Period.index := Num 10;
         Period.firstBlock := Num 100;
         Period.length := Num 50 |} (Num 1) = Ok info
    /\ Period.info_start info = Num (-350)
    /\ Period.info_end info = Num (-301)
    /\ -350 < 0 /\ -301 < 0)
  /\ exists info,
       Binary64.periodInfoOf
         {| Binary64.index := Binary64.Integer 10;
            Binary64.firstBlock := Binary64.Integer 100;
            Binary64.length := Binary64.Integer 50 |} (Binary64.Integer 1) = Ok info
       /\ Binary64.info_start info = Binary64.Integer (-350)
       /\ Binary64.info_end info = Binary64.Integer (-301).
Proof.
  split.
  - eexists. split; [reflexivity |]. simpl. repeat split; lia.
  - eexists. split; [vm_compute; reflexivity |]. split; reflexivity.
Qed.

(** C7, as the code has it: the computation is rejected exactly when the
    start or the end block is [NaN], in the workflow and in binary64;
    bounds that are numbers are returned as computed, whatever their sign;
    on descriptors of safe integers they are the bounds of the formula. *)
Theorem period_bounds_rejected_iff_nan
  (currentPeriod : Binary64.Descriptor) (periodIndex : Binary64.number)
  (exactPeriod : Period.Descriptor) (exactIndex : jsnum) :
  (Binary64.periodInfoOf currentPeriod periodIndex = Err InvalidPeriodBlockCalculation
   <-> Binary64.periodStartBlock currentPeriod periodIndex = Binary64.NotANumber
       \/ Binary64.periodEndBlock currentPeriod periodIndex = Binary64.NotANumber)
  /\ (forall e, Binary64.periodInfoOf currentPeriod periodIndex = Err e ->
                e = InvalidPeriodBlockCalculation)
  /\ (forall info, Binary64.periodInfoOf currentPeriod periodIndex = Ok info ->
        Binary64.info_start info = Binary64.periodStartBlock currentPeriod periodIndex
        /\ Binary64.info_end info = Binary64.periodEndBlock currentPeriod periodIndex)
  /\ (Period.periodInfoOf exactPeriod exactIndex = Err InvalidPeriodBlockCalculation
      <-> Period.periodStartBlock exactPeriod exactIndex = NaN
          \/ Period.periodEndBlock exactPeriod exactIndex = NaN)
  /\ (forall e, Period.periodInfoOf exactPeriod exactIndex = Err e ->
                e = InvalidPeriodBlockCalculation)
  /\ (forall idx firstBlock len target : Z,
        Binary64.safePeriod idx firstBlock len target ->
        exists info,
          Binary64.periodInfoOf
            {| Binary64.index := Binary64.Integer idx;
               Binary64.firstBlock := Binary64.Integer firstBlock;
               Binary64.length := Binary64.Integer len |} (Binary64.Integer target)
          = Ok info
          /\ Binary64.info_start info
             = Binary64.Integer (firstBlock - (idx - target) * len)
          /\ Binary64.info_end info
             = Binary64.Integer (firstBlock - (idx - target) * len + len - 1)).
Proof.
  split; [| split; [| split; [| split; [| split]]]].
  - unfold Binary64.periodInfoOf.
    destruct (Binary64.periodStartBlock currentPeriod periodIndex);
      destruct (Binary64.periodEndBlock currentPeriod periodIndex);
      cbn [Binary64.isNaN orb];
      (split; [intro H | intros [H | H]]); try discriminate; try reflexivity; auto.
  - unfold Binary64.periodInfoOf. intros e.
    destruct (Binary64.isNaN _ || Binary64.isNaN _); congruence.
  - unfold Binary64.periodInfoOf. intros info.
    destruct (Binary64.isNaN _ || Binary64.isNaN _); [discriminate |].
    intro H. injection H as <-. split; reflexivity.
  - unfold Period.periodInfoOf.
    destruct (Period.periodStartBlock exactPeriod exactIndex);
      destruct (Period.periodEndBlock exactPeriod exactIndex);
      cbn [isNaN orb];
      (split; [intro H | intros [H | H]]); try discriminate; try reflexivity; auto.
  - unfold Period.periodInfoOf. intros e.
    destruct (isNaN _ || isNaN _); congruence.
  - intros idx firstBlock len target Hsafe. eexists.
    split; [apply (periodInfoOf_safe idx firstBlock len target Hsafe) |].
    split; reflexivity.
Qed.

(** The bounds of a period before block 0, and those of a descriptor
    without a length. *)
Lemma period_bounds_rejected_iff_nan_witness :
  (exists info,
      Binary64.periodInfoOf
        {| Binary64.index := Binary64.Integer 10;
           Binary64.firstBlock := Binary64.Integer 100;
           Binary64.length := Binary64.Integer 50 |} (Binary64.Integer 1)
      = Ok info
      /\ Binary64.info_start info = Binary64.Integer (100 - (10 - 1) * 50)
      /\ Binary64.info_end info = Binary64.Integer (100 - (10 - 1) * 50 + 50 - 1))
  /\ Binary64.periodInfoOf
       {| Binary64.index := Binary64.Integer 10;
          Binary64.firstBlock := Binary64.Integer 100;
          Binary64.length := Binary64.NotANumber |} (Binary64.Integer 1)
     = Err InvalidPeriodBlockCalculation.
Proof.
  split.
  - apply (proj2 (proj2 (proj2 (proj2 (proj2
             (period_bounds_rejected_iff_nan
                {| Binary64.index := Binary64.Integer 10;
                   Binary64.firstBlock := Binary64.Integer 100;
                   Binary64.length := Binary64.NotANumber |} (Binary64.Integer 1)
                {| Period.index := Num 10; Period.firstBlock := Num 100;
                   Period.length := NaN |} (Num 1)))))) 10 100 50 1).
    unfold Binary64.safePeriod, Binary64.safe. vm_compute.
    repeat split; discriminate.
  - apply (proj1 (period_bounds_rejected_iff_nan
                    {| Binary64.index := Binary64.Integer 10;
                       Binary64.firstBlock := Binary64.Integer 100;
                       Binary64.length := Binary64.NotANumber |} (Binary64.Integer 1)
                    {| Period.index := Num 10; Period.firstBlock := Num 100;
                       Period.length := NaN |} (Num 1))).
    left. reflexivity.
Defined.

(** ** Reward deltas *)

(** C1: the period rewards are the exact component-wise difference of the
    final and the initial totals, negative when the final total is the
    smaller one; on the figures of the sample run they are
    (223792384141068974, 1535257246929821022). *)
Theorem period_rewards_exact_difference
  (periodInfo : Period.Info) (groupInfo : GroupInfo)
  (eligibleRounds votes : Z) (slaPercentage : option string)
  (initialSubscription initialVoting finalSubscription finalVoting : Z) :
  (exists report,
     analyze periodInfo groupInfo eligibleRounds votes slaPercentage
       (Tuple initialSubscription initialVoting)
       (Tuple finalSubscription finalVoting) = Ok report
     /\ periodRewards report
        = (finalSubscription - initialSubscription, finalVoting - initialVoting))
  /\ computePeriodRewards
       (Tuple 7982644892450463358 30299138028873089534)
       (Tuple 8206437276591532332 31834395275802910556)
     = Ok (223792384141068974, 1535257246929821022)
  /\ computePeriodRewards (Tuple 500 70) (Tuple 300 40) = Ok (-200, -30).
Proof.
  split; [| split; reflexivity].
  unfold analyze. simpl.
  destruct (deriveSla eligibleRounds votes slaPercentage) as [ratio meets].
  destruct (reportSla ratio meets). eexists. split; reflexivity.
Qed.

(** ** The SLA check *)

Lemma deriveSla_nonzero (eligibleRounds votes : Z) (slaPercentage : string) :
  eligibleRounds <> 0 ->
  deriveSla eligibleRounds votes (Some slaPercentage)
  = (Some (PrimFloat.mul
             (PrimFloat.div (numberOfZ votes) (numberOfZ eligibleRounds))
             100%float),
     Some (PrimFloat.leb
             (parseFloat (removeFirst "%"%char slaPercentage))
             (PrimFloat.mul
                (PrimFloat.div (numberOfZ votes) (numberOfZ eligibleRounds))
                100%float))).
Proof.
  intro H. unfold deriveSla.
  destruct (Z.eqb_spec eligibleRounds 0) as [E | _]; [contradiction | reflexivity].
Qed.

Lemma analyze_sla info group rounds nVotes threshold initial final report :
  analyze info group rounds nVotes threshold initial final = Ok report ->
  eligibleRounds report = rounds /\ votes report = nVotes
  /\ slaPercentage report = threshold
  /\ (voteRatio report, meetsSla report) = deriveSla rounds nVotes threshold
  /\ (voteRatioLine report, meetsSlaLine report)
     = reportSla (voteRatio report) (meetsSla report).
Proof.
  unfold analyze. intro H. step_ok H.
  destruct (deriveSla rounds nVotes threshold) as [ratio meets].
  destruct (reportSla ratio meets) as [l1 l2] eqn:Hl.
  injection H as <-. simpl. rewrite Hl. repeat split.
Qed.

(** The run of the README: the scan starts after the 54 voting rounds of
    period 613 and finds the event in its first block. *)
Lemma main_sample :
  main Sample.config Sample.chain Sample.unreachable
  = ([SearchingForEvent], Ok Sample.report).
Proof. vm_compute. reflexivity. Qed.

#[local] Set Warnings "-inexact-float".

(** [parseFloat] on texts of every form of the grammar: digits with or
    without a point, an exponent part, a sign, [Infinity], white space
    before and anything after, and texts without a number. *)
Lemma parseFloat_forms :
  parseFloat "60.00" = 60%float
  /\ parseFloat "1e2" = 100%float
  /\ parseFloat "1.5E+3" = 1500%float
  /\ parseFloat "25e-2" = 0.25%float
  /\ parseFloat "0.1" = 0.1%float
  /\ parseFloat ".5" = 0.5%float
  /\ parseFloat "5." = 5%float
  /\ parseFloat "-7.25" = (-7.25)%float
  /\ parseFloat "+3" = 3%float
  /\ parseFloat "  42px" = 42%float
  /\ parseFloat "1e" = 1%float
  /\ parseFloat "0x10" = 0%float
  /\ parseFloat "9007199254740993" = 9007199254740992%float
  /\ parseFloat "9007199254740995" = 9007199254740996%float
  /\ parseFloat "1.00000000000000011102230246251565404236316680908203125" = 1%float
  /\ parseFloat "1.00000000000000011102230246251565404236316680908203126"
     = 1.0000000000000002%float
  /\ parseFloat "0.30000000000000004" = 0.30000000000000004%float
  /\ parseFloat "2.2250738585072011e-308" = 2.2250738585072011e-308%float
  /\ parseFloat "2.2250738585072012e-308" = 2.2250738585072014e-308%float
  /\ parseFloat "1.7976931348623157e308" = 1.7976931348623157e308%float
  /\ parseFloat "1e309" = infinity
  /\ parseFloat "5e-324" = 5e-324%float
  /\ parseFloat "1e-400" = 0%float
  /\ parseFloat "1e-99999999" = 0%float
  /\ parseFloat "1e99999999" = infinity
  /\ parseFloat "Infinity" = infinity
  /\ parseFloat "-Infinity" = neg_infinity
  /\ parseFloat "infinity" = nan
  /\ parseFloat "." = nan
  /\ parseFloat "e5" = nan
  /\ parseFloat "" = nan
  /\ parseFloat "N/A" = nan.
Proof. repeat split; vm_compute; reflexivity. Qed.

(** The threshold texts of the examples, as [parseFloat] reads them. *)
Lemma parseFloat_thresholds :
  parseFloat (removeFirst "%"%char "60.00%") = 60%float
  /\ parseFloat (removeFirst "%"%char "70.11%") = 70.11%float
  /\ parseFloat (removeFirst "%"%char "70.12%") = 70.12%float
  /\ parseFloat (removeFirst "%"%char "124.50%") = 124.5%float.
Proof. repeat split; vm_compute; reflexivity. Qed.



(** C3: with no eligible round the ratio and the verdict are left
    undefined and printed as N/A; the analysis goes on to the report and
    the ratio is not reported as a number. *)
Theorem no_eligible_rounds_not_available
  (info : Period.Info) (group : GroupInfo) (nVotes : Z) (threshold : option string)
  (initialSubscription initialVoting finalSubscription finalVoting : Z) :
  deriveSla 0 nVotes threshold = (None, None)
  /\ exists report,
       analyze info group 0 nVotes threshold
         (Tuple initialSubscription initialVoting)
         (Tuple finalSubscription finalVoting) = Ok report
       /\ voteRatio report = None
       /\ meetsSla report = None
       /\ voteRatioLine report = VoteRatioNA
       /\ meetsSlaLine report = MeetsSlaNA.
Proof.
  split; [reflexivity |].
  eexists. split; [reflexivity |]. simpl. repeat split.
Qed.

(** ** The stake ledger *)

Section StakeScan.

Variable entries : StakeRecord.

(** No key above the accumulator: the scan changes nothing. *)
Lemma scanStakeRecord_unchanged :
  forall (l : StakeRecord) (lastUpdatePeriod stakeValue : Z),
    (forall e, In e l -> fst e <= lastUpdatePeriod) ->
    scanStakeRecord l lastUpdatePeriod stakeValue = (lastUpdatePeriod, stakeValue).
Proof.
  induction l as [| [p s] rest IH]; intros lastUpdatePeriod stakeValue Hle; simpl.
  - reflexivity.
  - assert (Hp : p <= lastUpdatePeriod) by (apply (Hle (p, s)); left; reflexivity).
    destruct (Z.ltb_spec lastUpdatePeriod p); [lia |].
    apply IH. intros e He. apply Hle. right. exact He.
Qed.

(** A maximal key above the accumulator is the one the scan ends on. *)
Lemma scanStakeRecord_max :
  forall (l : StakeRecord) (lastUpdatePeriod stakeValue key stake : Z),
    NoDup (map fst l) ->
    In (key, stake) l ->
    (forall e, In e l -> fst e <= key) ->
    lastUpdatePeriod < key ->
    scanStakeRecord l lastUpdatePeriod stakeValue = (key, stake).
Proof.
  induction l as [| [p s] rest IH];
    intros lastUpdatePeriod stakeValue key stake Hnd Hin Hmax Hlt; simpl.
  - contradiction.
  - inversion Hnd as [| ? ? Hnotin Hnd']; subst.
    destruct Hin as [Heq | Hin].
    + injection Heq as -> ->.
      destruct (Z.ltb_spec lastUpdatePeriod key); [| lia].
      apply scanStakeRecord_unchanged.
      intros e He. apply Hmax. right. exact He.
    + assert (Hp : p <= key) by (apply (Hmax (p, s)); left; reflexivity).
      assert (Hne : p <> key).
      { intros ->. apply Hnotin. change key with (fst (key, stake)).
        apply in_map. exact Hin. }
      assert (Hrest : forall e, In e rest -> fst e <= key)
        by (intros e He; apply Hmax; right; exact He).
      destruct (Z.ltb_spec lastUpdatePeriod p);
        apply IH; auto; lia.
Qed.

(** X5: when the ledger's maximal key is a period after period 0, the
    subscription is valid exactly when the requested period is not before
    that key and the stake recorded there is positive. *)
Lemma checkStake_max_key (target key stake : Z) :
  NoDup (map fst entries) ->
  In (key, stake) entries ->
  (forall e, In e entries -> fst e <= key) ->
  0 < key ->
  checkStake (Num target) entries
  = if (key <=? target) && (0 <? stake)
    then Ok stake else Err (NotSubscribed stake).
Proof.
  intros Hnd Hin Hmax Hpos. unfold checkStake.
  rewrite (scanStakeRecord_max entries 0 0 key stake Hnd Hin Hmax Hpos).
  reflexivity.
Qed.

End StakeScan.

(** The boundary case of the specification: an only entry for period 5. *)
Lemma stake_validity_boundary (target : Z) :
  (5 <= target -> checkStake (Num target) [(5, 100)] = Ok 100)
  /\ (target < 5 -> checkStake (Num target) [(5, 100)] = Err (NotSubscribed 100))
  /\ checkStake (Num target) [(5, 0)] = Err (NotSubscribed 0).
Proof.
  unfold checkStake. simpl. repeat split.
  - intro H. destruct (Z.leb_spec 5 target); [reflexivity | lia].
  - intro H. destruct (Z.leb_spec 5 target); [lia | reflexivity].
  - destruct (5 <=? target); reflexivity.
Qed.

(** C4: a ledger whose maximal key is period 0 with a stake of 100 meets
    the stated condition for period 1 (1 is not before 0, and 100 is
    positive), yet the scan ends on stake 0 and the validation answers
    "not subscribed". *)
Theorem stake_of_period_zero_not_found :
  In (0, 100) [(0, 100)]
  /\ (forall e, In e [(0, 100)] -> fst e <= 0)
  /\ 0 <= 1 /\ 0 < 100
  /\ scanStakeRecord [(0, 100)] 0 0 = (0, 0)
  /\ checkStake (Num 1) [(0, 100)] = Err (NotSubscribed 0)
  /\ validateInput Sample.periodOne Sample.stakedInPeriodZero
     = Err (NotSubscribed 0).
Proof.
  repeat split; try lia.
  - left. reflexivity.
  - intros e [<- | []]. simpl. lia.
Qed.

(** C10: a ledger whose only entry is for period 0 is rejected as not
    subscribed whatever its stake and whatever the requested period: the
    scan keeps a key only when it is greater than the accumulator, which
    starts at 0, so the stake of period 0 is never recorded. *)
Theorem only_period_zero_always_rejected (stake : Z) (target : jsnum) :
  scanStakeRecord [(0, stake)] 0 0 = (0, 0)
  /\ checkStake target [(0, stake)] = Err (NotSubscribed 0).
Proof.
  split; [reflexivity |].
  unfold checkStake. simpl. rewrite andb_false_r. reflexivity.
Qed.

(** ** The order of the ways to find the distribution block *)

Lemma jsnum_eqb_eq (a b : jsnum) : jsnum_eqb a b = true -> a = b.
Proof.
  destruct a as [x |], b as [y |]; simpl; try discriminate.
  intro H. apply Z.eqb_eq in H. congruence.
Qed.

Lemma hasRewardsCalculatedForPeriod_absent (events : list Event) (periodIndex : jsnum) :
  (forall event, In event events -> ~ announces event periodIndex) ->
  hasRewardsCalculatedForPeriod events periodIndex = Ok false
  \/ hasRewardsCalculatedForPeriod events periodIndex = Err TypeError.
Proof.
  induction events as [| event rest IH]; intro Hnone;
    cbn [hasRewardsCalculatedForPeriod].
  - left. reflexivity.
  - assert (Hrest : forall e, In e rest -> ~ announces e periodIndex)
      by (intros e He; apply Hnone; right; exact He).
    destruct (String.eqb_spec (section event) "workerNodePallet") as [Hs | _];
      cbn [andb]; [| exact (IH Hrest)].
    destruct (String.eqb_spec (method event) "RewardsCalculatedForPeriod") as [Hm | _];
      [| exact (IH Hrest)].
    destruct (data event) as [| d args] eqn:Hd; [right; reflexivity |].
    destruct (jsnum_eqb (Num d) periodIndex) eqn:Heq; [| exact (IH Hrest)].
    exfalso. apply (Hnone event); [left; reflexivity |].
    apply jsnum_eqb_eq in Heq.
    repeat split; try assumption. exists d, args. split; congruence.
Qed.

Lemma firstInRange_none (blockNumbers : list Z)
  (currentPeriod : Period.Descriptor) (periodIndex : jsnum) :
  (forall blockNumber, In blockNumber blockNumbers ->
     inIndexerWindow currentPeriod periodIndex blockNumber = false) ->
  firstInRange blockNumbers
    (jadd (Period.periodStartBlock currentPeriod periodIndex)
          (Period.length currentPeriod))
    (jadd (jadd (Period.periodStartBlock currentPeriod periodIndex)
                (Period.length currentPeriod)) (Num 2000))
  = None.
Proof.
  induction blockNumbers as [| blockNumber rest IH]; intro Hout;
    cbn [firstInRange].
  - reflexivity.
  - assert (H := Hout blockNumber (or_introl eq_refl)).
    unfold inIndexerWindow in H. cbv zeta in H. rewrite H.
    apply IH. intros b Hb. apply Hout. right. exact Hb.
Qed.

Lemma queryIndexer_fails
  (indexer : Indexer) (url : string) (api : Chain) (periodIndex : jsnum) :
  IndexerFails indexer url api periodIndex ->
  queryIndexerForRewardsBlock indexer url periodIndex api = Ok None
  \/ exists e, queryIndexerForRewardsBlock indexer url periodIndex api = Err e.
Proof.
  unfold queryIndexerForRewardsBlock.
  intros [Hfetch | reply Hfetch Hok | reply Hfetch Herr | reply Hfetch Hev
          | reply blockNumbers currentPeriod Hfetch Hev Hcur Hout];
    rewrite Hfetch; simpl.
  - right. eexists. reflexivity.
  - rewrite Hok. simpl. right. eexists. reflexivity.
  - destruct (ok reply); simpl; [| right; eexists; reflexivity].
    rewrite Herr. right. eexists. reflexivity.
  - destruct (ok reply); simpl; [| right; eexists; reflexivity].
    destruct (errors reply); simpl; [right; eexists; reflexivity |].
    destruct Hev as [-> | ->]; left; reflexivity.
  - destruct (ok reply); simpl; [| right; eexists; reflexivity].
    destruct (errors reply); simpl; [right; eexists; reflexivity |].
    rewrite Hev. destruct blockNumbers as [| b rest]; [left; reflexivity |].
    rewrite Hcur. cbv beta iota zeta delta [bind await].
    rewrite (firstInRange_none (b :: rest) currentPeriod periodIndex Hout).
    left. reflexivity.
Qed.

Lemma truthy_Some (s : string) : s <> "" -> truthy (Some s) = true.
Proof.
  intro H. simpl. destruct (String.eqb_spec s ""); [contradiction | reflexivity].
Qed.

(** C5: a pinned block hash whose event log does not hold the distribution
    event of the period makes the run fail on the verification of that
    block, nothing but the pinned hash having been tried; without a pinned
    hash, when the indexer cannot be reached or lists no block in the
    window, the failure is caught, the chain scan is run and its outcome
    is the outcome of the search. *)
Theorem strategy_priority (cfg : Config) (api : Chain) (indexer : Indexer) :
  (forall hash events,
      SPECIFIC_BLOCK_HASH cfg = Some hash -> hash <> "" ->
      eventsAt api hash = Some events ->
      (forall event, In event events ->
         ~ announces event (REWARD_PERIOD_INDEX cfg)) ->
      (exists cause,
          locateDistributionBlock cfg api indexer
          = ([UsingProvidedBlockHash],
             Err (Wrapped FailedToVerifyProvidedBlock cause)))
      /\ (exists e, snd (main cfg api indexer) = Err e)
      /\ (forall attempt, In attempt (fst (main cfg api indexer)) ->
            attempt = UsingProvidedBlockHash))
  /\ (forall url,
        truthy (SPECIFIC_BLOCK_HASH cfg) = false ->
        INDEXER_URL cfg = Some url -> url <> "" ->
        IndexerFails indexer url api (REWARD_PERIOD_INDEX cfg) ->
        locateDistributionBlock cfg api indexer
        = ([QueryingIndexer; FallingBackToBlockchainSearch; SearchingForEvent],
           findBlockForPeriod api (REWARD_PERIOD_INDEX cfg))).
Proof.
  split.
  - intros hash evs Hpin Hne Hevents Hnone.
    assert (Hloc : exists cause,
      locateDistributionBlock cfg api indexer
      = ([UsingProvidedBlockHash],
         Err (Wrapped FailedToVerifyProvidedBlock cause))).
    { unfold locateDistributionBlock.
      rewrite Hpin, (truthy_Some hash Hne). simpl orEmpty.
      rewrite Hevents. simpl.
      destruct (hasRewardsCalculatedForPeriod_absent evs _ Hnone) as [-> | ->];
        simpl; eexists; reflexivity. }
    destruct Hloc as (cause & Hloc).
    split; [exists cause; exact Hloc |].
    unfold main. destruct (validateInput cfg api) as [stake | e]; simpl.
    + rewrite Hloc. simpl. split; [eexists; reflexivity |].
      intros attempt [<- | []]. reflexivity.
    + split; [eexists; reflexivity | intros attempt []].
  - intros url Hpin Hurl Hne Hfails.
    unfold locateDistributionBlock.
    rewrite Hpin, Hurl, (truthy_Some url Hne). simpl orEmpty.
    destruct (queryIndexer_fails indexer url api _ Hfails) as [-> | [e ->]];
      reflexivity.
Qed.

Lemma strategy_priority_witness :
  ((exists cause,
       locateDistributionBlock Sample.pinnedWrong Sample.chain Sample.unreachable
       = ([UsingProvidedBlockHash],
          Err (Wrapped FailedToVerifyProvidedBlock cause)))
   /\ (exists e,
         snd (main Sample.pinnedWrong Sample.chain Sample.unreachable) = Err e)
   /\ (forall attempt,
         In attempt (fst (main Sample.pinnedWrong Sample.chain Sample.unreachable)) ->
         attempt = UsingProvidedBlockHash))
  /\ locateDistributionBlock Sample.withIndexer Sample.chain Sample.stale
     = ([QueryingIndexer; FallingBackToBlockchainSearch; SearchingForEvent],
        findBlockForPeriod Sample.chain (REWARD_PERIOD_INDEX Sample.withIndexer)).
Proof.
  split.
  - apply (proj1 (strategy_priority Sample.pinnedWrong Sample.chain Sample.unreachable)
             "0xd499" [Sample.earnedRewardCalculated]).
    + reflexivity.
    + discriminate.
    + reflexivity.
    + intros event [<- | []] (_ & Hmethod & _). discriminate Hmethod.
  - apply (proj2 (strategy_priority Sample.withIndexer Sample.chain Sample.stale)
             Sample.indexerUrl).
    + reflexivity.
    + reflexivity.
    + discriminate.
    + apply (FailsNoneInWindow Sample.stale Sample.indexerUrl Sample.chain (Num 614)
               {| ok := true; errors := false;
                  events := Some [4802300; 4795100; 4766300] |}
               [4802300; 4795100; 4766300] Sample.currentPeriod);
        try reflexivity.
      intros blockNumber [<- | [<- | [<- | []]]]; reflexivity.
Defined.

(** ** The backward walk to the initial block *)

Section BackwardWalk.

Variable api : Chain.
Variable blockNumber : Z.

Lemma walkBack_unreadable :
  forall (turns : nat) (i : Z) (last : option BlockHash),
    (forall n, remaining blockNumber i turns n -> checkBlock api n = None) ->
    walkBack api blockNumber i turns last = (None, last).
Proof.
  unfold remaining.
  induction turns as [| turns IH]; intros i last Hnone; cbn [walkBack].
  - reflexivity.
  - destruct (Z.ltb_spec (blockNumber - i) 0) as [Hneg | Hpos]; [reflexivity |].
    rewrite (Hnone (blockNumber - i)) by lia.
    apply IH. intros n Hn. apply Hnone. lia.
Qed.

Lemma walkBack_clean :
  forall (turns : nat) (i : Z) (last : option BlockHash) (b : Z) (hash : BlockHash),
    remaining blockNumber i turns b ->
    checkBlock api b = Some (hash, false) ->
    (forall n h, b < n <= blockNumber - i -> checkBlock api n <> Some (h, false)) ->
    fst (walkBack api blockNumber i turns last) = Some hash.
Proof.
  unfold remaining.
  induction turns as [| turns IH]; intros i last b hash Hb Hclean Hcloser;
    cbn [walkBack].
  - lia.
  - destruct (Z.ltb_spec (blockNumber - i) 0) as [Hneg | Hpos]; [lia |].
    destruct (Z.eq_dec b (blockNumber - i)) as [-> | Hne].
    + rewrite Hclean. reflexivity.
    + assert (Hhere := Hcloser (blockNumber - i)).
      destruct (checkBlock api (blockNumber - i)) as [[h [|]] |].
      * apply IH with (b := b); try assumption; [lia |].
        intros n h' Hn. apply Hcloser. lia.
      * exfalso. apply (Hhere h); [lia | reflexivity].
      * apply IH with (b := b); try assumption; [lia |].
        intros n h' Hn. apply Hcloser. lia.
Qed.

Lemma walkBack_all_rewarding :
  forall (turns : nat) (i : Z) (last : option BlockHash) (b : Z) (hash : BlockHash),
    remaining blockNumber i turns b ->
    checkBlock api b = Some (hash, true) ->
    (forall n h, remaining blockNumber i turns n ->
                 checkBlock api n <> Some (h, false)) ->
    (forall n, remaining blockNumber i turns n -> n < b ->
               checkBlock api n = None) ->
    walkBack api blockNumber i turns last = (None, Some hash).
Proof.
  unfold remaining.
  induction turns as [| turns IH]; intros i last b hash Hb Hevent Hall Holder;
    cbn [walkBack].
  - lia.
  - destruct (Z.ltb_spec (blockNumber - i) 0) as [Hneg | Hpos]; [lia |].
    destruct (Z.eq_dec b (blockNumber - i)) as [-> | Hne].
    + rewrite Hevent. apply walkBack_unreadable.
      unfold remaining. intros n Hn. apply Holder; lia.
    + assert (Hhere := Hall (blockNumber - i)).
      destruct (checkBlock api (blockNumber - i)) as [[h [|]] |].
      * apply IH with (b := b); try assumption; [lia | |].
        -- intros n h' Hn. apply Hall. lia.
        -- intros n Hn Hlt. apply Holder; lia.
      * exfalso. apply (Hhere h); [lia | reflexivity].
      * apply IH with (b := b); try assumption; [lia | |].
        -- intros n h' Hn. apply Hall. lia.
        -- intros n Hn Hlt. apply Holder; lia.
Qed.

End BackwardWalk.

(** What one turn of the walk reads, in terms of the block examined. *)
Lemma hasEarnedRewardCalculated_true (events : list Event) :
  hasEarnedRewardCalculated events = true <-> holdsEarnedReward events.
Proof.
  unfold hasEarnedRewardCalculated, holdsEarnedReward. rewrite existsb_exists.
  split; intros (event & Hin & H); exists event; (split; [exact Hin |]);
    apply String.eqb_eq; exact H.
Qed.

Lemma checkBlock_examined (api : Chain) (n : Z) (hash : BlockHash) (events : list Event) :
  examined api n hash events ->
  checkBlock api n = Some (hash, hasEarnedRewardCalculated events).
Proof. intros (Hhash & Hevents). unfold checkBlock. rewrite Hhash, Hevents. reflexivity. Qed.

Lemma checkBlock_Some (api : Chain) (n : Z) (hash : BlockHash) (hasEvent : bool) :
  checkBlock api n = Some (hash, hasEvent) ->
  exists events,
    examined api n hash events /\ hasEarnedRewardCalculated events = hasEvent.
Proof.
  unfold checkBlock, examined.
  destruct (getBlockHash api n) as [h |]; [| discriminate].
  destruct (eventsAt api h) as [events |] eqn:Hevents; [| discriminate].
  intro H. injection H as <- <-. exists events. repeat split. exact Hevents.
Qed.

Lemma checkBlock_not_examined (api : Chain) (n : Z) :
  (forall hash events, ~ examined api n hash events) -> checkBlock api n = None.
Proof.
  intro Hnone. destruct (checkBlock api n) as [[hash hasEvent] |] eqn:Hcheck;
    [| reflexivity].
  destruct (checkBlock_Some _ _ _ _ Hcheck) as (events & Hex & _).
  destruct (Hnone hash events Hex).
Qed.

Lemma checkBlock_pristine (api : Chain) (n : Z) (hash : BlockHash) (events : list Event) :
  examined api n hash events -> ~ holdsEarnedReward events ->
  checkBlock api n = Some (hash, false).
Proof.
  intros Hex Hclean. rewrite (checkBlock_examined _ _ _ _ Hex).
  destruct (hasEarnedRewardCalculated events) eqn:Hhas; [| reflexivity].
  destruct Hclean. apply hasEarnedRewardCalculated_true. exact Hhas.
Qed.

Lemma checkBlock_rewarded (api : Chain) (n : Z) (hash : BlockHash) (events : list Event) :
  examined api n hash events -> holdsEarnedReward events ->
  checkBlock api n = Some (hash, true).
Proof.
  intros Hex Hheld. rewrite (checkBlock_examined _ _ _ _ Hex).
  apply hasEarnedRewardCalculated_true in Hheld. rewrite Hheld. reflexivity.
Qed.

(** No block examined holds no event: no turn of the walk ends it. *)
Lemma checkBlock_never_pristine (api : Chain) (n : Z) :
  (forall hash events, examined api n hash events -> holdsEarnedReward events) ->
  forall hash, checkBlock api n <> Some (hash, false).
Proof.
  intros Hall hash Hcheck.
  destruct (checkBlock_Some _ _ _ _ Hcheck) as (events & Hex & Hhas).
  apply Hall, hasEarnedRewardCalculated_true in Hex. congruence.
Qed.

(** At distribution block 0 the window is empty and no block is examined;
    the block numbered -1 that the locator then asks for is not a block of
    the chain, and the locator fails. *)
Lemma no_block_before_genesis :
  getHeader Sample.atGenesis "0x0000" = Some 0
  /\ (forall n, n < 0 -> getBlockHash Sample.atGenesis n = None)
  /\ (forall n, ~ inWindow 0 n)
  /\ walkBack Sample.atGenesis 0 1 searchRange None = (None, None)
  /\ findBlockBeforeRewardsCalculated Sample.atGenesis "0x0000"
     = Err (Wrapped FailedToFindBlockBefore QueryFailed)
  /\ forall hash,
       findBlockBeforeRewardsCalculated Sample.atGenesis "0x0000" <> Ok hash.
Proof.
  split; [reflexivity |]. split.
  - intros n Hn. cbn [getBlockHash Sample.atGenesis].
    destruct (Z.eqb_spec n 0); [lia | reflexivity].
  - split; [unfold inWindow; intros n Hn; lia |].
    split; [reflexivity |]. split; [reflexivity |].
    intros hash H. vm_compute in H. discriminate H.
Qed.

(** C8, as the code has it: from the distribution block the locator walks
    back over the blocks of its window, at most 50 and none below block 0.
    It returns the closest earlier block examined whose event log holds no
    [EarnedRewardCalculated] event; when every block examined holds the
    event, the oldest of them; and when no block of the window is
    examined, the block numbered [distributionBlock - 1] if the client
    resolves that number and an error if it does not, as at distribution
    block 0. *)
Theorem initial_block_located
  (api : Chain) (distributionBlock : BlockHash) (blockNumber : Z) :
  getHeader api distributionBlock = Some blockNumber ->
  (forall b hash events,
      inWindow blockNumber b ->
      examined api b hash events -> ~ holdsEarnedReward events ->
      (forall n h evs, b < n < blockNumber ->
                       examined api n h evs -> holdsEarnedReward evs) ->
      findBlockBeforeRewardsCalculated api distributionBlock = Ok hash)
  /\ (forall b hash events,
        inWindow blockNumber b ->
        examined api b hash events -> holdsEarnedReward events ->
        (forall n h evs, inWindow blockNumber n ->
                         examined api n h evs -> holdsEarnedReward evs) ->
        (forall n h evs, inWindow blockNumber n -> n < b ->
                         ~ examined api n h evs) ->
        findBlockBeforeRewardsCalculated api distributionBlock = Ok hash)
  /\ ((forall n h evs, inWindow blockNumber n -> ~ examined api n h evs) ->
      (forall hash,
          getBlockHash api (blockNumber - 1) = Some hash ->
          findBlockBeforeRewardsCalculated api distributionBlock = Ok hash)
      /\ (getBlockHash api (blockNumber - 1) = None ->
          findBlockBeforeRewardsCalculated api distributionBlock
          = Err (Wrapped FailedToFindBlockBefore QueryFailed)))
  /\ (blockNumber = 0 ->
      (forall n, n < 0 -> getBlockHash api n = None) ->
      findBlockBeforeRewardsCalculated api distributionBlock
      = Err (Wrapped FailedToFindBlockBefore QueryFailed)).
Proof.
  intro Hheader. unfold findBlockBeforeRewardsCalculated, searchRange, inWindow.
  rewrite Hheader. cbv beta iota delta [await bind].
  split; [| split; [| split]].
  - intros b hash events Hb Hex Hclean Hcloser.
    assert (H := walkBack_clean api blockNumber 50 1 None b hash).
    destruct (walkBack api blockNumber 1 50 None) as [initial last].
    cbn [fst] in H. rewrite H;
      [reflexivity | unfold remaining; lia
       | exact (checkBlock_pristine _ _ _ _ Hex Hclean) |].
    intros n h Hn. apply checkBlock_never_pristine.
    intros h' evs. apply Hcloser. lia.
  - intros b hash events Hb Hex Hheld Hall Holder.
    rewrite (walkBack_all_rewarding api blockNumber 50 1 None b hash);
      [reflexivity | unfold remaining; lia
       | exact (checkBlock_rewarded _ _ _ _ Hex Hheld) | |].
    + unfold remaining. intros n h Hn. apply checkBlock_never_pristine.
      intros h' evs. apply Hall. lia.
    + unfold remaining. intros n Hn Hlt. apply checkBlock_not_examined.
      intros h evs. apply Holder; lia.
  - intro Hnone.
    rewrite (walkBack_unreadable api blockNumber 50 1 None).
    + split; [intros hash -> | intros ->]; reflexivity.
    + unfold remaining. intros n Hn. apply checkBlock_not_examined.
      intros h evs. apply Hnone. lia.
  - intros -> Hnegative.
    rewrite (walkBack_unreadable api 0 50 1 None).
    + rewrite (Hnegative (0 - 1)) by lia. reflexivity.
    + unfold remaining. intros n Hn. lia.
Qed.

(** Reads the hypothesis [Hhash : getBlockHash _ n = Some _] on a sample
    chain by running through the blocks these chains know. *)
Ltac sample_hash Hhash n :=
  cbn [getBlockHash Sample.chain Sample.rewarding Sample.unreadable] in Hhash;
  unfold Sample.blockHashOf in Hhash;
  repeat match type of Hhash with
    | context [n =? ?k] => destruct (Z.eqb_spec n k); [subst n |]
    end;
  try discriminate Hhash; try lia.

Lemma initial_block_located_witness :
  findBlockBeforeRewardsCalculated Sample.chain Sample.distributionBlock = Ok "0xd498"
  /\ findBlockBeforeRewardsCalculated Sample.rewarding Sample.distributionBlock
     = Ok "0xd498"
  /\ findBlockBeforeRewardsCalculated Sample.unreadable Sample.distributionBlock
     = Ok "0xd499"
  /\ findBlockBeforeRewardsCalculated Sample.atGenesis "0x0000"
     = Err (Wrapped FailedToFindBlockBefore QueryFailed).
Proof.
  split; [| split; [| split]].
  - apply (proj1 (initial_block_located Sample.chain Sample.distributionBlock
                    4773500 eq_refl) 4773498 "0xd498" []).
    + unfold inWindow. lia.
    + split; reflexivity.
    + intros (event & [] & _).
    + intros n h evs Hn (Hhash & Hevents).
      assert (n = 4773499) as -> by lia.
      injection Hhash as <-. injection Hevents as <-.
      exists Sample.earnedRewardCalculated. split; [left |]; reflexivity.
  - apply (proj1 (proj2 (initial_block_located Sample.rewarding
                           Sample.distributionBlock 4773500 eq_refl))
             4773498 "0xd498" [Sample.earnedRewardCalculated]).
    + unfold inWindow. lia.
    + split; reflexivity.
    + exists Sample.earnedRewardCalculated. split; [left |]; reflexivity.
    + unfold inWindow. intros n h evs Hn (Hhash & Hevents).
      sample_hash Hhash n;
        injection Hhash as <-; injection Hevents as <-;
        exists Sample.earnedRewardCalculated; (split; [left |]; reflexivity).
    + unfold inWindow. intros n h evs Hn Hlt (Hhash & Hevents).
      sample_hash Hhash n.
  - apply (proj1 (proj1 (proj2 (proj2 (initial_block_located Sample.unreadable
                                          Sample.distributionBlock 4773500 eq_refl)))
                    ltac:(unfold inWindow; intros n h evs Hn (Hhash & Hevents);
                          sample_hash Hhash n;
                          injection Hhash as <-; discriminate Hevents))
             "0xd499").
    reflexivity.
  - apply (proj2 (proj2 (proj2 (initial_block_located Sample.atGenesis "0x0000"
                                   0 eq_refl)))).
    + reflexivity.
    + intros n Hn. cbn [getBlockHash Sample.atGenesis].
      destruct (Z.eqb_spec n 0); [lia | reflexivity].
Defined.

(** ** Reward totals are used as the client decodes them *)

Lemma getRewardsForAddress_Ok api period groupNs address blockHash rewards :
  getRewardsForAddress api period groupNs address blockHash = Ok rewards ->
  earnedRewardsAt api blockHash address groupNs = Some (Some rewards).
Proof.
  unfold getRewardsForAddress. intro H. apply rethrow_Ok in H.
  destruct (earnedRewardsAt api blockHash address groupNs) as [[r |] |];
    try discriminate H.
  injection H as <-. reflexivity.
Qed.

Lemma getRewardsForAddress_decoded api period groupNs address blockHash totals :
  earnedRewardsAt api blockHash address groupNs = Some (Some totals) ->
  getRewardsForAddress api period groupNs address blockHash = Ok totals.
Proof. intro H. unfold getRewardsForAddress. rewrite H. reflexivity. Qed.

(** With totals decoded as pairs the read fails only by throwing. *)
Lemma getRewardsForAddress_Err api period groupNs address blockHash e :
  tupleShaped api ->
  getRewardsForAddress api period groupNs address blockHash = Err e ->
  earnedRewardsAt api blockHash address groupNs = None
  /\ e = Wrapped FailedToGetRewards QueryFailed.
Proof.
  intros Hshape. unfold getRewardsForAddress.
  destruct (earnedRewardsAt api blockHash address groupNs) as [[r |] |] eqn:Hread;
    cbn [await bind unwrap rethrow]; intro H.
  - discriminate H.
  - destruct (Hshape blockHash address groupNs Hread).
  - injection H as <-. split; reflexivity.
Qed.

Lemma readInitialRewards_decoded (cfg : Config) (api : Chain)
  (initialBlockHash : BlockHash) (totals : Z * Z) :
  initialBlockHash <> "" ->
  earnedRewardsAt api initialBlockHash
    (orEmpty (ADDRESS cfg)) (orEmpty (GROUP_NAMESPACE cfg)) = Some (Some totals) ->
  readInitialRewards cfg api initialBlockHash
  = Ok (Tuple (fst totals) (snd totals)).
Proof.
  intros Hne Hread. unfold readInitialRewards.
  destruct (String.eqb_spec initialBlockHash ""); [contradiction |].
  cbn [negb]. rewrite (getRewardsForAddress_decoded _ _ _ _ _ _ Hread).
  reflexivity.
Qed.

Lemma readFinalRewards_decoded (cfg : Config) (api : Chain)
  (blockHash : BlockHash) (totals : Z * Z) :
  earnedRewardsAt api blockHash
    (orEmpty (ADDRESS cfg)) (orEmpty (GROUP_NAMESPACE cfg)) = Some (Some totals) ->
  readFinalRewards cfg api blockHash = Ok (Tuple (fst totals) (snd totals)).
Proof.
  intro Hread. unfold readFinalRewards.
  rewrite (getRewardsForAddress_decoded _ _ _ _ _ _ Hread). reflexivity.
Qed.

Lemma readInitialRewards_Err (cfg : Config) (api : Chain)
  (initialBlockHash : BlockHash) (e : Failure) :
  tupleShaped api ->
  readInitialRewards cfg api initialBlockHash = Err e ->
  earnedRewardsAt api initialBlockHash
    (orEmpty (ADDRESS cfg)) (orEmpty (GROUP_NAMESPACE cfg)) = None
  /\ e = Wrapped MainInitialRewards (Wrapped FailedToGetRewards QueryFailed).
Proof.
  intros Hshape H. unfold readInitialRewards in H.
  apply rethrow_Err_inv in H. destruct H as (cause & H & ->).
  destruct (negb (initialBlockHash =? "")%string); [| discriminate H].
  apply bind_Err in H. destruct H as [H | (rewards & _ & H)]; [| discriminate H].
  destruct (getRewardsForAddress_Err _ _ _ _ _ _ Hshape H) as (Hread & ->).
  split; [exact Hread | reflexivity].
Qed.

Lemma readFinalRewards_Err (cfg : Config) (api : Chain)
  (blockHash : BlockHash) (e : Failure) :
  tupleShaped api ->
  readFinalRewards cfg api blockHash = Err e ->
  earnedRewardsAt api blockHash
    (orEmpty (ADDRESS cfg)) (orEmpty (GROUP_NAMESPACE cfg)) = None
  /\ e = Wrapped MainFinalRewards (Wrapped FailedToGetRewards QueryFailed).
Proof.
  intros Hshape H. unfold readFinalRewards in H.
  apply rethrow_Err_inv in H. destruct H as (cause & H & ->).
  apply bind_Err in H. destruct H as [H | (rewards & _ & H)]; [| discriminate H].
  destruct (getRewardsForAddress_Err _ _ _ _ _ _ Hshape H) as (Hread & ->).
  split; [exact Hread | reflexivity].
Qed.

Lemma analyze_totals info group rounds nVotes threshold initial final report :
  analyze info group rounds nVotes threshold initial final = Ok report ->
  initialRewards report = initial /\ finalRewards report = final.
Proof.
  unfold analyze. intro H. step_ok H.
  destruct (deriveSla rounds nVotes threshold) as [ratio meets].
  destruct (reportSla ratio meets) as [l1 l2].
  injection H as <-. split; reflexivity.
Qed.

(** Runs the steps of [analyzeAt] up to the first one that fails. *)
Ltac fails_or_goes_on :=
  repeat match goal with
    | |- exists e, bind ?c _ = Err e =>
        destruct c; cbn [bind]; [| eexists; reflexivity]
    end.

(** For an address that had earned nothing before the distribution, the
    locator finds the initial block by its walk, no totals are stored for
    the address at that block, the client answers (0, 0), and the run goes
    on to its report: the absence is no error. *)
Lemma zero_totals_are_no_error :
  fst (walkBack Sample.newcomer 4773500 1 searchRange None) = Some "0xd498"
  /\ findBlockBeforeRewardsCalculated Sample.newcomer Sample.distributionBlock
     = Ok "0xd498"
  /\ Sample.newcomerStored "0xd498" = None
  /\ earnedRewardsAt Sample.newcomer "0xd498" Sample.address Sample.groupNs
     = Some (Some (0, 0))
  /\ readInitialRewards Sample.config Sample.newcomer "0xd498" = Ok (Tuple 0 0)
  /\ exists report,
       analyzeAt Sample.config Sample.newcomer Sample.distributionBlock = Ok report
       /\ initialRewards report = Tuple 0 0
       /\ periodRewards report = (8206437276591532332, 31834395275802910556).
Proof.
  split; [vm_compute; reflexivity |].
  split; [vm_compute; reflexivity |].
  split; [reflexivity |].
  split; [reflexivity |].
  split; [vm_compute; reflexivity |].
  eexists. split; [vm_compute; reflexivity | split; reflexivity].
Qed.

(** C9, as the code has it: the program never tests whether the totals are
    stored.  At the distribution block and at whatever initial block the
    locator returns, its last-resort block included, it reads them with
    the same query and uses the pair the client decodes, the (0, 0)
    answered for totals that are not stored as any other; the run aborts
    when, and on a client that decodes pairs only when, one of the two
    reads throws. *)
Theorem rewards_used_as_decoded
  (cfg : Config) (api : Chain) (blockHash initialBlockHash : BlockHash) :
  tupleShaped api ->
  findBlockBeforeRewardsCalculated api blockHash = Ok initialBlockHash ->
  initialBlockHash <> "" ->
  (forall totals,
      earnedRewardsAt api initialBlockHash
        (orEmpty (ADDRESS cfg)) (orEmpty (GROUP_NAMESPACE cfg)) = Some (Some totals) ->
      readInitialRewards cfg api initialBlockHash
      = Ok (Tuple (fst totals) (snd totals)))
  /\ (forall totals,
        earnedRewardsAt api blockHash
          (orEmpty (ADDRESS cfg)) (orEmpty (GROUP_NAMESPACE cfg)) = Some (Some totals) ->
        readFinalRewards cfg api blockHash = Ok (Tuple (fst totals) (snd totals)))
  /\ (earnedRewardsAt api initialBlockHash
        (orEmpty (ADDRESS cfg)) (orEmpty (GROUP_NAMESPACE cfg))
      = Some (Some (valueOrDefault None)) ->
      readInitialRewards cfg api initialBlockHash = Ok (Tuple 0 0))
  /\ (forall e,
        readInitialRewards cfg api initialBlockHash = Err e ->
        earnedRewardsAt api initialBlockHash
          (orEmpty (ADDRESS cfg)) (orEmpty (GROUP_NAMESPACE cfg)) = None)
  /\ (forall e,
        readFinalRewards cfg api blockHash = Err e ->
        earnedRewardsAt api blockHash
          (orEmpty (ADDRESS cfg)) (orEmpty (GROUP_NAMESPACE cfg)) = None)
  /\ (earnedRewardsAt api initialBlockHash
        (orEmpty (ADDRESS cfg)) (orEmpty (GROUP_NAMESPACE cfg)) = None
      \/ earnedRewardsAt api blockHash
           (orEmpty (ADDRESS cfg)) (orEmpty (GROUP_NAMESPACE cfg)) = None ->
      exists e, analyzeAt cfg api blockHash = Err e)
  /\ (forall report,
        analyzeAt cfg api blockHash = Ok report ->
        exists initial final,
          earnedRewardsAt api initialBlockHash
            (orEmpty (ADDRESS cfg)) (orEmpty (GROUP_NAMESPACE cfg))
          = Some (Some initial)
          /\ earnedRewardsAt api blockHash
               (orEmpty (ADDRESS cfg)) (orEmpty (GROUP_NAMESPACE cfg))
             = Some (Some final)
          /\ initialRewards report = Tuple (fst initial) (snd initial)
          /\ finalRewards report = Tuple (fst final) (snd final)).
Proof.
  intros Hshape Hlocated Hne.
  split; [intros totals; apply readInitialRewards_decoded; exact Hne |].
  split; [intros totals; apply readFinalRewards_decoded |].
  split; [intro H; exact (readInitialRewards_decoded _ _ _ (0, 0) Hne H) |].
  split; [intros e H; apply (readInitialRewards_Err _ _ _ _ Hshape H) |].
  split; [intros e H; apply (readFinalRewards_Err _ _ _ _ Hshape H) |].
  split.
  - intro Hthrows. unfold analyzeAt. cbv zeta. rewrite Hlocated.
    cbn [bind rethrow].
    destruct Hthrows as [Hinitial | Hfinal].
    + assert (Hread : readInitialRewards cfg api initialBlockHash
                      = Err (Wrapped MainInitialRewards
                               (Wrapped FailedToGetRewards QueryFailed))).
      { unfold readInitialRewards, getRewardsForAddress.
        destruct (String.eqb_spec initialBlockHash ""); [contradiction |].
        rewrite Hinitial. reflexivity. }
      rewrite Hread. fails_or_goes_on. eexists. reflexivity.
    + assert (Hread : readFinalRewards cfg api blockHash
                      = Err (Wrapped MainFinalRewards
                               (Wrapped FailedToGetRewards QueryFailed))).
      { unfold readFinalRewards, getRewardsForAddress.
        rewrite Hfinal. reflexivity. }
      rewrite Hread. fails_or_goes_on. eexists. reflexivity.
  - intros report H. unfold analyzeAt in H. cbv zeta in H.
    apply bind_Ok in H. destruct H as (group & _ & H).
    apply bind_Ok in H. destruct H as (info & _ & H).
    apply bind_Ok in H. destruct H as (initialBlockHash' & Hinitial & H).
    apply rethrow_Ok in Hinitial.
    assert (initialBlockHash' = initialBlockHash) as -> by congruence.
    apply bind_Ok in H. destruct H as (rounds & _ & H).
    apply bind_Ok in H. destruct H as (nVotes & _ & H).
    apply bind_Ok in H. destruct H as (threshold & _ & H).
    apply bind_Ok in H. destruct H as (initialValue & HinitialValue & H).
    apply bind_Ok in H. destruct H as (finalValue & HfinalValue & H).
    apply bind_Ok in H. destruct H as (count & _ & H).
    destruct (analyze_totals _ _ _ _ _ _ _ _ H) as (-> & ->).
    unfold readInitialRewards in HinitialValue. apply rethrow_Ok in HinitialValue.
    unfold readFinalRewards in HfinalValue. apply rethrow_Ok in HfinalValue.
    destruct (String.eqb_spec initialBlockHash ""); [contradiction |].
    cbn [negb] in HinitialValue.
    apply bind_Ok in HinitialValue. destruct HinitialValue as (initial & Hri & Hti).
    apply bind_Ok in HfinalValue. destruct HfinalValue as (final & Hrf & Htf).
    apply getRewardsForAddress_Ok in Hri. apply getRewardsForAddress_Ok in Hrf.
    unfold tupleOf in Hti, Htf. injection Hti as <-. injection Htf as <-.
    exists initial, final. repeat split; assumption.
Qed.

(** The run on the chain whose window cannot be read: the totals are
    those read at the block before the distribution block. *)
Lemma rewards_used_as_decoded_witness :
  readInitialRewards Sample.config Sample.unreadable "0xd499"
  = Ok (Tuple 7982644892450463358 30299138028873089534)
  /\ exists initial final,
       earnedRewardsAt Sample.unreadable "0xd499"
         (orEmpty (ADDRESS Sample.config)) (orEmpty (GROUP_NAMESPACE Sample.config))
       = Some (Some initial)
       /\ earnedRewardsAt Sample.unreadable Sample.distributionBlock
            (orEmpty (ADDRESS Sample.config)) (orEmpty (GROUP_NAMESPACE Sample.config))
          = Some (Some final)
       /\ initialRewards Sample.report = Tuple (fst initial) (snd initial)
       /\ finalRewards Sample.report = Tuple (fst final) (snd final).
Proof.
  assert (Hshape : tupleShaped Sample.unreadable).
  { intros blockHash address groupNs.
    cbn [earnedRewardsAt Sample.unreadable]. unfold Sample.rewardsOf.
    destruct (blockHash =? "0xd500")%string; [discriminate |].
    destruct ((blockHash =? "0xd499")%string || (blockHash =? "0xd498")%string);
      discriminate. }
  assert (Hlocated :
    findBlockBeforeRewardsCalculated Sample.unreadable Sample.distributionBlock
    = Ok "0xd499") by (vm_compute; reflexivity).
  assert (Hne : "0xd499" <> "") by discriminate.
  split.
  - apply (proj1 (rewards_used_as_decoded Sample.config Sample.unreadable
                    Sample.distributionBlock "0xd499" Hshape Hlocated Hne)
             (7982644892450463358, 30299138028873089534)).
    reflexivity.
  - apply (proj2 (proj2 (proj2 (proj2 (proj2 (proj2
             (rewards_used_as_decoded Sample.config Sample.unreadable
                Sample.distributionBlock "0xd499" Hshape Hlocated Hne))))))
             Sample.report).
    vm_compute. reflexivity.
Defined.

(** * Further properties of the code *)

(** ** How the periods tile the chain *)

(** X1: as long as every number met is a safe integer, consecutive periods
    are adjacent and the active period starts at its [firstBlock]: the
    block after the end of period [target] is the start of period
    [target + 1]. *)
Theorem periods_adjacent (idx firstBlock len target : Z) :
  Binary64.safePeriod idx firstBlock len target ->
  Binary64.safePeriod idx firstBlock len (target + 1) ->
  Binary64.safePeriod idx firstBlock len idx ->
  exists this next current,
    Binary64.periodInfoOf
      {| Binary64.index := Binary64.Integer idx;
         Binary64.firstBlock := Binary64.Integer firstBlock;
         Binary64.length := Binary64.Integer len |} (Binary64.Integer target)
    = Ok this
    /\ Binary64.periodInfoOf
         {| Binary64.index := Binary64.Integer idx;
            Binary64.firstBlock := Binary64.Integer firstBlock;
            Binary64.length := Binary64.Integer len |}
         (Binary64.Integer (target + 1))
       = Ok next
    /\ Binary64.periodInfoOf
         {| Binary64.index := Binary64.Integer idx;
            Binary64.firstBlock := Binary64.Integer firstBlock;
            Binary64.length := Binary64.Integer len |} (Binary64.Integer idx)
       = Ok current
    /\ Binary64.info_start next
       = Binary64.add (Binary64.info_end this) (Binary64.Integer 1)
    /\ Binary64.info_start current = Binary64.Integer firstBlock.
Proof.
  intros Hthis Hnext Hcurrent.
  do 3 eexists.
  split; [apply (periodInfoOf_safe _ _ _ _ Hthis) |].
  split; [apply (periodInfoOf_safe _ _ _ _ Hnext) |].
  split; [apply (periodInfoOf_safe _ _ _ _ Hcurrent) |].
  cbn [Binary64.info_start Binary64.info_end].
  destruct Hthis as (_ & _ & _ & Hsum & _).
  split.
  - rewrite add_safe;
      [f_equal; ring
      | replace (firstBlock - (idx - target) * len + len - 1 + 1)
          with (firstBlock - (idx - target) * len + len) by ring; exact Hsum].
  - f_equal. ring.
Qed.

Lemma periods_adjacent_witness :
  exists this next current,
    Binary64.periodInfoOf
      {| Binary64.index := Binary64.Integer 620;
         Binary64.firstBlock := Binary64.Integer 4809446;
         Binary64.length := Binary64.Integer 7200 |} (Binary64.Integer 614)
    = Ok this
    /\ Binary64.periodInfoOf
         {| Binary64.index := Binary64.Integer 620;
            Binary64.firstBlock := Binary64.Integer 4809446;
            Binary64.length := Binary64.Integer 7200 |}
         (Binary64.Integer (614 + 1))
       = Ok next
    /\ Binary64.periodInfoOf
         {| Binary64.index := Binary64.Integer 620;
            Binary64.firstBlock := Binary64.Integer 4809446;
            Binary64.length := Binary64.Integer 7200 |} (Binary64.Integer 620)
       = Ok current
    /\ Binary64.info_start next
       = Binary64.add (Binary64.info_end this) (Binary64.Integer 1)
    /\ Binary64.info_start current = Binary64.Integer 4809446.
Proof.
  apply (periods_adjacent 620 4809446 7200 614);
    unfold Binary64.safePeriod, Binary64.safe; vm_compute;
    repeat split; discriminate.
Defined.

(** X2: as long as every number met is a safe integer, with a positive
    period length an earlier period ends before a later one starts. *)
Theorem periods_monotonic (idx firstBlock len target1 target2 : Z) :
  0 < len -> target1 < target2 ->
  Binary64.safePeriod idx firstBlock len target1 ->
  Binary64.safePeriod idx firstBlock len target2 ->
  exists end1 start2,
    Binary64.periodEndBlock
      {| Binary64.index := Binary64.Integer idx;
         Binary64.firstBlock := Binary64.Integer firstBlock;
         Binary64.length := Binary64.Integer len |} (Binary64.Integer target1)
    = Binary64.Integer end1
    /\ Binary64.periodStartBlock
         {| Binary64.index := Binary64.Integer idx;
            Binary64.firstBlock := Binary64.Integer firstBlock;
            Binary64.length := Binary64.Integer len |} (Binary64.Integer target2)
       = Binary64.Integer start2
    /\ end1 < start2.
Proof.
  intros Hlen Hlt H1 H2.
  pose proof (periodInfoOf_safe _ _ _ _ H1) as Hinfo1.
  pose proof (periodInfoOf_safe _ _ _ _ H2) as Hinfo2.
  unfold Binary64.periodInfoOf in Hinfo1, Hinfo2.
  destruct (Binary64.isNaN _ || Binary64.isNaN _) in Hinfo1; [discriminate |].
  destruct (Binary64.isNaN _ || Binary64.isNaN _) in Hinfo2; [discriminate |].
  injection Hinfo1 as _ Hend1. injection Hinfo2 as Hstart2 _.
  exists (firstBlock - (idx - target1) * len + len - 1),
         (firstBlock - (idx - target2) * len).
  split; [exact Hend1 |]. split; [exact Hstart2 |]. nia.
Qed.

Lemma periods_monotonic_witness :
  exists end1 start2,
    Binary64.periodEndBlock
      {| Binary64.index := Binary64.Integer 620;
         Binary64.firstBlock := Binary64.Integer 4809446;
         Binary64.length := Binary64.Integer 7200 |} (Binary64.Integer 613)
    = Binary64.Integer end1
    /\ Binary64.periodStartBlock
         {| Binary64.index := Binary64.Integer 620;
            Binary64.firstBlock := Binary64.Integer 4809446;
            Binary64.length := Binary64.Integer 7200 |} (Binary64.Integer 614)
       = Binary64.Integer start2
    /\ end1 < start2.
Proof.
  apply (periods_monotonic 620 4809446 7200 613 614); try lia;
    unfold Binary64.safePeriod, Binary64.safe; vm_compute;
    repeat split; discriminate.
Defined.

(** ** The stake ledger, whatever its order *)

(** X3: the stake found for a period is found for every later period: a stake
    applies from its last update onwards. *)
Theorem checkStake_later_period (ledger : StakeRecord) (target later stake : Z) :
  checkStake (Num target) ledger = Ok stake ->
  target <= later ->
  checkStake (Num later) ledger = Ok stake.
Proof.
  unfold checkStake.
  destruct (scanStakeRecord ledger 0 0) as [lastUpdatePeriod stakeValue].
  simpl. intros H Hle.
  destruct (Z.leb_spec lastUpdatePeriod target) as [Hlast | Hlast];
    simpl in H; [| discriminate].
  destruct (0 <? stakeValue); [| discriminate].
  destruct (Z.leb_spec lastUpdatePeriod later); [exact H | lia].
Qed.

Lemma checkStake_later_period_witness :
  checkStake (Num 614) [(600, 1000)] = Ok 1000.
Proof.
  apply (checkStake_later_period [(600, 1000)] 600 614 1000);
    [reflexivity | lia].
Defined.

(** A validated stake is positive, and the requested period is not before
    the update the scan ended on. *)
Lemma checkStake_Ok_positive (ledger : StakeRecord) (target : jsnum) (stake : Z) :
  checkStake target ledger = Ok stake ->
  0 < stake
  /\ snd (scanStakeRecord ledger 0 0) = stake
  /\ exists t, target = Num t /\ fst (scanStakeRecord ledger 0 0) <= t.
Proof.
  unfold checkStake.
  destruct (scanStakeRecord ledger 0 0) as [lastUpdatePeriod stakeValue].
  destruct target as [t |]; simpl; [| discriminate].
  destruct (Z.leb_spec lastUpdatePeriod t) as [Hlast | _]; simpl;
    [| discriminate].
  destruct (Z.ltb_spec 0 stakeValue) as [Hpos | _]; [| discriminate].
  intro Heq. injection Heq as <-. repeat split; [assumption |].
  exists t. split; [reflexivity | assumption].
Qed.

Lemma scanStakeRecord_swap (x y : Z * Z) (rest : StakeRecord)
  (lastUpdatePeriod stakeValue : Z) :
  fst x <> fst y ->
  scanStakeRecord (y :: x :: rest) lastUpdatePeriod stakeValue
  = scanStakeRecord (x :: y :: rest) lastUpdatePeriod stakeValue.
Proof.
  destruct x as [kx sx], y as [ky sy]. simpl. intro Hne.
  destruct (Z.ltb_spec lastUpdatePeriod ky), (Z.ltb_spec lastUpdatePeriod kx),
    (Z.ltb_spec ky kx), (Z.ltb_spec kx ky);
    try reflexivity; lia.
Qed.

(** X4: the outcome of the scan does not depend on the order in which
    [Object.entries] lists the ledger, its keys being distinct. *)
Theorem scanStakeRecord_order_independent
  (ledger ledger' : StakeRecord) (target : jsnum) :
  Permutation ledger ledger' ->
  NoDup (map fst ledger) ->
  scanStakeRecord ledger 0 0 = scanStakeRecord ledger' 0 0
  /\ checkStake target ledger = checkStake target ledger'.
Proof.
  intros Hperm Hnd.
  assert (Hscan : forall a s, scanStakeRecord ledger a s = scanStakeRecord ledger' a s).
  { induction Hperm as [| [k v] l l' Hp IH | x y l | l l' l'' Hp1 IH1 Hp2 IH2];
      intros a s.
    - reflexivity.
    - inversion Hnd; subst. simpl.
      destruct (a <? k); apply IH; assumption.
    - apply scanStakeRecord_swap.
      inversion Hnd as [| ? ? Hnotin _]; subst.
      intro Heq. apply Hnotin. left. exact Heq.
    - rewrite IH1 by assumption. apply IH2.
      apply (Permutation_NoDup (Permutation_map fst Hp1)). exact Hnd. }
  split; [apply Hscan |].
  unfold checkStake. rewrite Hscan. reflexivity.
Qed.

Lemma scanStakeRecord_order_independent_witness :
  scanStakeRecord [(600, 1000); (580, 400)] 0 0
  = scanStakeRecord [(580, 400); (600, 1000)] 0 0
  /\ checkStake (Num 614) [(600, 1000); (580, 400)]
     = checkStake (Num 614) [(580, 400); (600, 1000)].
Proof.
  apply (scanStakeRecord_order_independent
           [(600, 1000); (580, 400)] [(580, 400); (600, 1000)] (Num 614)).
  - apply perm_swap.
  - repeat constructor; simpl; intuition discriminate.
Defined.

Lemma checkStake_max_key_witness :
  checkStake (Num 614) [(580, 400); (600, 1000)]
  = if (600 <=? 614) && (0 <? 1000)
    then Ok 1000 else Err (NotSubscribed 1000).
Proof.
  apply (checkStake_max_key [(580, 400); (600, 1000)] 614 600 1000).
  - repeat constructor; simpl; intuition discriminate.
  - right. left. reflexivity.
  - intros e [<- | [<- | []]]; simpl; lia.
  - lia.
Defined.

(** ** What the input validation lets through *)

Lemma checkStake_Err (target : jsnum) (ledger : StakeRecord) (e : Failure) :
  checkStake target ledger = Err e -> exists stake, e = NotSubscribed stake.
Proof.
  unfold checkStake.
  destruct (scanStakeRecord ledger 0 0) as [lastUpdatePeriod stakeValue].
  destruct (_ && _); [discriminate |].
  intro H. injection H as <-. eexists. reflexivity.
Qed.

(** X6: a validation that succeeds has checked a positive period index and
    non-blank names, and answers with the positive stake of the ledger
    stored at the first block of the requested period. *)
Theorem validateInput_Ok (cfg : Config) (api : Chain) (stake : Z) :
  validateInput cfg api = Ok stake ->
  0 < stake
  /\ (exists p, REWARD_PERIOD_INDEX cfg = Num p /\ 0 < p)
  /\ truthy (GROUP_NAMESPACE cfg) = true
  /\ truthy (ADDRESS cfg) = true
  /\ exists currentPeriod periodBlockHash ledger,
       activeRewardPeriodInfo api = Some currentPeriod
       /\ rpcGetBlockHash api
            (Period.periodStartBlock currentPeriod (REWARD_PERIOD_INDEX cfg))
          = Ok periodBlockHash
       /\ solutionGroupStakeRecordsAt api periodBlockHash
            (orEmpty (GROUP_NAMESPACE cfg)) (orEmpty (ADDRESS cfg))
          = Some (Some ledger)
       /\ checkStake (REWARD_PERIOD_INDEX cfg) ledger = Ok stake.
Proof.
  unfold validateInput. intro H.
  apply bind_Ok in H. destruct H as ([] & Hparams & H).
  assert (Hbody : exists currentPeriod periodBlockHash ledger,
    activeRewardPeriodInfo api = Some currentPeriod
    /\ rpcGetBlockHash api
         (Period.periodStartBlock currentPeriod (REWARD_PERIOD_INDEX cfg))
       = Ok periodBlockHash
    /\ solutionGroupStakeRecordsAt api periodBlockHash
         (orEmpty (GROUP_NAMESPACE cfg)) (orEmpty (ADDRESS cfg))
       = Some (Some ledger)
    /\ checkStake (REWARD_PERIOD_INDEX cfg) ledger = Ok stake).
  { unfold rethrowUnlessNotSubscribed in H.
    match type of H with
    | match ?body with _ => _ end = _ => destruct body as [a | e] eqn:Hbody
    end; [| destruct e; discriminate].
    injection H as ->.
    apply bind_Ok in Hbody. destruct Hbody as (currentPeriod & Hcur & Hbody).
    apply await_Ok in Hcur.
    apply bind_Ok in Hbody. destruct Hbody as (periodBlockHash & Hhash & Hbody).
    apply bind_Ok in Hbody. destruct Hbody as (stakeRecord & Hrecord & Hbody).
    apply await_Ok in Hrecord.
    destruct stakeRecord as [ledger |]; [| discriminate].
    exists currentPeriod, periodBlockHash, ledger. repeat split; assumption. }
  destruct Hbody as (currentPeriod & periodBlockHash & ledger & Hcur & Hhash
                     & Hrecord & Hstake).
  unfold checkParameters in Hparams.
  destruct (REWARD_PERIOD_INDEX cfg) as [p |] eqn:Hp; simpl in Hparams;
    [| discriminate].
  destruct (Z.leb_spec p 0) as [_ | Hpos]; [discriminate |].
  destruct (truthy (GROUP_NAMESPACE cfg)); simpl in Hparams; [| discriminate].
  destruct (trimIsEmpty (orEmpty (GROUP_NAMESPACE cfg))); [discriminate |].
  destruct (truthy (ADDRESS cfg)); simpl in Hparams; [| discriminate].
  split; [apply (checkStake_Ok_positive ledger (Num p) stake Hstake) |].
  split; [exists p; split; [reflexivity | exact Hpos] |].
  split; [reflexivity |]. split; [reflexivity |].
  exists currentPeriod, periodBlockHash, ledger. repeat split; assumption.
Qed.

Lemma validateInput_Ok_witness :
  0 < 1000
  /\ (exists p, REWARD_PERIOD_INDEX Sample.config = Num p /\ 0 < p)
  /\ truthy (GROUP_NAMESPACE Sample.config) = true
  /\ truthy (ADDRESS Sample.config) = true
  /\ exists currentPeriod periodBlockHash ledger,
       activeRewardPeriodInfo Sample.chain = Some currentPeriod
       /\ rpcGetBlockHash Sample.chain
            (Period.periodStartBlock currentPeriod (REWARD_PERIOD_INDEX Sample.config))
          = Ok periodBlockHash
       /\ solutionGroupStakeRecordsAt Sample.chain periodBlockHash
            (orEmpty (GROUP_NAMESPACE Sample.config)) (orEmpty (ADDRESS Sample.config))
          = Some (Some ledger)
       /\ checkStake (REWARD_PERIOD_INDEX Sample.config) ledger = Ok 1000.
Proof. apply (validateInput_Ok Sample.config Sample.chain 1000). reflexivity. Defined.

(** X7: a period index that is not a number or not positive is refused before
    anything is read from the chain: period 0 cannot be analysed. *)
Theorem validateInput_bad_period (cfg : Config) (api : Chain) :
  REWARD_PERIOD_INDEX cfg = NaN
  \/ (exists p, REWARD_PERIOD_INDEX cfg = Num p /\ p <= 0) ->
  validateInput cfg api = Err (RequiredParameter "REWARD_PERIOD_INDEX").
Proof.
  intros [Hnan | (p & Hp & Hle)]; unfold validateInput, checkParameters.
  - rewrite Hnan. reflexivity.
  - rewrite Hp. simpl. destruct (Z.leb_spec p 0); [reflexivity | lia].
Qed.

Lemma validateInput_bad_period_witness :
  validateInput
    {| INDEXER_URL := None; REWARD_PERIOD_INDEX := Num 0;
       GROUP_NAMESPACE := Some Sample.groupNs; ADDRESS := Some Sample.address;
       SPECIFIC_BLOCK_HASH := None |} Sample.chain
  = Err (RequiredParameter "REWARD_PERIOD_INDEX").
Proof.
  apply validateInput_bad_period. right. exists 0. split; [reflexivity | lia].
Defined.

(** X8: the errors of the validation: a refused parameter, a not-subscribed
    error (never wrapped), or a failed chain read wrapped as a failure to
    validate; a failed read is never reported as "not subscribed". *)
Theorem validateInput_errors (cfg : Config) (api : Chain) (e : Failure) :
  validateInput cfg api = Err e ->
  (exists name, e = RequiredParameter name /\ checkParameters cfg = Err e)
  \/ (e = NotSubscribedNoRecord
      /\ exists periodBlockHash,
           solutionGroupStakeRecordsAt api periodBlockHash
             (orEmpty (GROUP_NAMESPACE cfg)) (orEmpty (ADDRESS cfg)) = Some None)
  \/ (exists stake periodBlockHash ledger,
         e = NotSubscribed stake
         /\ solutionGroupStakeRecordsAt api periodBlockHash
              (orEmpty (GROUP_NAMESPACE cfg)) (orEmpty (ADDRESS cfg))
            = Some (Some ledger)
         /\ checkStake (REWARD_PERIOD_INDEX cfg) ledger = Err e)
  \/ e = Wrapped FailedToValidateSubscription QueryFailed.
Proof.
  unfold validateInput. intro H.
  destruct (checkParameters cfg) as [[] | e0] eqn:Hparams; cbn [bind] in H.
  - destruct (activeRewardPeriodInfo api) as [currentPeriod |];
      cbn [bind await] in H;
      [| injection H as <-; auto].
    destruct (rpcGetBlockHash api _) as [periodBlockHash | e1] eqn:Hhash;
      cbn [bind] in H.
    + destruct (solutionGroupStakeRecordsAt api periodBlockHash _ _)
        as [[ledger |] |] eqn:Hrecord; cbn [bind await] in H.
      * destruct (checkStake (REWARD_PERIOD_INDEX cfg) ledger) as [s | e2] eqn:Hc;
          [discriminate |].
        destruct (checkStake_Err _ _ _ Hc) as (stake & ->).
        injection H as <-. right. right. left.
        exists stake, periodBlockHash, ledger. repeat split; assumption.
      * injection H as <-. right. left. split; [reflexivity |].
        exists periodBlockHash. exact Hrecord.
      * injection H as <-. auto.
    + assert (e1 = QueryFailed) as ->.
      { destruct (Period.periodStartBlock _ _) as [z |]; simpl in Hhash;
          [destruct (getBlockHash api z); simpl in Hhash |]; congruence. }
      injection H as <-. auto.
  - injection H as <-. left.
    unfold checkParameters in Hparams.
    repeat match type of Hparams with
           | (if ?c then _ else _) = _ => destruct c
           end; try discriminate; injection Hparams as <-;
      eexists; split; reflexivity.
Qed.

Lemma validateInput_errors_witness :
  (exists name,
      NotSubscribed 0 = RequiredParameter name
      /\ checkParameters Sample.periodOne = Err (NotSubscribed 0))
  \/ (NotSubscribed 0 = NotSubscribedNoRecord
      /\ exists periodBlockHash,
           solutionGroupStakeRecordsAt Sample.stakedInPeriodZero periodBlockHash
             (orEmpty (GROUP_NAMESPACE Sample.periodOne))
             (orEmpty (ADDRESS Sample.periodOne)) = Some None)
  \/ (exists stake periodBlockHash ledger,
         NotSubscribed 0 = NotSubscribed stake
         /\ solutionGroupStakeRecordsAt Sample.stakedInPeriodZero periodBlockHash
              (orEmpty (GROUP_NAMESPACE Sample.periodOne))
              (orEmpty (ADDRESS Sample.periodOne))
            = Some (Some ledger)
         /\ checkStake (REWARD_PERIOD_INDEX Sample.periodOne) ledger
            = Err (NotSubscribed 0))
  \/ NotSubscribed 0 = Wrapped FailedToValidateSubscription QueryFailed.
Proof.
  apply (validateInput_errors Sample.periodOne Sample.stakedInPeriodZero).
  reflexivity.
Defined.

(** ** The chain scan *)

Lemma hasRewardsCalculatedForPeriod_true (events : list Event) (periodIndex : jsnum) :
  hasRewardsCalculatedForPeriod events periodIndex = Ok true ->
  exists event, In event events /\ announces event periodIndex.
Proof.
  induction events as [| event rest IH]; cbn [hasRewardsCalculatedForPeriod].
  - discriminate.
  - assert (Hrest :
      hasRewardsCalculatedForPeriod rest periodIndex = Ok true ->
      exists e, In e (event :: rest) /\ announces e periodIndex).
    { intro H. destruct (IH H) as (e & He & Ha). exists e. split; [right |]; assumption. }
    destruct (String.eqb_spec (section event) "workerNodePallet") as [Hs | _];
      cbn [andb]; [| exact Hrest].
    destruct (String.eqb_spec (method event) "RewardsCalculatedForPeriod") as [Hm | _];
      [| exact Hrest].
    destruct (data event) as [| d args] eqn:Hd; [discriminate |].
    destruct (jsnum_eqb (Num d) periodIndex) eqn:Heq; [| exact Hrest].
    intros _. exists event. split; [left; reflexivity |].
    apply jsnum_eqb_eq in Heq.
    repeat split; try assumption. exists d, args. split; congruence.
Qed.

Section Scan.

Variable api : Chain.
Variable periodIndex : jsnum.

Lemma scanBlock_Some (blockNumber : Z) (blockHash : BlockHash) :
  scanBlock api periodIndex blockNumber = Some blockHash ->
  getBlockHash api blockNumber = Some blockHash
  /\ exists events event,
       eventsAt api blockHash = Some events
       /\ In event events /\ announces event periodIndex.
Proof.
  unfold scanBlock.
  destruct (getBlockHash api blockNumber) as [h |]; cbn [bind await];
    [| discriminate].
  destruct (eventsAt api h) as [events |] eqn:Hevents; cbn [bind await];
    [| discriminate].
  destruct (hasRewardsCalculatedForPeriod events periodIndex) as [[|] | e] eqn:Hfound;
    cbn [bind]; try discriminate.
  intro H. injection H as <-. split; [reflexivity |].
  destruct (hasRewardsCalculatedForPeriod_true events periodIndex Hfound)
    as (event & Hin & Ha).
  exists events, event. split; [exact Hevents | split; assumption].
Qed.

Lemma scanBlock_found (blockNumber : Z) (blockHash : BlockHash) (events : list Event) :
  getBlockHash api blockNumber = Some blockHash ->
  eventsAt api blockHash = Some events ->
  hasRewardsCalculatedForPeriod events periodIndex = Ok true ->
  scanBlock api periodIndex blockNumber = Some blockHash.
Proof.
  intros Hhash Hevents Hfound. unfold scanBlock.
  rewrite Hhash. cbn [bind await]. rewrite Hevents. cbn [bind await].
  rewrite Hfound. reflexivity.
Qed.

Lemma scanBlocks_Some :
  forall (count : nat) (startBlock : Z) (blockHash : BlockHash),
    scanBlocks api periodIndex startBlock count = Some blockHash ->
    exists blockNumber,
      startBlock <= blockNumber < startBlock + Z.of_nat count
      /\ scanBlock api periodIndex blockNumber = Some blockHash
      /\ forall m, startBlock <= m < blockNumber ->
                   scanBlock api periodIndex m = None.
Proof.
  induction count as [| count IH]; intros startBlock blockHash; cbn [scanBlocks].
  - discriminate.
  - destruct (scanBlock api periodIndex startBlock) as [h |] eqn:Hhere.
    + intro H. injection H as <-. exists startBlock.
      split; [lia |]. split; [exact Hhere |]. intros m Hm. lia.
    + intro H. destruct (IH _ _ H) as (n & Hn & Hfound & Hbefore).
      exists n. split; [lia |]. split; [exact Hfound |].
      intros m Hm. destruct (Z.eq_dec m startBlock) as [-> | Hne];
        [exact Hhere | apply Hbefore; lia].
Qed.


(** A scan that answers with a block found the distribution event of the
    period in it, in the range scanned, and in no readable earlier block
    of the range. *)
Lemma scanRange_found (startBlock endBlock : Z) (blockHash : BlockHash) :
  scanRange api periodIndex (Num startBlock) (Num endBlock) = Ok blockHash ->
  exists blockNumber events event,
    startBlock <= blockNumber <= endBlock
    /\ getBlockHash api blockNumber = Some blockHash
    /\ eventsAt api blockHash = Some events
    /\ In event events /\ announces event periodIndex
    /\ forall m h evs,
         startBlock <= m < blockNumber ->
         getBlockHash api m = Some h -> eventsAt api h = Some evs ->
         hasRewardsCalculatedForPeriod evs periodIndex <> Ok true.
Proof.
  unfold scanRange.
  destruct (scanBlocks api periodIndex startBlock (Z.to_nat (endBlock - startBlock + 1)))
    as [h |] eqn:Hscan; [| discriminate].
  intro H. injection H as <-.
  destruct (scanBlocks_Some _ _ _ Hscan) as (n & Hn & Hfound & Hbefore).
  destruct (scanBlock_Some _ _ Hfound) as (Hhash & events & event & Hev & Hin & Ha).
  exists n, events, event.
  split; [lia |]. do 4 (split; [assumption |]).
  intros m h' evs Hm Hh Hevs Htrue.
  specialize (Hbefore m Hm).
  rewrite (scanBlock_found m h' evs Hh Hevs Htrue) in Hbefore. discriminate.
Qed.


End Scan.

(** Where the scan of [findBlockForPeriod] runs: from the start of the
    next period, moved forward by the number of system voting rounds of
    the previous period unless that would pass the end of the next period,
    up to that end. *)
Lemma findBlockForPeriod_scan (api : Chain) (idx firstBlock len p : Z) :
  activeRewardPeriodInfo api
  = Some {| Period.index := Num idx; Period.firstBlock := Num firstBlock;
            Period.length := Num len |} ->
  p < idx ->
  (1 <= p
   /\ findBlockForPeriod api (Num p)
      = Err (Wrapped StartBlockSearchFailed QueryFailed))
  \/ exists startBlock,
       findBlockForPeriod api (Num p)
       = scanRange api (Num p) (Num startBlock)
           (Num (firstBlock - (idx - p) * len + len + len - 1))
       /\ (startBlock = firstBlock - (idx - p) * len + len
           \/ exists previousPeriodEndHash totalSystemVotingRounds,
                1 <= p
                /\ getBlockHash api (firstBlock - (idx - p) * len - 1)
                   = Some previousPeriodEndHash
                /\ systemVotingRoundEntriesAt api previousPeriodEndHash (Num (p - 1))
                   = Some totalSystemVotingRounds
                /\ startBlock
                   = firstBlock - (idx - p) * len + len + totalSystemVotingRounds
                /\ startBlock <= firstBlock - (idx - p) * len + len + len - 1).
Proof.
  intros Hcur Hlt. unfold findBlockForPeriod. rewrite Hcur.
  cbv [await bind Period.index Period.firstBlock Period.length
       Period.periodStartBlock jgt jadd jsub jmul jge rethrow rpcGetBlockHash].
  destruct (Z.ltb_spec idx p) as [Hfuture | _]; [lia |].
  destruct (Z.ltb_spec idx (p + 1)) as [Hcurrent | _]; [lia |].
  destruct (Z.leb_spec 0 (p - 1)) as [Hprev | Hfirst].
  - destruct (getBlockHash api (firstBlock - (idx - p) * len - 1))
      as [previousPeriodEndHash |] eqn:Hhash;
      [| left; split; [lia | reflexivity]].
    destruct (systemVotingRoundEntriesAt api previousPeriodEndHash (Num (p - 1)))
      as [total |] eqn:Hrounds;
      [| left; split; [lia | reflexivity]].
    right.
    destruct (Z.ltb_spec (firstBlock - (idx - p) * len + len + len - 1)
                         (firstBlock - (idx - p) * len + len + total))
      as [Hbeyond | Hwithin].
    + eexists. split; [reflexivity |]. left. reflexivity.
    + eexists. split; [reflexivity |]. right.
      exists previousPeriodEndHash, total.
      repeat split; try assumption; lia.
  - right. eexists. split; [reflexivity |]. left. reflexivity.
Qed.

(** X9: the block that [findBlockForPeriod] answers with lies in the period
    after the requested one and holds the distribution event of the
    requested period. *)
Theorem findBlockForPeriod_found
  (api : Chain) (idx firstBlock len p : Z) (blockHash : BlockHash) :
  activeRewardPeriodInfo api
  = Some {| Period.index := Num idx; Period.firstBlock := Num firstBlock;
            Period.length := Num len |} ->
  (forall h q total, systemVotingRoundEntriesAt api h q = Some total -> 0 <= total) ->
  findBlockForPeriod api (Num p) = Ok blockHash ->
  p < idx
  /\ exists blockNumber events event,
       Period.periodStartBlock
         {| Period.index := Num idx; Period.firstBlock := Num firstBlock;
            Period.length := Num len |} (Num (p + 1))
       = Num (firstBlock - (idx - p) * len + len)
       /\ Period.periodEndBlock
            {| Period.index := Num idx; Period.firstBlock := Num firstBlock;
               Period.length := Num len |} (Num (p + 1))
          = Num (firstBlock - (idx - p) * len + len + len - 1)
       /\ firstBlock - (idx - p) * len + len <= blockNumber
          <= firstBlock - (idx - p) * len + len + len - 1
       /\ getBlockHash api blockNumber = Some blockHash
       /\ eventsAt api blockHash = Some events
       /\ In event events
       /\ announces event (Num p).
Proof.
  intros Hcur Hcount Hfound.
  assert (Hlt : p < idx).
  { unfold findBlockForPeriod in Hfound. rewrite Hcur in Hfound.
    cbv [await bind Period.index jgt jadd] in Hfound.
    destruct (Z.ltb_spec idx p); [discriminate |].
    destruct (Z.ltb_spec idx (p + 1)); [discriminate | lia]. }
  split; [exact Hlt |].
  destruct (findBlockForPeriod_scan api idx firstBlock len p Hcur Hlt)
    as [[_ Hfail] | (startBlock & Hscan & Hstart)]; [congruence |].
  rewrite Hscan in Hfound.
  destruct (scanRange_found api (Num p) _ _ _ Hfound)
    as (n & events & event & Hn & Hhash & Hevents & Hin & Ha & _).
  exists n, events, event.
  split; [cbv [Period.periodStartBlock Period.index Period.firstBlock
               Period.length jsub jmul]; f_equal; ring |].
  split; [cbv [Period.periodEndBlock Period.periodStartBlock Period.index
               Period.firstBlock Period.length jsub jmul jadd]; f_equal; ring |].
  split.
  - destruct Hstart as [-> | (h & total & _ & _ & Hrounds & -> & _)]; [lia |].
    assert (0 <= total) by (eapply Hcount; exact Hrounds). lia.
  - do 3 (split; [assumption |]). exact Ha.
Qed.

Lemma findBlockForPeriod_found_witness :
  614 < 620
  /\ exists blockNumber events event,
       Period.periodStartBlock
         {| Period.index := Num 620; Period.firstBlock := Num 4809446;
            Period.length := Num 7200 |} (Num (614 + 1))
       = Num (4809446 - (620 - 614) * 7200 + 7200)
       /\ Period.periodEndBlock
            {| Period.index := Num 620; Period.firstBlock := Num 4809446;
               Period.length := Num 7200 |} (Num (614 + 1))
          = Num (4809446 - (620 - 614) * 7200 + 7200 + 7200 - 1)
       /\ 4809446 - (620 - 614) * 7200 + 7200 <= blockNumber
          <= 4809446 - (620 - 614) * 7200 + 7200 + 7200 - 1
       /\ getBlockHash Sample.chain blockNumber = Some "0xd500"
       /\ eventsAt Sample.chain "0xd500" = Some events
       /\ In event events
       /\ announces event (Num 614).
Proof.
  apply (findBlockForPeriod_found Sample.chain 620 4809446 7200 614 "0xd500").
  - reflexivity.
  - intros h q total H. injection H as <-. lia.
  - vm_compute. reflexivity.
Defined.




(** ** The first way that succeeds is the one used *)

Lemma hasRewardsCalculatedForPeriod_first
  (pre post : list Event) (event : Event) (periodIndex : jsnum) :
  announces event periodIndex ->
  (forall e, In e pre ->
     ~ (section e = "workerNodePallet"
        /\ method e = "RewardsCalculatedForPeriod" /\ data e = [])) ->
  hasRewardsCalculatedForPeriod (pre ++ event :: post) periodIndex = Ok true.
Proof.
  intros (Hs & Hm & d & args & Hd & Hp) Hwell.
  induction pre as [| e pre IH]; cbn [app hasRewardsCalculatedForPeriod].
  - rewrite Hs, Hm, Hd, Hp. cbn. rewrite Z.eqb_refl. reflexivity.
  - assert (IH' := IH (fun e' He' => Hwell e' (or_intror He'))).
    destruct (String.eqb_spec (section e) "workerNodePallet") as [Hse | _];
      cbn [andb]; [| exact IH'].
    destruct (String.eqb_spec (method e) "RewardsCalculatedForPeriod") as [Hme | _];
      [| exact IH'].
    destruct (data e) as [| d' args'] eqn:Hde.
    + exfalso. apply (Hwell e (or_introl eq_refl)). repeat split; assumption.
    + destruct (jsnum_eqb (Num d') periodIndex); [reflexivity | exact IH'].
Qed.

(** X11: a pinned block whose event log holds the distribution event of the
    period is the block used: the indexer is not asked and the chain is
    not scanned. *)
Theorem pinned_block_used
  (cfg : Config) (api : Chain) (indexer : Indexer)
  (hash : string) (pre post : list Event) (event : Event) :
  SPECIFIC_BLOCK_HASH cfg = Some hash -> hash <> "" ->
  eventsAt api hash = Some (pre ++ event :: post)%list ->
  announces event (REWARD_PERIOD_INDEX cfg) ->
  (forall e, In e pre ->
     ~ (section e = "workerNodePallet"
        /\ method e = "RewardsCalculatedForPeriod" /\ data e = [])) ->
  locateDistributionBlock cfg api indexer = ([UsingProvidedBlockHash], Ok hash).
Proof.
  intros Hpin Hne Hevents Ha Hwell. unfold locateDistributionBlock.
  rewrite Hpin, (truthy_Some hash Hne). cbn [orEmpty].
  rewrite Hevents. cbn [await bind].
  rewrite (hasRewardsCalculatedForPeriod_first pre post event _ Ha Hwell).
  reflexivity.
Qed.

Lemma pinned_block_used_witness :
  locateDistributionBlock Sample.pinnedRight Sample.chain Sample.stale
  = ([UsingProvidedBlockHash], Ok "0xd500").
Proof.
  apply (pinned_block_used Sample.pinnedRight Sample.chain Sample.stale "0xd500"
           [Sample.earnedRewardCalculated] [] Sample.rewardsCalculated).
  - reflexivity.
  - discriminate.
  - reflexivity.
  - repeat split. exists 614, []. split; reflexivity.
  - intros e [<- | []] (_ & Hm & _). discriminate Hm.
Defined.

Lemma firstInRange_Some (blockNumbers : list Z) (searchStartBlock searchEndBlock : jsnum)
  (blockNumber : Z) :
  firstInRange blockNumbers searchStartBlock searchEndBlock = Some blockNumber ->
  exists newer older,
    blockNumbers = (newer ++ blockNumber :: older)%list
    /\ jge (Num blockNumber) searchStartBlock
       && jle (Num blockNumber) searchEndBlock = true
    /\ forall b, In b newer ->
         jge (Num b) searchStartBlock && jle (Num b) searchEndBlock = false.
Proof.
  induction blockNumbers as [| b rest IH]; cbn [firstInRange].
  - discriminate.
  - destruct (jge (Num b) searchStartBlock && jle (Num b) searchEndBlock) eqn:Hb.
    + intro H. injection H as <-. exists [], rest.
      split; [reflexivity |]. split; [exact Hb |]. intros b' [].
    + intro H. destruct (IH H) as (newer & older & -> & Hin & Hout).
      exists (b :: newer), older. split; [reflexivity |]. split; [exact Hin |].
      intros b' [<- | Hb']; [exact Hb | apply Hout; exact Hb'].
Qed.

(** X12: a block number answered by the indexer query is the first of the
    listed blocks (newest first) that lies in the 2001 blocks from the
    start of the next period. *)
Theorem queryIndexer_block
  (indexer : Indexer) (indexerUrl : string) (periodIndex : jsnum) (api : Chain)
  (blockNumber : Z) :
  queryIndexerForRewardsBlock indexer indexerUrl periodIndex api
  = Ok (Some blockNumber) ->
  exists reply currentPeriod newer older,
    indexer indexerUrl = Some reply
    /\ ok reply = true /\ errors reply = false
    /\ events reply = Some (newer ++ blockNumber :: older)%list
    /\ activeRewardPeriodInfo api = Some currentPeriod
    /\ inIndexerWindow currentPeriod periodIndex blockNumber = true
    /\ forall b, In b newer -> inIndexerWindow currentPeriod periodIndex b = false.
Proof.
  unfold queryIndexerForRewardsBlock. intro H. apply rethrow_Ok in H.
  destruct (indexer indexerUrl) as [reply |] eqn:Hfetch; cbn [await bind] in H;
    [| discriminate].
  destruct (ok reply) eqn:Hok; cbn [negb] in H; [| discriminate].
  destruct (errors reply) eqn:Herr; [discriminate |].
  destruct (events reply) as [[| b rest] |] eqn:Hev; try discriminate.
  destruct (activeRewardPeriodInfo api) as [currentPeriod |] eqn:Hcur;
    cbn [await bind] in H; [| discriminate].
  cbv zeta in H.
  assert (Hfirst :
    firstInRange (b :: rest)
      (jadd (Period.periodStartBlock currentPeriod periodIndex)
            (Period.length currentPeriod))
      (jadd (jadd (Period.periodStartBlock currentPeriod periodIndex)
                  (Period.length currentPeriod)) (Num 2000))
    = Some blockNumber) by congruence.
  destruct (firstInRange_Some _ _ _ _ Hfirst)
    as (newer & older & Hlist & Hin & Hout).
  exists reply, currentPeriod, newer, older.
  rewrite <- Hlist. repeat split; try assumption; reflexivity.
Qed.

Lemma queryIndexer_block_witness :
  exists reply currentPeriod newer older,
    Sample.upToDate Sample.indexerUrl = Some reply
    /\ ok reply = true /\ errors reply = false
    /\ events reply = Some (newer ++ 4773500 :: older)%list
    /\ activeRewardPeriodInfo Sample.chain = Some currentPeriod
    /\ inIndexerWindow currentPeriod (Num 614) 4773500 = true
    /\ forall b, In b newer -> inIndexerWindow currentPeriod (Num 614) b = false.
Proof.
  apply (queryIndexer_block Sample.upToDate Sample.indexerUrl (Num 614)
           Sample.chain 4773500).
  reflexivity.
Defined.

(** X13: without a pinned hash, a block number answered by the indexer is the
    block used, as the client resolves it: the chain is not scanned and
    the event log of that block is not read. *)
Theorem indexer_block_used
  (cfg : Config) (api : Chain) (indexer : Indexer) (url : string)
  (blockNumber : Z) (blockHash : BlockHash)
  (events : BlockHash -> option (list Event)) :
  truthy (SPECIFIC_BLOCK_HASH cfg) = false ->
  INDEXER_URL cfg = Some url -> url <> "" ->
  queryIndexerForRewardsBlock indexer url (REWARD_PERIOD_INDEX cfg) api
  = Ok (Some blockNumber) ->
  blockNumber <> 0 ->
  getBlockHash api blockNumber = Some blockHash ->
    locateDistributionBlock cfg
      {| activeRewardPeriodInfo := activeRewardPeriodInfo api;
         activeRewardPeriodInfoAt := activeRewardPeriodInfoAt api;
         getBlockHash := getBlockHash api;
         getHeader := getHeader api;
         eventsAt := events;
         solutionGroupStakeRecordsAt := solutionGroupStakeRecordsAt api;
         systemVotingRoundEntriesAt := systemVotingRoundEntriesAt api;
         numberOfVotingsAt := numberOfVotingsAt api;
         numberOfVotingsWithNominationAt := numberOfVotingsWithNominationAt api;
         numberOfOperatorVotingsWithNominationAt :=
           numberOfOperatorVotingsWithNominationAt api;
         voteMetadataAt := voteMetadataAt api;
         solutionsGroupsAt := solutionsGroupsAt api;
         earnedRewardsAt := earnedRewardsAt api |} indexer
    = ([QueryingIndexer], Ok blockHash).
Proof.
  intros Hpin Hurl Hne Hquery Hnz Hhash.
  unfold locateDistributionBlock.
  rewrite Hpin, Hurl, (truthy_Some url Hne). cbn [orEmpty].
  change (queryIndexerForRewardsBlock indexer url (REWARD_PERIOD_INDEX cfg) _)
    with (queryIndexerForRewardsBlock indexer url (REWARD_PERIOD_INDEX cfg) api).
  rewrite Hquery. cbn [bind getBlockHash].
  destruct (Z.eqb_spec blockNumber 0); [contradiction |].
  rewrite Hhash. reflexivity.
Qed.

Lemma indexer_block_used_witness :
    locateDistributionBlock Sample.withIndexer
      {| activeRewardPeriodInfo := activeRewardPeriodInfo Sample.chain;
         activeRewardPeriodInfoAt := activeRewardPeriodInfoAt Sample.chain;
         getBlockHash := getBlockHash Sample.chain;
         getHeader := getHeader Sample.chain;
         eventsAt := fun _ => None;
         solutionGroupStakeRecordsAt := solutionGroupStakeRecordsAt Sample.chain;
         systemVotingRoundEntriesAt := systemVotingRoundEntriesAt Sample.chain;
         numberOfVotingsAt := numberOfVotingsAt Sample.chain;
         numberOfVotingsWithNominationAt :=
           numberOfVotingsWithNominationAt Sample.chain;
         numberOfOperatorVotingsWithNominationAt :=
           numberOfOperatorVotingsWithNominationAt Sample.chain;
         voteMetadataAt := voteMetadataAt Sample.chain;
         solutionsGroupsAt := solutionsGroupsAt Sample.chain;
         earnedRewardsAt := earnedRewardsAt Sample.chain |}
      Sample.upToDate
    = ([QueryingIndexer], Ok "0xd500").
Proof.
  apply (indexer_block_used Sample.withIndexer Sample.chain
           Sample.upToDate Sample.indexerUrl 4773500 "0xd500" (fun _ => None)).
  - reflexivity.
  - reflexivity.
  - discriminate.
  - reflexivity.
  - discriminate.
  - reflexivity.
Defined.

(** ** Where the initial block lies *)

Lemma checkBlock_hash (api : Chain) (n : Z) (hash : BlockHash) (hasEvent : bool) :
  checkBlock api n = Some (hash, hasEvent) -> getBlockHash api n = Some hash.
Proof.
  unfold checkBlock. destruct (getBlockHash api n) as [h |]; [| discriminate].
  destruct (eventsAt api h); [| discriminate]. congruence.
Qed.

Lemma walkBack_blocks (api : Chain) (blockNumber : Z) :
  forall (turns : nat) (i : Z) (last initial last' : option BlockHash),
    walkBack api blockNumber i turns last = (initial, last') ->
    (forall hash, initial = Some hash ->
       exists n, remaining blockNumber i turns n
                 /\ checkBlock api n = Some (hash, false))
    /\ (forall hash, last' = Some hash ->
          last = Some hash
          \/ exists n, remaining blockNumber i turns n
                       /\ checkBlock api n = Some (hash, true)).
Proof.
  unfold remaining.
  induction turns as [| turns IH]; intros i last initial last'; cbn [walkBack].
  - intro H. injection H as <- <-. split; [discriminate | auto].
  - destruct (Z.ltb_spec (blockNumber - i) 0) as [Hneg | Hpos].
    + intro H. injection H as <- <-. split; [discriminate | auto].
    + destruct (checkBlock api (blockNumber - i)) as [[h [|]] |] eqn:Hcheck.
      * intro H. destruct (IH _ _ _ _ H) as (Hinit & Hlast). split.
        -- intros hash Hh. destruct (Hinit hash Hh) as (n & Hn & Hc).
           exists n. split; [lia | exact Hc].
        -- intros hash Hh. destruct (Hlast hash Hh) as [Heq | (n & Hn & Hc)].
           ++ injection Heq as <-. right. exists (blockNumber - i).
              split; [lia | exact Hcheck].
           ++ right. exists n. split; [lia | exact Hc].
      * intro H. injection H as <- <-. split.
        -- intros hash Hh. injection Hh as <-. exists (blockNumber - i).
           split; [lia | exact Hcheck].
        -- auto.
      * intro H. destruct (IH _ _ _ _ H) as (Hinit & Hlast). split.
        -- intros hash Hh. destruct (Hinit hash Hh) as (n & Hn & Hc).
           exists n. split; [lia | exact Hc].
        -- intros hash Hh. destruct (Hlast hash Hh) as [Heq | (n & Hn & Hc)].
           ++ auto.
           ++ right. exists n. split; [lia | exact Hc].
Qed.

Lemma after_walk (w : option BlockHash * option BlockHash)
  (fallback : Result BlockHash) (hash : BlockHash) :
  match w with
  | (Some initialBlockHash, _) => Ok initialBlockHash
  | (None, Some lastBlockWithEvent) => Ok lastBlockWithEvent
  | (None, None) => fallback
  end = Ok hash ->
  fst w = Some hash
  \/ (fst w = None /\ snd w = Some hash)
  \/ (w = (None, None) /\ fallback = Ok hash).
Proof.
  destruct w as [[i |] [l |]]; simpl; intro H;
    try (injection H as <-); auto.
Qed.

(** X14: the initial block is one of the 50 blocks before the distribution
    block: a block that was read (and then not below block 0), or, when
    none holds information, the block just before the distribution block. *)
Theorem initial_block_within_window
  (api : Chain) (distributionBlock initialBlockHash : BlockHash) (blockNumber : Z) :
  getHeader api distributionBlock = Some blockNumber ->
  findBlockBeforeRewardsCalculated api distributionBlock = Ok initialBlockHash ->
  exists n,
    blockNumber - 50 <= n <= blockNumber - 1
    /\ getBlockHash api n = Some initialBlockHash
    /\ ((0 <= n /\ exists hasEvent, checkBlock api n = Some (initialBlockHash, hasEvent))
        \/ n = blockNumber - 1).
Proof.
  intros Hheader H. unfold findBlockBeforeRewardsCalculated in H.
  apply rethrow_Ok in H. apply bind_Ok in H.
  destruct H as (blockNumber' & Hnumber & H).
  rewrite Hheader in Hnumber. injection Hnumber as <-.
  apply after_walk in H.
  destruct (walkBack api blockNumber 1 searchRange None) as [initial last] eqn:Hwalk.
  destruct (walkBack_blocks api blockNumber searchRange 1 None initial last Hwalk)
    as (Hinit & Hlast).
  unfold remaining in Hinit, Hlast.
  change (Z.of_nat searchRange) with 50 in Hinit, Hlast.
  cbn [fst snd] in H.
  destruct H as [-> | [(-> & ->) | (Hnone & Hfallback)]].
  - destruct (Hinit initialBlockHash eq_refl) as (n & Hn & Hc).
    exists n. split; [lia |]. split; [exact (checkBlock_hash _ _ _ _ Hc) |].
    left. split; [lia | eexists; exact Hc].
  - destruct (Hlast initialBlockHash eq_refl) as [Habs | (n & Hn & Hc)]; [discriminate |].
    exists n. split; [lia |]. split; [exact (checkBlock_hash _ _ _ _ Hc) |].
    left. split; [lia | eexists; exact Hc].
  - exists (blockNumber - 1). split; [lia |].
    split; [apply await_Ok; exact Hfallback |].
    right. reflexivity.
Qed.

Lemma initial_block_within_window_witness :
  exists n,
    4773500 - 50 <= n <= 4773500 - 1
    /\ getBlockHash Sample.chain n = Some "0xd498"
    /\ ((0 <= n /\ exists hasEvent, checkBlock Sample.chain n = Some ("0xd498", hasEvent))
        \/ n = 4773500 - 1).
Proof.
  apply (initial_block_within_window Sample.chain Sample.distributionBlock
           "0xd498" 4773500).
  - reflexivity.
  - vm_compute. reflexivity.
Defined.

Lemma after_walk_Err (w : option BlockHash * option BlockHash)
  (fallback : Result BlockHash) (e : Failure) :
  match w with
  | (Some initialBlockHash, _) => Ok initialBlockHash
  | (None, Some lastBlockWithEvent) => Ok lastBlockWithEvent
  | (None, None) => fallback
  end = Err e ->
  w = (None, None) /\ fallback = Err e.
Proof.
  destruct w as [[i |] [l |]]; simpl; intro H; try discriminate.
  split; [reflexivity | exact H].
Qed.

(** X15: the locator fails only when the header of the distribution block
    cannot be read, or when nothing was learnt from the window and the
    block before the distribution block cannot be resolved. *)
Theorem initial_block_failure
  (api : Chain) (distributionBlock : BlockHash) (e : Failure) :
  findBlockBeforeRewardsCalculated api distributionBlock = Err e ->
  e = Wrapped FailedToFindBlockBefore QueryFailed
  /\ (getHeader api distributionBlock = None
      \/ exists blockNumber,
           getHeader api distributionBlock = Some blockNumber
           /\ getBlockHash api (blockNumber - 1) = None
           /\ walkBack api blockNumber 1 searchRange None = (None, None)).
Proof.
  unfold findBlockBeforeRewardsCalculated. intro H.
  apply rethrow_Err_inv in H. destruct H as (cause & H & ->).
  apply bind_Err in H. destruct H as [H | (blockNumber & Hnumber & H)].
  - destruct (getHeader api distributionBlock); [discriminate |].
    injection H as <-. split; [reflexivity |]. left. reflexivity.
  - apply await_Ok in Hnumber. apply after_walk_Err in H.
    destruct H as (Hwalk & Hfallback).
    destruct (getBlockHash api (blockNumber - 1)) eqn:Hhash; [discriminate |].
    injection Hfallback as <-. split; [reflexivity |].
    right. exists blockNumber.
    split; [exact Hnumber |]. split; [exact Hhash | exact Hwalk].
Qed.

Lemma initial_block_failure_witness :
  Wrapped FailedToFindBlockBefore QueryFailed
  = Wrapped FailedToFindBlockBefore QueryFailed
  /\ (getHeader Sample.chain "0xd445" = None
      \/ exists blockNumber,
           getHeader Sample.chain "0xd445" = Some blockNumber
           /\ getBlockHash Sample.chain (blockNumber - 1) = None
           /\ walkBack Sample.chain blockNumber 1 searchRange None = (None, None)).
Proof.
  apply (initial_block_failure Sample.chain "0xd445"). reflexivity.
Defined.

(** ** What a report contains *)

Lemma analyze_rewards info group rounds nVotes threshold initial final report :
  analyze info group rounds nVotes threshold initial final = Ok report ->
  exists initialSubscription initialVoting finalSubscription finalVoting,
    initial = Tuple initialSubscription initialVoting
    /\ final = Tuple finalSubscription finalVoting
    /\ periodRewards report
       = (finalSubscription - initialSubscription, finalVoting - initialVoting)
    /\ periodInfo report = info /\ groupInfo report = group.
Proof.
  unfold analyze, computePeriodRewards. intro H.
  destruct initial as [si vi |], final as [sf vf |]; try discriminate H.
  cbn [component bnSub bind] in H.
  destruct (deriveSla rounds nVotes threshold) as [ratio meets].
  destruct (reportSla ratio meets) as [l1 l2].
  injection H as <-. exists si, vi, sf, vf. repeat split.
Qed.

(** X16: a run that ends with a report has passed the validation, found a
    distribution block and a non-empty initial block hash, and reports as
    period rewards the difference between the totals stored at those two
    blocks; the rounds and the votes are those of the initial block, the
    group and the period those of the distribution block. *)
Theorem main_report
  (cfg : Config) (api : Chain) (indexer : Indexer)
  (attempts : list Attempt) (report : Report) :
  main cfg api indexer = (attempts, Ok report) ->
  exists stake blockHash initialBlockHash initial final,
    validateInput cfg api = Ok stake
    /\ locateDistributionBlock cfg api indexer = (attempts, Ok blockHash)
    /\ findBlockBeforeRewardsCalculated api blockHash = Ok initialBlockHash
    /\ initialBlockHash <> ""
    /\ earnedRewardsAt api initialBlockHash
         (orEmpty (ADDRESS cfg)) (orEmpty (GROUP_NAMESPACE cfg))
       = Some (Some initial)
    /\ earnedRewardsAt api blockHash
         (orEmpty (ADDRESS cfg)) (orEmpty (GROUP_NAMESPACE cfg))
       = Some (Some final)
    /\ periodRewards report
       = (fst final - fst initial, snd final - snd initial)
    /\ getEligibleRounds cfg api (REWARD_PERIOD_INDEX cfg)
         (orEmpty (GROUP_NAMESPACE cfg)) initialBlockHash
       = Ok (eligibleRounds report)
    /\ getVotesForAddress api (REWARD_PERIOD_INDEX cfg)
         (orEmpty (GROUP_NAMESPACE cfg)) (orEmpty (ADDRESS cfg)) initialBlockHash
       = Ok (votes report)
    /\ getGroupInfo api (orEmpty (GROUP_NAMESPACE cfg)) blockHash
       = Ok (groupInfo report)
    /\ getPeriodInfo api (REWARD_PERIOD_INDEX cfg) blockHash
       = Ok (periodInfo report).
Proof.
  unfold main. intro H.
  destruct (validateInput cfg api) as [stake | e]; [| discriminate H].
  destruct (locateDistributionBlock cfg api indexer) as [tried located].
  injection H as -> H.
  apply bind_Ok in H. destruct H as (blockHash & -> & H).
  unfold analyzeAt in H. cbv zeta in H.
  apply bind_Ok in H. destruct H as (group & Hgroup & H).
  apply rethrow_Ok in Hgroup.
  apply bind_Ok in H. destruct H as (info & Hinfo & H).
  apply rethrow_Ok in Hinfo.
  apply bind_Ok in H. destruct H as (initialBlockHash & Hinitial & H).
  apply rethrow_Ok in Hinitial.
  apply bind_Ok in H. destruct H as (rounds & Hrounds & H).
  apply rethrow_Ok in Hrounds.
  apply bind_Ok in H. destruct H as (nVotes & Hvotes & H).
  apply rethrow_Ok in Hvotes.
  apply bind_Ok in H. destruct H as (threshold & Hthreshold & H).
  apply bind_Ok in H. destruct H as (initialValue & HinitialValue & H).
  apply bind_Ok in H. destruct H as (finalValue & HfinalValue & H).
  apply bind_Ok in H. destruct H as (count & _ & H).
  destruct (analyze_sla _ _ _ _ _ _ _ _ H) as (Hr & Hv & _).
  destruct (analyze_rewards _ _ _ _ _ _ _ _ H)
    as (si & vi & sf & vf & -> & -> & Hperiod & Hpi & Hgi).
  unfold readInitialRewards in HinitialValue. apply rethrow_Ok in HinitialValue.
  unfold readFinalRewards in HfinalValue. apply rethrow_Ok in HfinalValue.
  unfold orElse in Hrounds, Hvotes.
  destruct (String.eqb_spec initialBlockHash "") as [Hempty | Hne];
    [discriminate HinitialValue |].
  cbn [negb] in HinitialValue.
  apply bind_Ok in HinitialValue. destruct HinitialValue as (initial & Hri & Hti).
  apply bind_Ok in HfinalValue. destruct HfinalValue as (final & Hrf & Htf).
  apply getRewardsForAddress_Ok in Hri. apply getRewardsForAddress_Ok in Hrf.
  unfold tupleOf in Hti, Htf. injection Hti as <- <-. injection Htf as <- <-.
  exists stake, blockHash, initialBlockHash, initial, final.
  rewrite Hr, Hv, Hpi, Hgi. repeat split; assumption.
Qed.

Lemma main_report_witness :
  exists stake blockHash initialBlockHash initial final,
    validateInput Sample.config Sample.chain = Ok stake
    /\ locateDistributionBlock Sample.config Sample.chain Sample.unreachable
       = ([SearchingForEvent], Ok blockHash)
    /\ findBlockBeforeRewardsCalculated Sample.chain blockHash = Ok initialBlockHash
    /\ initialBlockHash <> ""
    /\ earnedRewardsAt Sample.chain initialBlockHash
         (orEmpty (ADDRESS Sample.config)) (orEmpty (GROUP_NAMESPACE Sample.config))
       = Some (Some initial)
    /\ earnedRewardsAt Sample.chain blockHash
         (orEmpty (ADDRESS Sample.config)) (orEmpty (GROUP_NAMESPACE Sample.config))
       = Some (Some final)
    /\ periodRewards Sample.report
       = (fst final - fst initial, snd final - snd initial)
    /\ getEligibleRounds Sample.config Sample.chain (REWARD_PERIOD_INDEX Sample.config)
         (orEmpty (GROUP_NAMESPACE Sample.config)) initialBlockHash
       = Ok (eligibleRounds Sample.report)
    /\ getVotesForAddress Sample.chain (REWARD_PERIOD_INDEX Sample.config)
         (orEmpty (GROUP_NAMESPACE Sample.config)) (orEmpty (ADDRESS Sample.config))
         initialBlockHash
       = Ok (votes Sample.report)
    /\ getGroupInfo Sample.chain (orEmpty (GROUP_NAMESPACE Sample.config)) blockHash
       = Ok (groupInfo Sample.report)
    /\ getPeriodInfo Sample.chain (REWARD_PERIOD_INDEX Sample.config) blockHash
       = Ok (periodInfo Sample.report).
Proof.
  apply (main_report Sample.config Sample.chain Sample.unreachable
           [SearchingForEvent] Sample.report).
  vm_compute. reflexivity.
Defined.

Lemma locateDistributionBlock_attempts (cfg : Config) (api : Chain) (indexer : Indexer) :
  fst (locateDistributionBlock cfg api indexer) <> [].
Proof.
  unfold locateDistributionBlock.
  destruct (truthy (SPECIFIC_BLOCK_HASH cfg)); [discriminate |].
  destruct (truthy (INDEXER_URL cfg)); [| discriminate].
  match goal with
  | |- fst (match ?c with _ => _ end) <> _ => destruct c
  end; discriminate.
Qed.

(** X17: the validation is the gate of the run: when it fails the run ends
    with its error and no way of finding the block is tried, and a run
    that tried none is a run whose validation failed. *)
Theorem main_validation_gate (cfg : Config) (api : Chain) (indexer : Indexer) :
  (forall e, validateInput cfg api = Err e ->
             main cfg api indexer = ([], Err e))
  /\ (fst (main cfg api indexer) = [] ->
      exists e, validateInput cfg api = Err e
                /\ snd (main cfg api indexer) = Err e).
Proof.
  unfold main. split.
  - intros e ->. reflexivity.
  - destruct (validateInput cfg api) as [stake | e].
    + assert (Hne := locateDistributionBlock_attempts cfg api indexer).
      destruct (locateDistributionBlock cfg api indexer) as [tried located].
      simpl in *. contradiction.
    + intros _. exists e. split; reflexivity.
Qed.

(** X18: an initial value that is the number 0 (the branch taken for an empty
    initial block hash) never gives a report: the subtraction throws. *)
Theorem zero_initial_rewards_abort
  (cfg : Config) (api : Chain) (blockHash : BlockHash) :
  findBlockBeforeRewardsCalculated api blockHash = Ok "" ->
  readInitialRewards cfg api "" = Ok Zero
  /\ (forall final, computePeriodRewards Zero final = Err TypeError)
  /\ exists e, analyzeAt cfg api blockHash = Err e.
Proof.
  intro Hlocated. split; [reflexivity |].
  split; [intros [sf vf |]; reflexivity |].
  unfold analyzeAt. cbv zeta. rewrite Hlocated. cbn [bind rethrow].
  change (readInitialRewards cfg api "") with (@Ok RewardsValue Zero).
  fails_or_goes_on.
  match goal with
  | |- exists e, analyze _ _ _ _ _ Zero ?final = Err e =>
      unfold analyze; destruct final; eexists; reflexivity
  end.
Qed.

Lemma zero_initial_rewards_abort_witness :
  readInitialRewards Sample.config Sample.emptyHashes "" = Ok Zero
  /\ (forall final, computePeriodRewards Zero final = Err TypeError)
  /\ exists e,
       analyzeAt Sample.config Sample.emptyHashes Sample.distributionBlock = Err e.
Proof.
  apply zero_initial_rewards_abort. vm_compute. reflexivity.
Defined.

(** ** The display in whole tokens *)

(** X19: for an amount that is not negative the whole part and the six-digit
    fraction never overstate the amount and fall short of it by less than
    one unit of the last digit; a negative amount gives the negated parts
    of its absolute value. *)
Theorem toEWT_parts (amount : Z) :
  0 <= amount ->
  0 <= fst (toEWT amount)
  /\ 0 <= snd (toEWT amount) < 10 ^ 6
  /\ fst (toEWT amount) * 10 ^ 18 + snd (toEWT amount) * 10 ^ 12 <= amount
  /\ amount < fst (toEWT amount) * 10 ^ 18 + (snd (toEWT amount) + 1) * 10 ^ 12
  /\ toEWT (- amount) = (- fst (toEWT amount), - snd (toEWT amount)).
Proof.
  intro Hpos. unfold toEWT. cbn [fst snd].
  assert (H18 : 10 ^ 18 = 1000000000000000000) by reflexivity.
  assert (H12 : 10 ^ 12 = 1000000000000) by reflexivity.
  assert (H6 : 10 ^ 6 = 1000000) by reflexivity.
  rewrite H18, H12, H6.
  pose proof (Z.div_mod amount 1000000000000000000 ltac:(lia)) as Ha.
  pose proof (Z.mod_pos_bound amount 1000000000000000000 ltac:(lia)) as Hm.
  pose proof (Z.div_mod (amount mod 1000000000000000000) 1000000000000 ltac:(lia))
    as Hb.
  pose proof (Z.mod_pos_bound (amount mod 1000000000000000000) 1000000000000
                ltac:(lia)) as Hn.
  pose proof (Z.div_pos amount 1000000000000000000 Hpos ltac:(lia)) as Hq.
  rewrite Z.quot_opp_l, Z.rem_opp_l by lia.
  rewrite Z.quot_opp_l by lia.
  rewrite (Z.quot_div_nonneg amount) by lia.
  rewrite Z.rem_mod_nonneg by lia.
  rewrite Z.quot_div_nonneg by lia.
  repeat split; try lia.
Qed.

Lemma toEWT_parts_witness :
  0 <= fst (toEWT 1535257246929821022)
  /\ 0 <= snd (toEWT 1535257246929821022) < 10 ^ 6
  /\ fst (toEWT 1535257246929821022) * 10 ^ 18
     + snd (toEWT 1535257246929821022) * 10 ^ 12 <= 1535257246929821022
  /\ 1535257246929821022
     < fst (toEWT 1535257246929821022) * 10 ^ 18
       + (snd (toEWT 1535257246929821022) + 1) * 10 ^ 12
  /\ toEWT (- 1535257246929821022)
     = (- fst (toEWT 1535257246929821022), - snd (toEWT 1535257246929821022)).
Proof. apply (toEWT_parts 1535257246929821022). lia. Defined.

(** ** The lines of the report about the SLA *)

(** X20: in every report the two SLA lines agree with the figures: "N/A" is
    printed exactly when there is no eligible round or the group has no
    threshold, and "YES" exactly when the verdict is true. *)
Theorem report_sla_lines info group rounds nVotes threshold initial final report :
  analyze info group rounds nVotes threshold initial final = Ok report ->
  (voteRatioLine report = VoteRatioNA <-> rounds = 0 \/ threshold = None)
  /\ (meetsSlaLine report = MeetsSlaNA <-> rounds = 0 \/ threshold = None)
  /\ (meetsSlaLine report = MeetsSlaYes <-> meetsSla report = Some true)
  /\ (forall ratio, voteRatioLine report = VoteRatioFixed ratio <->
                    voteRatio report = Some ratio).
Proof.
  intro H. destruct (analyze_sla _ _ _ _ _ _ _ _ H) as (_ & _ & _ & Hd & Hl).
  unfold deriveSla in Hd.
  destruct (Z.eqb_spec rounds 0) as [Hz | Hnz]; [| destruct threshold as [text |]];
    injection Hd as Hr Hm; rewrite Hr, Hm in Hl; cbn [reportSla] in Hl.
  - injection Hl as Hl1 Hl2. rewrite Hl1, Hl2, Hr, Hm.
    repeat split; intros; auto; try reflexivity; discriminate.
  - rewrite Hr, Hm.
    destruct (PrimFloat.leb _ _); injection Hl as Hl1 Hl2; rewrite Hl1, Hl2;
      repeat split; intros; try discriminate; try reflexivity;
      try congruence;
      match goal with
      | Hor : _ \/ _ |- _ => destruct Hor; [contradiction | discriminate]
      end.
  - injection Hl as Hl1 Hl2. rewrite Hl1, Hl2, Hr, Hm.
    repeat split; intros; auto; try reflexivity; discriminate.
Qed.

(** The report of the sample run, and the one of a group without a
    threshold, for which the 49 eligible rounds give no ratio. *)
Lemma report_sla_lines_witness :
  ((voteRatioLine Sample.report = VoteRatioNA <-> 49 = 0 \/ Some "60.00%" = None)
   /\ (meetsSlaLine Sample.report = MeetsSlaNA <-> 49 = 0 \/ Some "60.00%" = None)
   /\ (meetsSlaLine Sample.report = MeetsSlaYes <-> meetsSla Sample.report = Some true)
   /\ (forall ratio, voteRatioLine Sample.report = VoteRatioFixed ratio <->
                     voteRatio Sample.report = Some ratio))
  /\ exists report,
       analyzeAt Sample.config Sample.noThreshold Sample.distributionBlock = Ok report
       /\ eligibleRounds report = 49
       /\ (voteRatioLine report = VoteRatioNA <-> 49 = 0 \/ @None string = None)
       /\ voteRatioLine report = VoteRatioNA
       /\ meetsSlaLine report = MeetsSlaNA.
Proof.
  split.
  - apply (report_sla_lines (periodInfo Sample.report) (groupInfo Sample.report)
             49 61 (Some "60.00%") (initialRewards Sample.report)
             (finalRewards Sample.report) Sample.report).
    vm_compute. reflexivity.
  - eexists. split; [vm_compute; reflexivity |].
    split; [reflexivity |]. split; [| split; reflexivity].
    apply (report_sla_lines (periodInfo Sample.report)
             {| slaVotingThreshold := None |}
             49 61 None (initialRewards Sample.report)
             (finalRewards Sample.report)).
    vm_compute. reflexivity.
Defined.

(** ** Reads that decide whether the run goes on *)

(** X21: the eligible rounds are [total - (nominated - operator)]; they can be
    computed exactly when the two group counters can be read, the operator
    counter counting as 0 when its read fails or finds nothing. *)
Theorem getEligibleRounds_reads
  (cfg : Config) (api : Chain) (period : jsnum) (groupNs : string)
  (blockHash : BlockHash) :
  (forall rounds,
      getEligibleRounds cfg api period groupNs blockHash = Ok rounds <->
      exists total nominated,
        numberOfVotingsAt api blockHash period groupNs = Some total
        /\ numberOfVotingsWithNominationAt api blockHash period groupNs
           = Some nominated
        /\ rounds
           = total - (nominated
                      - match numberOfOperatorVotingsWithNominationAt api blockHash
                                period (orEmpty (ADDRESS cfg)) groupNs with
                        | Some (Some operator) => operator
                        | _ => 0
                        end))
  /\ (forall e,
        getEligibleRounds cfg api period groupNs blockHash = Err e ->
        e = Wrapped FailedToCalculateEligibleRounds QueryFailed
        /\ (numberOfVotingsAt api blockHash period groupNs = None
            \/ numberOfVotingsWithNominationAt api blockHash period groupNs = None)).
Proof.
  unfold getEligibleRounds.
  destruct (numberOfVotingsAt api blockHash period groupNs) as [total |];
    destruct (numberOfVotingsWithNominationAt api blockHash period groupNs)
      as [nominated |];
    cbn [await bind rethrow]; split.
  - intro rounds. split.
    + intro H. injection H as <-. exists total, nominated.
      repeat split.
    + intros (t & n & Ht & Hn & ->). injection Ht as <-. injection Hn as <-.
      reflexivity.
  - intros e H. discriminate H.
  - intro rounds. split; [discriminate |]. intros (t & n & _ & Hn & _). discriminate.
  - intros e H. injection H as <-. auto.
  - intro rounds. split; [discriminate |]. intros (t & n & Ht & _). discriminate.
  - intros e H. injection H as <-. auto.
  - intro rounds. split; [discriminate |]. intros (t & n & Ht & _). discriminate.
  - intros e H. injection H as <-. auto.
Qed.

(** X22: the count of system voting rounds of all groups is only printed, but
    its read is part of the run: when the last block of the period cannot
    be resolved there is no report. *)
Theorem unresolved_period_end_aborts
  (cfg : Config) (api : Chain) (blockHash : BlockHash)
  (idx firstBlock len p : Z) :
  REWARD_PERIOD_INDEX cfg = Num p ->
  activeRewardPeriodInfoAt api blockHash
  = Some {| Period.index := Num idx; Period.firstBlock := Num firstBlock;
            Period.length := Num len |} ->
  getBlockHash api (firstBlock - (idx - p) * len + len - 1) = None ->
  getAllGroupsSystemVotingRoundsCount api (Num p) blockHash
  = Err (Wrapped FailedToCountSystemVotingRounds QueryFailed)
  /\ exists e, analyzeAt cfg api blockHash = Err e.
Proof.
  intros Hp Hcur Hend.
  assert (Hcount :
    getAllGroupsSystemVotingRoundsCount api (Num p) blockHash
    = Err (Wrapped FailedToCountSystemVotingRounds QueryFailed)).
  { unfold getAllGroupsSystemVotingRoundsCount, getPeriodInfo.
    rewrite Hcur. cbn [await bind]. rewrite periodInfoOf_integers.
    cbn [rethrow bind Period.info_end rpcGetBlockHash]. rewrite Hend. reflexivity. }
  split; [exact Hcount |].
  unfold analyzeAt. cbv zeta. rewrite Hp, Hcount. cbn [rethrow].
  fails_or_goes_on. eexists. reflexivity.
Qed.

Lemma unresolved_period_end_aborts_witness :
  getAllGroupsSystemVotingRoundsCount Sample.periodEndUnknown (Num 614)
    Sample.distributionBlock
  = Err (Wrapped FailedToCountSystemVotingRounds QueryFailed)
  /\ exists e,
       analyzeAt Sample.config Sample.periodEndUnknown Sample.distributionBlock
       = Err e.
Proof.
  apply (unresolved_period_end_aborts Sample.config Sample.periodEndUnknown
           Sample.distributionBlock 620 4809446 7200 614);
    reflexivity.
Defined.

(** ** A threshold that is not a number *)

Lemma leb_nan (x : float) : PrimFloat.leb nan x = false.
Proof.
  rewrite FloatAxioms.leb_spec. unfold SFleb.
  replace (Prim2SF nan) with S754_nan by (vm_compute; reflexivity).
  reflexivity.
Qed.

(** X23: when the threshold text does not start with a number, the comparison
    with [NaN] is false: whatever the ratio, the verdict is "NO". *)
Theorem unreadable_threshold_never_met
  (rounds nVotes : Z) (threshold : string) :
  rounds <> 0 ->
  parseFloat (removeFirst "%"%char threshold) = nan ->
  snd (deriveSla rounds nVotes (Some threshold)) = Some false
  /\ snd (reportSla (fst (deriveSla rounds nVotes (Some threshold)))
                    (snd (deriveSla rounds nVotes (Some threshold)))) = MeetsSlaNo.
Proof.
  intros Hnz Hnan. rewrite (deriveSla_nonzero _ _ _ Hnz). cbn [fst snd reportSla].
  rewrite Hnan, leb_nan. split; reflexivity.
Qed.

Lemma unreadable_threshold_never_met_witness :
  snd (deriveSla 49 61 (Some "N/A")) = Some false
  /\ snd (reportSla (fst (deriveSla 49 61 (Some "N/A")))
                    (snd (deriveSla 49 61 (Some "N/A"))))
     = MeetsSlaNo.
Proof.
  apply (unreadable_threshold_never_met 49 61 "N/A").
  - discriminate.
  - vm_compute. reflexivity.
Defined.

(** ** A pinned hash is final *)

(** X24: once a block hash is pinned nothing else is tried, whatever goes wrong
    with it: the outcome is that very hash, or an error of its
    verification (the event is not there, its arguments are missing, or
    the events of the block cannot be read). *)
Theorem pinned_never_falls_back
  (cfg : Config) (api : Chain) (indexer : Indexer) :
  truthy (SPECIFIC_BLOCK_HASH cfg) = true ->
  fst (locateDistributionBlock cfg api indexer) = [UsingProvidedBlockHash]
  /\ (forall blockHash,
        snd (locateDistributionBlock cfg api indexer) = Ok blockHash ->
        SPECIFIC_BLOCK_HASH cfg = Some blockHash
        /\ exists events event,
             eventsAt api blockHash = Some events
             /\ In event events
             /\ announces event (REWARD_PERIOD_INDEX cfg))
  /\ (forall e,
        snd (locateDistributionBlock cfg api indexer) = Err e ->
        e = Wrapped FailedToVerifyProvidedBlock EventNotInProvidedBlock
        \/ e = Wrapped FailedToVerifyProvidedBlock TypeError
        \/ e = Wrapped FailedToVerifyProvidedBlock QueryFailed).
Proof.
  intro Hpin. unfold locateDistributionBlock. rewrite Hpin. cbn [fst snd].
  split; [reflexivity |].
  destruct (SPECIFIC_BLOCK_HASH cfg) as [hash |]; [| discriminate Hpin].
  cbn [orEmpty].
  destruct (eventsAt api hash) as [events |] eqn:Hevents; cbn [await bind].
  - destruct (hasRewardsCalculatedForPeriod events (REWARD_PERIOD_INDEX cfg))
      as [[|] | cause] eqn:Hfound; cbn [bind rethrow].
    + split.
      * intros h H. injection H as <-. split; [reflexivity |].
        destruct (hasRewardsCalculatedForPeriod_true _ _ Hfound)
          as (event & Hin & Ha).
        exists events, event. split; [exact Hevents | split; assumption].
      * intros e H. discriminate H.
    + split.
      * intros h H. discriminate H.
      * intros e H. injection H as <-. auto.
    + assert (cause = TypeError) as ->.
      { clear Hevents Hpin. induction events as [| ev rest IH];
          cbn [hasRewardsCalculatedForPeriod] in Hfound; [discriminate |].
        destruct ((section ev =? "workerNodePallet")%string
                  && (method ev =? "RewardsCalculatedForPeriod")%string);
          [| exact (IH Hfound)].
        destruct (data ev) as [| d args]; [congruence |].
        destruct (jsnum_eqb (Num d) (REWARD_PERIOD_INDEX cfg));
          [discriminate | exact (IH Hfound)]. }
      split.
      * intros h H. discriminate H.
      * intros e H. injection H as <-. auto.
  - cbn [rethrow]. split.
    + intros h H. discriminate H.
    + intros e H. injection H as <-. auto.
Qed.

Lemma pinned_never_falls_back_witness :
  fst (locateDistributionBlock Sample.pinnedRight Sample.chain Sample.upToDate)
  = [UsingProvidedBlockHash]
  /\ (forall blockHash,
        snd (locateDistributionBlock Sample.pinnedRight Sample.chain Sample.upToDate)
        = Ok blockHash ->
        SPECIFIC_BLOCK_HASH Sample.pinnedRight = Some blockHash
        /\ exists events event,
             eventsAt Sample.chain blockHash = Some events
             /\ In event events
             /\ announces event (REWARD_PERIOD_INDEX Sample.pinnedRight))
  /\ (forall e,
        snd (locateDistributionBlock Sample.pinnedRight Sample.chain Sample.upToDate)
        = Err e ->
        e = Wrapped FailedToVerifyProvidedBlock EventNotInProvidedBlock
        \/ e = Wrapped FailedToVerifyProvidedBlock TypeError
        \/ e = Wrapped FailedToVerifyProvidedBlock QueryFailed).
Proof.
  apply (pinned_never_falls_back Sample.pinnedRight Sample.chain Sample.upToDate).
  reflexivity.
Defined.
